(** * Transcript metrics of [metric.py]

    A shallow embedding of the metric functions of [metric.py] and the
    properties its specification states about them.

    Conventions of the embedding.
    - A Python function that can raise returns a [result]; the exceptions
      that matter are [IndexError] (list index out of range), [KeyError]
      (missing dict key) and [ZeroDivisionError].
    - [for] loops are written with [for_each] (a body that falls through to
      the next iteration or leaves the loop with a value: [return], [break])
      or [for_all] (no early exit).
    - True division of two Python ints is the exact rational, kept reduced
      ([truediv]); [float("inf")] is a constructor of its own.  Where the
      source calls [np.exp] the value is a real number ([R]).  A mean
      ([np.mean], the [mean()] of a Series) is the exact mean, or [nan]
      without a sample.
    - Strings are byte strings (UTF-8); [str.lower] lowers their code
      points with the tables of Unicode. *)

From Stdlib Require Import List String Ascii Bool Arith Lia NArith ZArith QArith
  Qreduction.
From Stdlib Require Import Reals Lra Qreals.
From Stdlib Require Lqa.
Import ListNotations.

Close Scope Q_scope.
Close Scope R_scope.
Close Scope Z_scope.
Open Scope string_scope.
Open Scope list_scope.
Open Scope nat_scope.

(** [len(l)] on lists. *)
Abbreviation len := List.length.

(** ** Exceptions and control flow *)

Inductive exn : Set := IndexError | KeyError | ZeroDivisionError.

Inductive result (A : Type) : Type :=
| Ok (a : A)
| Raise (e : exn).
Arguments Ok {A} a.
Arguments Raise {A} e.

Definition bind {A B : Type} (c : result A) (k : A -> result B) : result B :=
  match c with
  | Ok a => k a
  | Raise e => Raise e
  end.

Notation "x <- c ;; k" := (bind c (fun x => k))
  (at level 61, c at next level, right associativity).
Notation "' pat <- c ;; k" := (bind c (fun x => match x with pat => k end))
  (at level 61, pat pattern, c at next level, right associativity).

(** What one iteration of a loop body does: fall through to the next
    iteration with the loop state, or leave the loop with a value. *)
Inductive flow (S V : Type) : Type :=
| Next (s : S)
| Leave (v : V).
Arguments Next {S V} s.
Arguments Leave {S V} v.

(** [for x in xs: body], where [body] may leave the loop early. *)
Fixpoint for_each {X S V : Type} (xs : list X)
    (body : X -> S -> result (flow S V)) (s : S) : result (flow S V) :=
  match xs with
  | [] => Ok (Next s)
  | x :: xs' =>
      match body x s with
      | Ok (Next s') => for_each xs' body s'
      | Ok (Leave v) => Ok (Leave v)
      | Raise e => Raise e
      end
  end.

(** [for x in xs: body], without [break] or [return]. *)
Fixpoint for_all {X S : Type} (xs : list X)
    (body : X -> S -> result S) (s : S) : result S :=
  match xs with
  | [] => Ok s
  | x :: xs' =>
      match body x s with
      | Ok s' => for_all xs' body s'
      | Raise e => Raise e
      end
  end.

(** ** Python built-ins *)

(** [l[i]] for [i >= 0]. *)
Definition index {X : Type} (l : list X) (i : nat) : result X :=
  match nth_error l i with
  | Some x => Ok x
  | None => Raise IndexError
  end.

(** [l[-1]]. *)
Definition last_item {X : Type} (l : list X) : result X :=
  match rev l with
  | x :: _ => Ok x
  | [] => Raise IndexError
  end.

(** [d[key]] for a key that a record may lack. *)
Definition getitem {X : Type} (field : option X) : result X :=
  match field with
  | Some x => Ok x
  | None => Raise KeyError
  end.

(** [key in d.keys()]. *)
Definition has_key {X : Type} (field : option X) : bool :=
  match field with
  | Some _ => true
  | None => false
  end.

Definition range (n : nat) : list nat := seq 0 n.

Definition zip {X Y : Type} (xs : list X) (ys : list Y) : list (X * Y) :=
  combine xs ys.

(** [a / b] on ints: the exact quotient, in lowest terms. *)
Definition truediv (a b : nat) : result Q :=
  match b with
  | 0 => Raise ZeroDivisionError
  | S _ => Ok (Qred (Z.of_nat a # Pos.of_nat b))
  end.

(** A Python float that is either finite or [float("inf")]. *)
Inductive pyfloat : Set :=
| Finite (q : Q)
| PosInf.

(** The values an assistant message can hold. *)
Inductive pyval : Set :=
| PyNone
| PyStr (s : string).

(** [str(v)]. *)
Definition str (v : pyval) : string :=
  match v with
  | PyNone => "None"
  | PyStr s => s
  end.

(** [v is None]. *)
Definition is_None (v : pyval) : bool :=
  match v with
  | PyNone => true
  | PyStr _ => false
  end.

(** ** [str.lower]

    A Python string is a sequence of code points; here it is the byte
    string of its UTF-8 encoding.  [str.lower] works on the code points:
    each one is replaced by its lowercase mapping, which for U+0130 is two
    code points, and a capital sigma becomes a final or a medial small
    sigma by the cased letters around it.  The three tables are those of
    Unicode 14.0.0, the version CPython 3.11 ships. *)

(** A byte of the form [10xxxxxx]. *)
Definition is_continuation (b : N) : bool :=
  ((128 <=? b) && (b <? 192))%N.

(** The code points of a UTF-8 byte string; [None] when the bytes are not
    UTF-8. *)
Fixpoint utf8_decode (s : string) : option (list N) :=
  match s with
  | EmptyString => Some []
  | String c0 s1 =>
      let b0 := N_of_ascii c0 in
      if (b0 <? 128)%N then option_map (cons b0) (utf8_decode s1)
      else
        match s1 with
        | EmptyString => None
        | String c1 s2 =>
            let b1 := N_of_ascii c1 in
            if negb (is_continuation b1) then None
            else if ((192 <=? b0) && (b0 <? 224))%N then
              let cp := ((b0 - 192) * 64 + (b1 - 128))%N in
              if (cp <? 128)%N then None
              else option_map (cons cp) (utf8_decode s2)
            else
              match s2 with
              | EmptyString => None
              | String c2 s3 =>
                  let b2 := N_of_ascii c2 in
                  if negb (is_continuation b2) then None
                  else if (b0 <? 240)%N then
                    let cp := ((b0 - 224) * 4096 + (b1 - 128) * 64
                               + (b2 - 128))%N in
                    if (cp <? 2048)%N then None
                    else option_map (cons cp) (utf8_decode s3)
                  else
                    match s3 with
                    | EmptyString => None
                    | String c3 s4 =>
                        let b3 := N_of_ascii c3 in
                        if negb (is_continuation b3) then None
                        else
                          let cp := ((b0 - 240) * 262144 + (b1 - 128) * 4096
                                     + (b2 - 128) * 64 + (b3 - 128))%N in
                          if ((cp <? 65536) || (1114111 <? cp))%N then None
                          else option_map (cons cp) (utf8_decode s4)
                    end
              end
        end
  end.

(** The UTF-8 bytes of one code point. *)
Definition utf8_bytes (cp : N) : string :=
  if (cp <? 128)%N then String (ascii_of_N cp) EmptyString
  else if (cp <? 2048)%N then
    String (ascii_of_N (192 + cp / 64))
      (String (ascii_of_N (128 + cp mod 64)) EmptyString)
  else if (cp <? 65536)%N then
    String (ascii_of_N (224 + cp / 4096))
      (String (ascii_of_N (128 + (cp / 64) mod 64))
         (String (ascii_of_N (128 + cp mod 64)) EmptyString))
  else
    String (ascii_of_N (240 + cp / 262144))
      (String (ascii_of_N (128 + (cp / 4096) mod 64))
         (String (ascii_of_N (128 + (cp / 64) mod 64))
            (String (ascii_of_N (128 + cp mod 64)) EmptyString))).

Fixpoint utf8_encode (cps : list N) : string :=
  match cps with
  | [] => EmptyString
  | cp :: cps' => String.append (utf8_bytes cp) (utf8_encode cps')
  end.

(** The simple lowercase mappings.  An entry [(first, last, step, to)]
    maps every [step]-th code point from [first] to [last]: [first] to
    [to], and the others at the same distance. *)
Definition LOWERCASE : list (N * N * N * N) :=
  [
    (65, 90, 1, 97); (192, 214, 1, 224); (216, 222, 1, 248);
    (256, 302, 2, 257); (306, 310, 2, 307); (313, 327, 2, 314);
    (330, 374, 2, 331); (376, 376, 1, 255); (377, 381, 2, 378);
    (385, 385, 1, 595); (386, 388, 2, 387); (390, 390, 1, 596);
    (391, 391, 1, 392); (393, 394, 1, 598); (395, 395, 1, 396);
    (398, 398, 1, 477); (399, 399, 1, 601); (400, 400, 1, 603);
    (401, 401, 1, 402); (403, 403, 1, 608); (404, 404, 1, 611);
    (406, 406, 1, 617); (407, 407, 1, 616); (408, 408, 1, 409);
    (412, 412, 1, 623); (413, 413, 1, 626); (415, 415, 1, 629);
    (416, 420, 2, 417); (422, 422, 1, 640); (423, 423, 1, 424);
    (425, 425, 1, 643); (428, 428, 1, 429); (430, 430, 1, 648);
    (431, 431, 1, 432); (433, 434, 1, 650); (435, 437, 2, 436);
    (439, 439, 1, 658); (440, 440, 1, 441); (444, 444, 1, 445);
    (452, 452, 1, 454); (453, 453, 1, 454); (455, 455, 1, 457);
    (456, 456, 1, 457); (458, 458, 1, 460); (459, 475, 2, 460);
    (478, 494, 2, 479); (497, 497, 1, 499); (498, 500, 2, 499);
    (502, 502, 1, 405); (503, 503, 1, 447); (504, 542, 2, 505);
    (544, 544, 1, 414); (546, 562, 2, 547); (570, 570, 1, 11365);
    (571, 571, 1, 572); (573, 573, 1, 410); (574, 574, 1, 11366);
    (577, 577, 1, 578); (579, 579, 1, 384); (580, 580, 1, 649);
    (581, 581, 1, 652); (582, 590, 2, 583); (880, 882, 2, 881);
    (886, 886, 1, 887); (895, 895, 1, 1011); (902, 902, 1, 940);
    (904, 906, 1, 941); (908, 908, 1, 972); (910, 911, 1, 973);
    (913, 929, 1, 945); (931, 939, 1, 963); (975, 975, 1, 983);
    (984, 1006, 2, 985); (1012, 1012, 1, 952); (1015, 1015, 1, 1016);
    (1017, 1017, 1, 1010); (1018, 1018, 1, 1019); (1021, 1023, 1, 891);
    (1024, 1039, 1, 1104); (1040, 1071, 1, 1072); (1120, 1152, 2, 1121);
    (1162, 1214, 2, 1163); (1216, 1216, 1, 1231); (1217, 1229, 2, 1218);
    (1232, 1326, 2, 1233); (1329, 1366, 1, 1377); (4256, 4293, 1, 11520);
    (4295, 4295, 1, 11559); (4301, 4301, 1, 11565); (5024, 5103, 1, 43888);
    (5104, 5109, 1, 5112); (7312, 7354, 1, 4304); (7357, 7359, 1, 4349);
    (7680, 7828, 2, 7681); (7838, 7838, 1, 223); (7840, 7934, 2, 7841);
    (7944, 7951, 1, 7936); (7960, 7965, 1, 7952); (7976, 7983, 1, 7968);
    (7992, 7999, 1, 7984); (8008, 8013, 1, 8000); (8025, 8031, 2, 8017);
    (8040, 8047, 1, 8032); (8072, 8079, 1, 8064); (8088, 8095, 1, 8080);
    (8104, 8111, 1, 8096); (8120, 8121, 1, 8112); (8122, 8123, 1, 8048);
    (8124, 8124, 1, 8115); (8136, 8139, 1, 8050); (8140, 8140, 1, 8131);
    (8152, 8153, 1, 8144); (8154, 8155, 1, 8054); (8168, 8169, 1, 8160);
    (8170, 8171, 1, 8058); (8172, 8172, 1, 8165); (8184, 8185, 1, 8056);
    (8186, 8187, 1, 8060); (8188, 8188, 1, 8179); (8486, 8486, 1, 969);
    (8490, 8490, 1, 107); (8491, 8491, 1, 229); (8498, 8498, 1, 8526);
    (8544, 8559, 1, 8560); (8579, 8579, 1, 8580); (9398, 9423, 1, 9424);
    (11264, 11311, 1, 11312); (11360, 11360, 1, 11361);
    (11362, 11362, 1, 619); (11363, 11363, 1, 7549); (11364, 11364, 1, 637);
    (11367, 11371, 2, 11368); (11373, 11373, 1, 593); (11374, 11374, 1, 625);
    (11375, 11375, 1, 592); (11376, 11376, 1, 594); (11378, 11378, 1, 11379);
    (11381, 11381, 1, 11382); (11390, 11391, 1, 575);
    (11392, 11490, 2, 11393); (11499, 11501, 2, 11500);
    (11506, 11506, 1, 11507); (42560, 42604, 2, 42561);
    (42624, 42650, 2, 42625); (42786, 42798, 2, 42787);
    (42802, 42862, 2, 42803); (42873, 42875, 2, 42874);
    (42877, 42877, 1, 7545); (42878, 42886, 2, 42879);
    (42891, 42891, 1, 42892); (42893, 42893, 1, 613);
    (42896, 42898, 2, 42897); (42902, 42920, 2, 42903);
    (42922, 42922, 1, 614); (42923, 42923, 1, 604); (42924, 42924, 1, 609);
    (42925, 42925, 1, 620); (42926, 42926, 1, 618); (42928, 42928, 1, 670);
    (42929, 42929, 1, 647); (42930, 42930, 1, 669); (42931, 42931, 1, 43859);
    (42932, 42946, 2, 42933); (42948, 42948, 1, 42900);
    (42949, 42949, 1, 642); (42950, 42950, 1, 7566); (42951, 42953, 2, 42952);
    (42960, 42960, 1, 42961); (42966, 42968, 2, 42967);
    (42997, 42997, 1, 42998); (65313, 65338, 1, 65345);
    (66560, 66599, 1, 66600); (66736, 66771, 1, 66776);
    (66928, 66938, 1, 66967); (66940, 66954, 1, 66979);
    (66956, 66962, 1, 66995); (66964, 66965, 1, 67003);
    (68736, 68786, 1, 68800); (71840, 71871, 1, 71872);
    (93760, 93791, 1, 93792); (125184, 125217, 1, 125218)
  ]%N.

(** The code points with the property Cased, as ranges. *)
Definition CASED : list (N * N) :=
  [
    (65, 90); (97, 122); (170, 170); (181, 181); (186, 186); (192, 214);
    (216, 246); (248, 442); (444, 447); (452, 659); (661, 696); (704, 705);
    (736, 740); (837, 837); (880, 883); (886, 887); (890, 893); (895, 895);
    (902, 902); (904, 906); (908, 908); (910, 929); (931, 1013); (1015, 1153);
    (1162, 1327); (1329, 1366); (1376, 1416); (4256, 4293); (4295, 4295);
    (4301, 4301); (4304, 4346); (4349, 4351); (5024, 5109); (5112, 5117);
    (7296, 7304); (7312, 7354); (7357, 7359); (7424, 7615); (7680, 7957);
    (7960, 7965); (7968, 8005); (8008, 8013); (8016, 8023); (8025, 8025);
    (8027, 8027); (8029, 8029); (8031, 8061); (8064, 8116); (8118, 8124);
    (8126, 8126); (8130, 8132); (8134, 8140); (8144, 8147); (8150, 8155);
    (8160, 8172); (8178, 8180); (8182, 8188); (8305, 8305); (8319, 8319);
    (8336, 8348); (8450, 8450); (8455, 8455); (8458, 8467); (8469, 8469);
    (8473, 8477); (8484, 8484); (8486, 8486); (8488, 8488); (8490, 8493);
    (8495, 8500); (8505, 8505); (8508, 8511); (8517, 8521); (8526, 8526);
    (8544, 8575); (8579, 8580); (9398, 9449); (11264, 11492); (11499, 11502);
    (11506, 11507); (11520, 11557); (11559, 11559); (11565, 11565);
    (42560, 42605); (42624, 42653); (42786, 42887); (42891, 42894);
    (42896, 42954); (42960, 42961); (42963, 42963); (42965, 42969);
    (42997, 42998); (43000, 43002); (43824, 43866); (43868, 43880);
    (43888, 43967); (64256, 64262); (64275, 64279); (65313, 65338);
    (65345, 65370); (66560, 66639); (66736, 66771); (66776, 66811);
    (66928, 66938); (66940, 66954); (66956, 66962); (66964, 66965);
    (66967, 66977); (66979, 66993); (66995, 67001); (67003, 67004);
    (67456, 67456); (67459, 67461); (67463, 67504); (67506, 67514);
    (68736, 68786); (68800, 68850); (71840, 71903); (93760, 93823);
    (119808, 119892); (119894, 119964); (119966, 119967); (119970, 119970);
    (119973, 119974); (119977, 119980); (119982, 119993); (119995, 119995);
    (119997, 120003); (120005, 120069); (120071, 120074); (120077, 120084);
    (120086, 120092); (120094, 120121); (120123, 120126); (120128, 120132);
    (120134, 120134); (120138, 120144); (120146, 120485); (120488, 120512);
    (120514, 120538); (120540, 120570); (120572, 120596); (120598, 120628);
    (120630, 120654); (120656, 120686); (120688, 120712); (120714, 120744);
    (120746, 120770); (120772, 120779); (122624, 122633); (122635, 122654);
    (125184, 125251); (127280, 127305); (127312, 127337); (127344, 127369)
  ]%N.

(** The code points with the property Case_Ignorable, as ranges. *)
Definition CASE_IGNORABLE : list (N * N) :=
  [
    (39, 39); (46, 46); (58, 58); (94, 94); (96, 96); (168, 168); (173, 173);
    (175, 175); (180, 180); (183, 184); (688, 879); (884, 885); (890, 890);
    (900, 901); (903, 903); (1155, 1161); (1369, 1369); (1375, 1375);
    (1425, 1469); (1471, 1471); (1473, 1474); (1476, 1477); (1479, 1479);
    (1524, 1524); (1536, 1541); (1552, 1562); (1564, 1564); (1600, 1600);
    (1611, 1631); (1648, 1648); (1750, 1757); (1759, 1768); (1770, 1773);
    (1807, 1807); (1809, 1809); (1840, 1866); (1958, 1968); (2027, 2037);
    (2042, 2042); (2045, 2045); (2070, 2093); (2137, 2139); (2184, 2184);
    (2192, 2193); (2200, 2207); (2249, 2306); (2362, 2362); (2364, 2364);
    (2369, 2376); (2381, 2381); (2385, 2391); (2402, 2403); (2417, 2417);
    (2433, 2433); (2492, 2492); (2497, 2500); (2509, 2509); (2530, 2531);
    (2558, 2558); (2561, 2562); (2620, 2620); (2625, 2626); (2631, 2632);
    (2635, 2637); (2641, 2641); (2672, 2673); (2677, 2677); (2689, 2690);
    (2748, 2748); (2753, 2757); (2759, 2760); (2765, 2765); (2786, 2787);
    (2810, 2815); (2817, 2817); (2876, 2876); (2879, 2879); (2881, 2884);
    (2893, 2893); (2901, 2902); (2914, 2915); (2946, 2946); (3008, 3008);
    (3021, 3021); (3072, 3072); (3076, 3076); (3132, 3132); (3134, 3136);
    (3142, 3144); (3146, 3149); (3157, 3158); (3170, 3171); (3201, 3201);
    (3260, 3260); (3263, 3263); (3270, 3270); (3276, 3277); (3298, 3299);
    (3328, 3329); (3387, 3388); (3393, 3396); (3405, 3405); (3426, 3427);
    (3457, 3457); (3530, 3530); (3538, 3540); (3542, 3542); (3633, 3633);
    (3636, 3642); (3654, 3662); (3761, 3761); (3764, 3772); (3782, 3782);
    (3784, 3789); (3864, 3865); (3893, 3893); (3895, 3895); (3897, 3897);
    (3953, 3966); (3968, 3972); (3974, 3975); (3981, 3991); (3993, 4028);
    (4038, 4038); (4141, 4144); (4146, 4151); (4153, 4154); (4157, 4158);
    (4184, 4185); (4190, 4192); (4209, 4212); (4226, 4226); (4229, 4230);
    (4237, 4237); (4253, 4253); (4348, 4348); (4957, 4959); (5906, 5908);
    (5938, 5939); (5970, 5971); (6002, 6003); (6068, 6069); (6071, 6077);
    (6086, 6086); (6089, 6099); (6103, 6103); (6109, 6109); (6155, 6159);
    (6211, 6211); (6277, 6278); (6313, 6313); (6432, 6434); (6439, 6440);
    (6450, 6450); (6457, 6459); (6679, 6680); (6683, 6683); (6742, 6742);
    (6744, 6750); (6752, 6752); (6754, 6754); (6757, 6764); (6771, 6780);
    (6783, 6783); (6823, 6823); (6832, 6862); (6912, 6915); (6964, 6964);
    (6966, 6970); (6972, 6972); (6978, 6978); (7019, 7027); (7040, 7041);
    (7074, 7077); (7080, 7081); (7083, 7085); (7142, 7142); (7144, 7145);
    (7149, 7149); (7151, 7153); (7212, 7219); (7222, 7223); (7288, 7293);
    (7376, 7378); (7380, 7392); (7394, 7400); (7405, 7405); (7412, 7412);
    (7416, 7417); (7468, 7530); (7544, 7544); (7579, 7679); (8125, 8125);
    (8127, 8129); (8141, 8143); (8157, 8159); (8173, 8175); (8189, 8190);
    (8203, 8207); (8216, 8217); (8228, 8228); (8231, 8231); (8234, 8238);
    (8288, 8292); (8294, 8303); (8305, 8305); (8319, 8319); (8336, 8348);
    (8400, 8432); (11388, 11389); (11503, 11505); (11631, 11631);
    (11647, 11647); (11744, 11775); (11823, 11823); (12293, 12293);
    (12330, 12333); (12337, 12341); (12347, 12347); (12441, 12446);
    (12540, 12542); (40981, 40981); (42232, 42237); (42508, 42508);
    (42607, 42610); (42612, 42621); (42623, 42623); (42652, 42655);
    (42736, 42737); (42752, 42785); (42864, 42864); (42888, 42890);
    (42994, 42996); (43000, 43001); (43010, 43010); (43014, 43014);
    (43019, 43019); (43045, 43046); (43052, 43052); (43204, 43205);
    (43232, 43249); (43263, 43263); (43302, 43309); (43335, 43345);
    (43392, 43394); (43443, 43443); (43446, 43449); (43452, 43453);
    (43471, 43471); (43493, 43494); (43561, 43566); (43569, 43570);
    (43573, 43574); (43587, 43587); (43596, 43596); (43632, 43632);
    (43644, 43644); (43696, 43696); (43698, 43700); (43703, 43704);
    (43710, 43711); (43713, 43713); (43741, 43741); (43756, 43757);
    (43763, 43764); (43766, 43766); (43867, 43871); (43881, 43883);
    (44005, 44005); (44008, 44008); (44013, 44013); (64286, 64286);
    (64434, 64450); (65024, 65039); (65043, 65043); (65056, 65071);
    (65106, 65106); (65109, 65109); (65279, 65279); (65287, 65287);
    (65294, 65294); (65306, 65306); (65342, 65342); (65344, 65344);
    (65392, 65392); (65438, 65439); (65507, 65507); (65529, 65531);
    (66045, 66045); (66272, 66272); (66422, 66426); (67456, 67461);
    (67463, 67504); (67506, 67514); (68097, 68099); (68101, 68102);
    (68108, 68111); (68152, 68154); (68159, 68159); (68325, 68326);
    (68900, 68903); (69291, 69292); (69446, 69456); (69506, 69509);
    (69633, 69633); (69688, 69702); (69744, 69744); (69747, 69748);
    (69759, 69761); (69811, 69814); (69817, 69818); (69821, 69821);
    (69826, 69826); (69837, 69837); (69888, 69890); (69927, 69931);
    (69933, 69940); (70003, 70003); (70016, 70017); (70070, 70078);
    (70089, 70092); (70095, 70095); (70191, 70193); (70196, 70196);
    (70198, 70199); (70206, 70206); (70367, 70367); (70371, 70378);
    (70400, 70401); (70459, 70460); (70464, 70464); (70502, 70508);
    (70512, 70516); (70712, 70719); (70722, 70724); (70726, 70726);
    (70750, 70750); (70835, 70840); (70842, 70842); (70847, 70848);
    (70850, 70851); (71090, 71093); (71100, 71101); (71103, 71104);
    (71132, 71133); (71219, 71226); (71229, 71229); (71231, 71232);
    (71339, 71339); (71341, 71341); (71344, 71349); (71351, 71351);
    (71453, 71455); (71458, 71461); (71463, 71467); (71727, 71735);
    (71737, 71738); (71995, 71996); (71998, 71998); (72003, 72003);
    (72148, 72151); (72154, 72155); (72160, 72160); (72193, 72202);
    (72243, 72248); (72251, 72254); (72263, 72263); (72273, 72278);
    (72281, 72283); (72330, 72342); (72344, 72345); (72752, 72758);
    (72760, 72765); (72767, 72767); (72850, 72871); (72874, 72880);
    (72882, 72883); (72885, 72886); (73009, 73014); (73018, 73018);
    (73020, 73021); (73023, 73029); (73031, 73031); (73104, 73105);
    (73109, 73109); (73111, 73111); (73459, 73460); (78896, 78904);
    (92912, 92916); (92976, 92982); (92992, 92995); (94031, 94031);
    (94095, 94111); (94176, 94177); (94179, 94180); (110576, 110579);
    (110581, 110587); (110589, 110590); (113821, 113822); (113824, 113827);
    (118528, 118573); (118576, 118598); (119143, 119145); (119155, 119170);
    (119173, 119179); (119210, 119213); (119362, 119364); (121344, 121398);
    (121403, 121452); (121461, 121461); (121476, 121476); (121499, 121503);
    (121505, 121519); (122880, 122886); (122888, 122904); (122907, 122913);
    (122915, 122916); (122918, 122922); (123184, 123197); (123566, 123566);
    (123628, 123631); (125136, 125142); (125252, 125259); (127995, 127999);
    (917505, 917505); (917536, 917631); (917760, 917999)
  ]%N.

Definition in_ranges (table : list (N * N)) (cp : N) : bool :=
  existsb (fun '(first, last) => ((first <=? cp) && (cp <=? last))%N) table.

Definition is_cased (cp : N) : bool := in_ranges CASED cp.

Definition is_case_ignorable (cp : N) : bool := in_ranges CASE_IGNORABLE cp.

(** The lowercase mapping of one code point, Sigma apart. *)
Definition to_lower (cp : N) : N :=
  match
    find (fun '(first, last, step, _) =>
            ((first <=? cp) && (cp <=? last)
             && ((cp - first) mod step =? 0))%N)
         LOWERCASE
  with
  | Some (first, _, _, to) => (to + (cp - first))%N
  | None => cp
  end.

Definition to_lower_full (cp : N) : list N :=
  if (cp =? 304)%N then [105; 775]%N else [to_lower cp].

(** The first code point of [cps] that is not case-ignorable. *)
Fixpoint first_not_ignorable (cps : list N) : option N :=
  match cps with
  | [] => None
  | cp :: cps' =>
      if is_case_ignorable cp then first_not_ignorable cps' else Some cp
  end.

(** The small sigma a capital sigma becomes: the final one (U+03C2) after
    a cased letter and not before one, case-ignorable code points apart;
    else the medial one (U+03C3).  [before] is what precedes the sigma,
    nearest first. *)
Definition lower_sigma (before after : list N) : N :=
  let final_sigma :=
    match first_not_ignorable before with
    | Some cp => is_cased cp
    | None => false
    end in
  let final_sigma :=
    if final_sigma then
      match first_not_ignorable after with
      | Some cp => negb (is_cased cp)
      | None => true
      end
    else false in
  if final_sigma then 962%N else 963%N.

Fixpoint lower_code_points (before cps : list N) : list N :=
  match cps with
  | [] => []
  | cp :: after =>
      (if (cp =? 931)%N then [lower_sigma before after]
       else to_lower_full cp)
      ++ lower_code_points (cp :: before) after
  end.

(** [s.lower()].  Bytes that are not UTF-8 stand for no Python string and
    are left as they are. *)
Definition lower (s : string) : string :=
  match utf8_decode s with
  | Some cps => utf8_encode (lower_code_points [] cps)
  | None => s
  end.

(** [needle in hay] on strings. *)
Fixpoint contains (needle hay : string) : bool :=
  if prefix needle hay then true
  else match hay with
       | EmptyString => false
       | String _ hay' => contains needle hay'
       end.

(** ** Constant tables *)

(** The sixth phrase is the source's: the bytes of a curly apostrophe read
    in the wrong encoding, [can] followed by C3 A2, E2 82 AC, E2 84 A2 and
    [t]. *)
Definition APOLOGETIC_SUBSTRING : list string :=
  [ "sorry";
    "apologize";
    "cannot";
    "could not";
    "couldn't";
    String.append "can"
      (String "195" (String "162" (String "226" (String "130"
        (String "172" (String "226" (String "132" (String "162" "t"))))))));
    "unable";
    "unfortunately";
    "not successful";
    "lacks" ].

Definition API_LIST : list string :=
  [ "GorillaFileSystem"; "MathAPI"; "MessageAPI";
    "TwitterAPI"; "TicketAPI"; "TradingBot";
    "TravelAPI"; "VehicleControlAPI" ].

(** ** Data model *)

(** Equality of opaque state content ([==] on the per-API records). *)
Class EqDec (A : Type) : Type :=
  eq_dec : forall x y : A, {x = y} + {x <> y}.

#[export] Instance string_EqDec : EqDec string := string_dec.
#[export] Instance nat_EqDec : EqDec nat := Nat.eq_dec.

(** One entry of a tool-result list; [content] is the raw text. *)
Record ToolResponse : Set := mkToolResponse {
  content : string
}.

(** One step of a turn.  [handler_response] is present when the step
    issued a call; [assistant_content] is
    [step['assistant_response']['content']], absent when the step has no
    such entry. *)
Record Step : Set := mkStep {
  num_tools : nat;
  tool_response : list ToolResponse;
  handler_response : option string;
  assistant_content : option pyval
}.

(** One per-API state record: its [class_name] and everything else it
    holds. *)
Record ApiState (C : Type) : Type := mkApiState {
  class_name : string;
  attributes : C
}.
Arguments mkApiState {C} class_name attributes.
Arguments class_name {C} a.
Arguments attributes {C} a.

Record Turn (C : Type) : Type := mkTurn {
  num_steps : nat;
  step_responses : list Step;
  end_of_turn_state : list (ApiState C)
}.
Arguments mkTurn {C} num_steps step_responses end_of_turn_state.
Arguments num_steps {C} t.
Arguments step_responses {C} t.
Arguments end_of_turn_state {C} t.

Record Transcript (C : Type) : Type := mkTranscript {
  turn_responses : list (Turn C);
  ground_truth_log : list (list (ApiState C));
  error_type : list string
}.
Arguments mkTranscript {C} turn_responses ground_truth_log error_type.
Arguments turn_responses {C} t.
Arguments ground_truth_log {C} t.
Arguments error_type {C} t.

#[export] Instance ApiState_EqDec {C : Type} `{EqDec C} : EqDec (ApiState C).
Proof.
  intros [n1 a1] [n2 a2].
  destruct (string_dec n1 n2) as [Hn | Hn].
  - destruct (eq_dec a1 a2) as [Ha | Ha].
    + left. now subst.
    + right. intros E. now inversion E.
  - right. intros E. now inversion E.
Defined.

(** [x == y] and [x != y]. *)
Definition eqb {A : Type} `{EqDec A} (x y : A) : bool :=
  if eq_dec x y then true else false.

Definition neqb {A : Type} `{EqDec A} (x y : A) : bool := negb (eqb x y).

(** [enumerate(xs)]. *)
Definition enumerate {X : Type} (xs : list X) : list (nat * X) :=
  combine (seq 0 (len xs)) xs.

(** ** The result of [check_api_state_mismatch]

    The function fills a dict keyed by API name with [np.nan], [False] or
    [True] and returns its values.  A Python dict keeps its keys in the
    order they were first set, so the dict is an association list:
    [dict_set] overwrites the entry of a key that is there and appends a
    new key at the end. *)

Inductive cell : Set :=
| NaN       (* np.nan: not applicable *)
| PyFalse   (* no mismatch *)
| PyTrue.   (* mismatch *)

Definition dict : Set := list (string * cell).

Fixpoint dict_set (d : dict) (k : string) (v : cell) : dict :=
  match d with
  | [] => [(k, v)]
  | (k', v') :: d' =>
      if String.eqb k k' then (k, v) :: d' else (k', v') :: dict_set d' k v
  end.

Fixpoint dict_get (d : dict) (k : string) : option cell :=
  match d with
  | [] => None
  | (k', v') :: d' => if String.eqb k k' then Some v' else dict_get d' k
  end.

Definition values (d : dict) : list cell := map snd d.

Definition keys_of (d : dict) : list string := map fst d.

(** ** JSON values, as [json.loads] returns them *)

#[local] Unset Elimination Schemes.
Inductive json : Set :=
| JNull
| JBool (b : bool)
| JNumber (literal : string)
| JString (s : string)
| JArray (items : list json)
| JObject (members : list (string * json)).
#[local] Set Elimination Schemes.

(** What escapes from the [try] blocks of the tool-error metrics. *)
Inductive json_exn : Set :=
| JSONDecodeError   (* the text is not JSON *)
| AttributeError.   (* [.keys()] on a value that is not a dict *)

(** [v.keys()]: only a dict has keys. *)
Definition keys (v : json) : json_exn + list string :=
  match v with
  | JObject members => inr (map fst members)
  | _ => inl AttributeError
  end.

(** ** Rates that add [1 - np.exp(-d)] *)

(** What [soft_average_turn_success_rate] adds to its score for one
    correct turn: [1], or [1 - np.exp(-d)]. *)
Inductive addend : Set :=
| One
| OneMinusExp (d : Z).

Definition addend_value (a : addend) : R :=
  match a with
  | One => 1%R
  | OneMinusExp d => (1 - exp (- IZR d))%R
  end.

(** The score after the additions, made in order, starting from [0]. *)
Definition score_value (added : list addend) : R :=
  fold_left (fun score a => (score + addend_value a)%R) added 0%R.

(** [score / n] for a real score and an int [n]. *)
Definition realdiv (score : R) (n : nat) : result R :=
  match n with
  | 0 => Raise ZeroDivisionError
  | S _ => Ok (score / INR n)%R
  end.

(** Lines 196-199, what a correct turn adds to the score.
    [last_incorrect_turn] is [None] while it is [float("inf")], and
    [turn_idx < float("inf")] holds. *)
Definition correct_turn_addend (turn_idx : nat)
    (last_incorrect_turn : option nat) : addend :=
  match last_incorrect_turn with
  | None => One
  | Some j =>
      if turn_idx <? j then One
      else OneMinusExp (Z.of_nat turn_idx - Z.of_nat j)
  end.

(** ** The metric functions *)

Section Metrics.

Context {C : Type} `{EqDec C}.

(** *** [apologetic] *)

(** The test of line 46 on one closing message. *)
Definition apologetic_test (turn_summary : string) : bool :=
  is_None (PyStr turn_summary)
  || existsb (fun phrase => contains (lower phrase) (lower turn_summary))
             APOLOGETIC_SUBSTRING.

Definition apologetic (df : Transcript C) : result bool :=
  r <- for_each (turn_responses df)
         (fun turn_response (_ : unit) =>
            last_step <- last_item (step_responses turn_response);;
            message <- getitem (assistant_content last_step);;
            let turn_summary := str message in
            if apologetic_test turn_summary
            then Ok (Leave true)
            else Ok (Next tt))
         tt;;
  match r with
  | Leave b => Ok b
  | Next _ => Ok false
  end.

(** *** [no_func_call_rate] *)

(** The inner loop of lines 69-73: [break] leaves it with the count
    unchanged. *)
Definition count_no_call_steps (steps : list Step) (no_func_call_count : nat)
  : result (flow nat nat) :=
  for_each steps
    (fun entry count =>
       if has_key (handler_response entry)
       then Ok (Leave count)
       else Ok (Next (count + 1)))
    no_func_call_count.

(** The count a loop ends with, whether it ran out or was left by
    [break]. *)
Definition after_loop {S : Type} (r : flow S S) : S :=
  match r with
  | Next s => s
  | Leave s => s
  end.

Definition no_func_call_count (df : Transcript C) : result nat :=
  for_all (range (len (turn_responses df)))
    (fun turn_idx count =>
       turn <- index (turn_responses df) turn_idx;;
       r <- count_no_call_steps (step_responses turn) count;;
       Ok (after_loop r))
    0.

Definition no_func_call_rate (df : Transcript C) : result Q :=
  count <- no_func_call_count df;;
  truediv count (len (turn_responses df)).

(** *** [num_tool_errors] and [num_turn_with_errors] *)

Section ToolErrors.

(** [json.loads], a function of Python's library. *)
Variable json_loads : string -> json_exn + json.

(** ["error" in json.loads(tool_response['content']).keys()]. *)
Definition error_key_test (tr : ToolResponse) : json_exn + bool :=
  match json_loads (content tr) with
  | inl e => inl e
  | inr v =>
      match keys v with
      | inl e => inl e
      | inr ks => inr (existsb (String.eqb "error") ks)
      end
  end.

(** Lines 85-89: [try: if ...: num_errors += 1] / [except: pass]. *)
Definition count_tool_response (num_errors : nat) (tr : ToolResponse) : nat :=
  match error_key_test tr with
  | inr true => num_errors + 1
  | inr false => num_errors
  | inl _ => num_errors
  end.

Definition num_tool_errors (df : Transcript C) : result nat :=
  for_all (range (len (turn_responses df)))
    (fun turn_idx num_errors =>
       turn <- index (turn_responses df) turn_idx;;
       Ok (fold_left
             (fun n step => fold_left count_tool_response (tool_response step) n)
             (step_responses turn) num_errors))
    0.

(** Lines 96-100: [try: return ...] / [except: return False]. *)
Definition has_error_in_tool_response (tr : ToolResponse) : bool :=
  match error_key_test tr with
  | inr b => b
  | inl _ => false
  end.

Definition num_turn_with_errors (df : Transcript C) : result nat :=
  for_all (range (len (turn_responses df)))
    (fun turn_idx num_turns_with_error =>
       turn <- index (turn_responses df) turn_idx;;
       if existsb has_error_in_tool_response
            (flat_map tool_response (step_responses turn))
       then Ok (num_turns_with_error + 1)
       else Ok num_turns_with_error)
    0.

End ToolErrors.

(** *** [check_api_state_mismatch] *)

(** Lines 128-130: the pairs of one turn, ground truth first. *)
Definition mark_mismatches (gt_states turn_states : list (ApiState C))
    (state : dict) : dict :=
  fold_left
    (fun st '(gt_state, turn_state) =>
       if neqb gt_state turn_state
       then dict_set st (class_name gt_state) PyTrue
       else st)
    (zip gt_states turn_states) state.

Definition check_api_state_mismatch_dict (df : Transcript C) : result dict :=
  let state := fold_left (fun st api => dict_set st api NaN) API_LIST [] in
  first_turn <- index (turn_responses df) 0;;
  let api_list := map class_name (end_of_turn_state first_turn) in
  let state := fold_left (fun st api => dict_set st api PyFalse) api_list state in
  if negb (len (ground_truth_log df) =? len (turn_responses df) + 1)
  then Ok (fold_left (fun st api => dict_set st api PyTrue) api_list state)
  else
    for_all (enumerate (turn_responses df))
      (fun '(turn_idx, turn_response) st =>
         gt_states <- index (ground_truth_log df) (turn_idx + 1);;
         let turn_states := end_of_turn_state turn_response in
         Ok (mark_mismatches gt_states turn_states st))
      state.

Definition check_api_state_mismatch (df : Transcript C) : result (list cell) :=
  state <- check_api_state_mismatch_dict df;;
  Ok (values state).

(** *** [task_process_rate] *)

(** Lines 164-166: the pairs of one turn; the first unequal pair returns
    from the function. *)
Definition scan_pairs (turn_idx n : nat)
    (pairs : list (ApiState C * ApiState C)) : result (flow unit pyfloat) :=
  for_each pairs
    (fun '(pred, truth) (_ : unit) =>
       if neqb pred truth
       then q <- truediv turn_idx n;; Ok (Leave (Finite q))
       else Ok (Next tt))
    tt.

Definition task_process_rate (df : Transcript C) : result pyfloat :=
  let n := len (turn_responses df) in
  r <- for_each (range n)
         (fun turn_idx (_ : unit) =>
            turn <- index (turn_responses df) turn_idx;;
            truth_states <- index (ground_truth_log df) (turn_idx + 1);;
            scan_pairs turn_idx n (zip (end_of_turn_state turn) truth_states))
         tt;;
  match r with
  | Leave v => Ok v
  | Next _ => Ok PosInf
  end.

(** *** [average_turn_success_rate] *)

(** [all(pred == truth for pred, truth in pairs)]. *)
Definition all_equal (pairs : list (ApiState C * ApiState C)) : bool :=
  forallb (fun '(pred, truth) => eqb pred truth) pairs.

Definition turn_success_score (df : Transcript C) : result nat :=
  for_all (range (len (turn_responses df)))
    (fun turn_idx score =>
       turn <- index (turn_responses df) turn_idx;;
       truth_states <- index (ground_truth_log df) (turn_idx + 1);;
       if all_equal (zip (end_of_turn_state turn) truth_states)
       then Ok (score + 1)
       else Ok score)
    0.

Definition average_turn_success_rate (df : Transcript C) : result Q :=
  score <- turn_success_score df;;
  truediv score (len (turn_responses df)).

(** *** [soft_average_turn_success_rate] *)

(** The loop of lines 191-201.  Its state is what has been added to
    [score] so far, in order, and [last_incorrect_turn]. *)
Definition soft_score (df : Transcript C) : result (list addend * option nat) :=
  for_all (range (len (turn_responses df)))
    (fun turn_idx '(score, last_incorrect_turn) =>
       turn <- index (turn_responses df) turn_idx;;
       truth_states <- index (ground_truth_log df) (turn_idx + 1);;
       if all_equal (zip (end_of_turn_state turn) truth_states)
       then Ok (score ++ [correct_turn_addend turn_idx last_incorrect_turn],
                last_incorrect_turn)
       else Ok (score, Some turn_idx))
    ([], None).

Definition soft_average_turn_success_rate (df : Transcript C) : result R :=
  '(score, _) <- soft_score df;;
  realdiv (score_value score) (len (turn_responses df)).

End Metrics.

(** The dict of line 117. *)
Definition initial_state : dict :=
  fold_left (fun st api => dict_set st api NaN) API_LIST [].

(** ** Vocabulary of the specification *)

Section Vocabulary.

Context {C : Type} `{EqDec C}.

(** Position [k] of turn [i] pairs the predicted record [pred] with the
    ground-truth record [truth] of [ground_truth_log[i + 1]]. *)
Definition pair_at (df : Transcript C) (i k : nat)
    (pred truth : ApiState C) : Prop :=
  exists turn truth_states,
    nth_error (turn_responses df) i = Some turn /\
    nth_error (ground_truth_log df) (i + 1) = Some truth_states /\
    nth_error (end_of_turn_state turn) k = Some pred /\
    nth_error truth_states k = Some truth.

(** The comparison of turn [i] finds an unequal pair. *)
Definition turn_mismatches (df : Transcript C) (i : nat) : Prop :=
  exists k pred truth, pair_at df i k pred truth /\ pred <> truth.

(** Turn [i] has a ground-truth snapshot and every pair of it is equal. *)
Definition turn_matches (df : Transcript C) (i : nat) : Prop :=
  i < len (turn_responses df) /\
  i + 1 < len (ground_truth_log df) /\
  forall k pred truth, pair_at df i k pred truth -> pred = truth.

(** The length invariant of a well-formed transcript. *)
Definition well_formed (df : Transcript C) : Prop :=
  len (ground_truth_log df) = len (turn_responses df) + 1.

(** Some unequal pair has a ground-truth record named [api]. *)
Definition mismatch_recorded (df : Transcript C) (api : string) : Prop :=
  exists i k pred truth,
    pair_at df i k pred truth /\ truth <> pred /\ class_name truth = api.

(** The class names of the first turn's [end_of_turn_state]. *)
Definition first_turn_names (df : Transcript C) : list string :=
  match turn_responses df with
  | [] => []
  | first_turn :: _ => map class_name (end_of_turn_state first_turn)
  end.

(** Every class name the transcript holds is a tracked API. *)
Definition names_known (df : Transcript C) : Prop :=
  (forall turn a, In turn (turn_responses df) ->
     In a (end_of_turn_state turn) -> In (class_name a) API_LIST) /\
  (forall snapshot a, In snapshot (ground_truth_log df) ->
     In a snapshot -> In (class_name a) API_LIST).

(** The steps of a turn that come before its first step with a
    [handler_response] (all of them when no step has one). *)
Fixpoint steps_before_call (steps : list Step) : list Step :=
  match steps with
  | [] => []
  | entry :: steps' =>
      if has_key (handler_response entry) then []
      else entry :: steps_before_call steps'
  end.

Definition no_call_steps (df : Transcript C) : nat :=
  list_sum (map (fun turn => len (steps_before_call (step_responses turn)))
                (turn_responses df)).

(** All tool-response entries of a turn, and of a transcript, in order. *)
Definition turn_tool_responses (turn : Turn C) : list ToolResponse :=
  flat_map tool_response (step_responses turn).

Definition all_tool_responses (df : Transcript C) : list ToolResponse :=
  flat_map turn_tool_responses (turn_responses df).

(** The verdict of the comparison of turn [turn_idx], as the success
    rates compute it. *)
Definition verdict (df : Transcript C) (turn_idx : nat) : result bool :=
  turn <- index (turn_responses df) turn_idx;;
  truth_states <- index (ground_truth_log df) (turn_idx + 1);;
  Ok (all_equal (zip (end_of_turn_state turn) truth_states)).

(** *** Loop bodies and tests used by the proofs *)

(** The body of the loop of [task_process_rate], by the verdict. *)
Definition rate_step (df : Transcript C) (turn_idx : nat) (_ : unit)
  : result (flow unit pyfloat) :=
  b <- verdict df turn_idx;;
  if b then Ok (Next tt)
  else Ok (Leave (Finite (Qred (Z.of_nat turn_idx
                                # Pos.of_nat (len (turn_responses df)))))).

(** The body of the loop of [average_turn_success_rate], by the
    verdict. *)
Definition score_step (df : Transcript C) (turn_idx score : nat) : result nat :=
  b <- verdict df turn_idx;;
  if b then Ok (score + 1) else Ok score.

(** Whether turn [i] is a success. *)
Definition succeeds (df : Transcript C) (i : nat) : bool :=
  match verdict df i with
  | Ok b => b
  | Raise _ => false
  end.

(** The body of the loop of [soft_average_turn_success_rate], by the
    verdict. *)
Definition soft_step (df : Transcript C) (turn_idx : nat)
    (st : list addend * option nat) : result (list addend * option nat) :=
  let '(score, last_incorrect_turn) := st in
  b <- verdict df turn_idx;;
  if b
  then Ok (score ++ [correct_turn_addend turn_idx last_incorrect_turn],
           last_incorrect_turn)
  else Ok (score, Some turn_idx).

(** Whether the pairs of one turn mark [api]. *)
Definition marks (gt_states turn_states : list (ApiState C))
    (api : string) : bool :=
  existsb
    (fun '(gt_state, turn_state) =>
       neqb gt_state turn_state && String.eqb (class_name gt_state) api)
    (zip gt_states turn_states).

(** Whether the pairs of the listed turns mark [api]. *)
Definition recorded (gt_log : list (list (ApiState C)))
    (turns : list (nat * Turn C)) (api : string) : bool :=
  existsb
    (fun '(turn_idx, turn) =>
       match nth_error gt_log (turn_idx + 1) with
       | Some gt_states => marks gt_states (end_of_turn_state turn) api
       | None => false
       end)
    turns.

(** Two snapshots that agree on every position they share. *)
Definition agree_on_shared (preds truths : list (ApiState C)) : Prop :=
  firstn (Nat.min (len preds) (len truths)) preds
  = firstn (Nat.min (len preds) (len truths)) truths.

End Vocabulary.

(** ** A decoder for the tool-error examples

    [json.loads] is a parameter of the tool-error metrics.  The examples
    instantiate it with [json_decode], which reads the fragment of JSON
    made of objects, arrays, strings with the two-character escapes,
    integers and the three literals; it rejects every other text, also
    JSON outside the fragment (numbers with a fraction or an exponent,
    [\u] escapes). *)

Definition quote : ascii := "034"%char.

Definition backslash : ascii := "092"%char.

(** [s] between double quotes. *)
Definition quoted (s : string) : string :=
  String quote (String.append s (String quote EmptyString)).

Definition is_whitespace (c : ascii) : bool :=
  let n := nat_of_ascii c in
  (n =? 32) || (n =? 9) || (n =? 10) || (n =? 13).

Fixpoint skip_whitespace (s : string) : string :=
  match s with
  | String c s' => if is_whitespace c then skip_whitespace s' else s
  | EmptyString => EmptyString
  end.

(** The character a two-character escape stands for. *)
Definition unescape (c : ascii) : option ascii :=
  if Ascii.eqb c quote then Some quote
  else if Ascii.eqb c backslash then Some backslash
  else if Ascii.eqb c "/" then Some "/"%char
  else if Ascii.eqb c "b" then Some "008"%char
  else if Ascii.eqb c "f" then Some "012"%char
  else if Ascii.eqb c "n" then Some "010"%char
  else if Ascii.eqb c "r" then Some "013"%char
  else if Ascii.eqb c "t" then Some "009"%char
  else None.

(** The text of a string after its opening quote, and what follows the
    closing quote. *)
Fixpoint decode_string (s : string) : option (string * string) :=
  match s with
  | EmptyString => None
  | String c s' =>
      if Ascii.eqb c quote then Some (EmptyString, s')
      else if Ascii.eqb c backslash then
        match s' with
        | String e s'' =>
            match unescape e, decode_string s'' with
            | Some c', Some (text, rest) => Some (String c' text, rest)
            | _, _ => None
            end
        | EmptyString => None
        end
      else if nat_of_ascii c <? 32 then None
      else
        match decode_string s' with
        | Some (text, rest) => Some (String c text, rest)
        | None => None
        end
  end.

Definition is_digit (c : ascii) : bool :=
  let n := nat_of_ascii c in (48 <=? n) && (n <=? 57).

Fixpoint take_digits (s : string) : string * string :=
  match s with
  | String c s' =>
      if is_digit c
      then let '(digits, rest) := take_digits s' in (String c digits, rest)
      else (EmptyString, s)
  | EmptyString => (EmptyString, EmptyString)
  end.

(** An integer: an optional minus sign and digits without a leading zero. *)
Definition decode_integer (s : string) : option (json * string) :=
  let '(sign, s1) :=
    match s with
    | String c s' => if Ascii.eqb c "-" then ("-", s') else (EmptyString, s)
    | EmptyString => (EmptyString, s)
    end in
  match take_digits s1 with
  | (EmptyString, _) => None
  | (String d EmptyString, rest) =>
      Some (JNumber (String.append sign (String d EmptyString)), rest)
  | (String d more, rest) =>
      if Ascii.eqb d "0" then None
      else Some (JNumber (String.append sign (String d more)), rest)
  end.

(** [s] without its prefix [p]. *)
Fixpoint strip_prefix (p s : string) : option string :=
  match p, s with
  | EmptyString, _ => Some s
  | String a p', String b s' => if Ascii.eqb a b then strip_prefix p' s' else None
  | String _ _, EmptyString => None
  end.

(** The members of an object after its opening brace. *)
Fixpoint decode_members (fuel : nat)
    (value : string -> option (json * string)) (s : string)
  : option (list (string * json) * string) :=
  match fuel with
  | 0 => None
  | S fuel' =>
      match skip_whitespace s with
      | String c rest =>
          if Ascii.eqb c quote then
            match decode_string rest with
            | Some (key, rest1) =>
                match skip_whitespace rest1 with
                | String colon rest2 =>
                    if Ascii.eqb colon ":" then
                      match value rest2 with
                      | Some (v, rest3) =>
                          match skip_whitespace rest3 with
                          | String sep rest4 =>
                              if Ascii.eqb sep "}" then Some ([(key, v)], rest4)
                              else if Ascii.eqb sep "," then
                                match decode_members fuel' value rest4 with
                                | Some (members, rest5) =>
                                    Some ((key, v) :: members, rest5)
                                | None => None
                                end
                              else None
                          | EmptyString => None
                          end
                      | None => None
                      end
                    else None
                | EmptyString => None
                end
            | None => None
            end
          else None
      | EmptyString => None
      end
  end.

(** The items of an array after its opening bracket. *)
Fixpoint decode_items (fuel : nat)
    (value : string -> option (json * string)) (s : string)
  : option (list json * string) :=
  match fuel with
  | 0 => None
  | S fuel' =>
      match value s with
      | Some (v, rest) =>
          match skip_whitespace rest with
          | String sep rest' =>
              if Ascii.eqb sep "]" then Some ([v], rest')
              else if Ascii.eqb sep "," then
                match decode_items fuel' value rest' with
                | Some (items, rest'') => Some (v :: items, rest'')
                | None => None
                end
              else None
          | EmptyString => None
          end
      | None => None
      end
  end.

Fixpoint decode_value (fuel : nat) (s : string) : option (json * string) :=
  match fuel with
  | 0 => None
  | S fuel' =>
      match skip_whitespace s with
      | EmptyString => None
      | String c rest =>
          if Ascii.eqb c "{" then
            match skip_whitespace rest with
            | String c' rest' =>
                if Ascii.eqb c' "}" then Some (JObject [], rest')
                else
                  match decode_members fuel' (decode_value fuel') rest with
                  | Some (members, rest'') => Some (JObject members, rest'')
                  | None => None
                  end
            | EmptyString => None
            end
          else if Ascii.eqb c "[" then
            match skip_whitespace rest with
            | String c' rest' =>
                if Ascii.eqb c' "]" then Some (JArray [], rest')
                else
                  match decode_items fuel' (decode_value fuel') rest with
                  | Some (items, rest'') => Some (JArray items, rest'')
                  | None => None
                  end
            | EmptyString => None
            end
          else if Ascii.eqb c quote then
            match decode_string rest with
            | Some (text, rest') => Some (JString text, rest')
            | None => None
            end
          else
            match strip_prefix "true" (String c rest),
                  strip_prefix "false" (String c rest),
                  strip_prefix "null" (String c rest) with
            | Some rest', _, _ => Some (JBool true, rest')
            | _, Some rest', _ => Some (JBool false, rest')
            | _, _, Some rest' => Some (JNull, rest')
            | None, None, None => decode_integer (String c rest)
            end
      end
  end.

Definition json_decode (s : string) : json_exn + json :=
  match decode_value (String.length s + 1) s with
  | Some (v, rest) =>
      match skip_whitespace rest with
      | EmptyString => inr v
      | String _ _ => inl JSONDecodeError
      end
  | None => inl JSONDecodeError
  end.

(** ** Example transcripts *)

Definition api (name attrs : string) : ApiState string :=
  mkApiState name attrs.

(** A closing step with the assistant message [message]. *)
Definition closing (message : pyval) : Step :=
  mkStep 0 [] None (Some message).

(** A step that called tools and got [responses] back. *)
Definition calling (responses : list string) : Step :=
  mkStep (len responses) (map mkToolResponse responses) (Some "call") None.

(** A step without a call and without a closing message. *)
Definition silent : Step :=
  mkStep 0 [] None None.

Definition turn_with_state (state : list (ApiState string)) : Turn string :=
  mkTurn 1 [closing (PyStr "Done.")] state.

(** Three turns; turn 0 ends in a state that differs from the ground
    truth, turns 1 and 2 end in the expected state. *)
Definition scenario_transcript : Transcript string :=
  mkTranscript
    [ turn_with_state [api "MathAPI" "x"];
      turn_with_state [api "MathAPI" "b"];
      turn_with_state [api "MathAPI" "c"] ]
    [ [api "MathAPI" "0"]; [api "MathAPI" "a"];
      [api "MathAPI" "b"]; [api "MathAPI" "c"] ]
    [].

(** Two turns, both as the ground truth expects. *)
Definition matching_transcript : Transcript string :=
  mkTranscript
    [ turn_with_state [api "MathAPI" "a"];
      turn_with_state [api "MathAPI" "b"] ]
    [ [api "MathAPI" "0"]; [api "MathAPI" "a"]; [api "MathAPI" "b"] ]
    [].

(** One turn and an empty ground-truth log. *)
Definition no_ground_truth_transcript : Transcript string :=
  mkTranscript [turn_with_state [api "MathAPI" "a"]] [] [].

(** No turn at all, and a ground-truth log of two entries. *)
Definition empty_transcript : Transcript string :=
  mkTranscript [] [[]; []] [].

(** Two turns; [MathAPI] shows up in the state of the second turn only, as
    the ground truth expects. *)
Definition late_api_transcript : Transcript string :=
  mkTranscript
    [ turn_with_state []; turn_with_state [api "MathAPI" "a"] ]
    [ []; []; [api "MathAPI" "a"] ]
    [].

(** The same turns with a ground-truth log that is too short. *)
Definition late_api_short_log_transcript : Transcript string :=
  mkTranscript
    [ turn_with_state []; turn_with_state [api "MathAPI" "a"] ]
    [ [] ]
    [].

(** One turn whose closing message is [None]. *)
Definition null_message_transcript : Transcript string :=
  mkTranscript [mkTurn 1 [closing PyNone] []] [[]; []] [].

(** The two tool responses of the specification's scenario. *)
Definition error_text : string :=
  String.append "{"
    (String.append (quoted "error")
       (String.append ": " (String.append (quoted "timeout") "}"))).

Definition tool_transcript : Transcript string :=
  mkTranscript
    [ mkTurn 2 [calling [error_text; "not json"]; closing (PyStr "Done.")] [];
      mkTurn 2 [calling ["not json"]; closing (PyStr "Done.")] [] ]
    [[]; []; []]
    [].

(** Two turns: two silent steps before the first call, then a turn that
    never calls. *)
Definition no_call_transcript : Transcript string :=
  mkTranscript
    [ mkTurn 4 [silent; silent; calling []; closing (PyStr "Done.")] [];
      mkTurn 1 [closing (PyStr "Done.")] [] ]
    [[]; []; []]
    [].

(** One turn whose predicted snapshot is one record shorter than the
    ground truth. *)
Definition shorter_snapshot_transcript : Transcript string :=
  mkTranscript
    [ turn_with_state [api "MathAPI" "a"] ]
    [ []; [api "MathAPI" "a"; api "TicketAPI" "t"] ]
    [].

(** One turn whose snapshot names a class that is not a tracked API. *)
Definition unknown_api_transcript : Transcript string :=
  mkTranscript
    [ turn_with_state [api "WeatherAPI" "w"] ]
    [ []; [api "WeatherAPI" "w"] ]
    [].

(** The two turns of [tool_transcript], one transcript each. *)
Definition first_tool_transcript : Transcript string :=
  mkTranscript
    [ mkTurn 2 [calling [error_text; "not json"]; closing (PyStr "Done.")] [] ]
    [[]; []]
    [].

Definition second_tool_transcript : Transcript string :=
  mkTranscript
    [ mkTurn 2 [calling ["not json"]; closing (PyStr "Done.")] [] ]
    [[]; []]
    [].

(** Two turns; the first closes with an apology in capitals. *)
Definition apology_transcript : Transcript string :=
  mkTranscript
    [ mkTurn 1 [closing (PyStr "SORRY, I could not finish.")] [];
      mkTurn 1 [closing (PyStr "Done.")] [] ]
    [[]; []; []]
    [].

(** The same two turns followed by a turn without steps. *)
Definition broken_apology_transcript : Transcript string :=
  mkTranscript
    [ mkTurn 1 [closing (PyStr "SORRY, I could not finish.")] [];
      mkTurn 1 [closing (PyStr "Done.")] [];
      mkTurn 0 [] [] ]
    [[]; []; []; []]
    [].


(** ** The other metric functions *)

(** A float that is a number or [nan]. *)
Inductive npfloat : Set :=
| NotANumber
| Number (q : Q).

(** An int as a float. *)
Definition of_int (n : nat) : Q := inject_Z (Z.of_nat n).

(** The sum of the samples, from the left. *)
Definition Qsum (xs : list Q) : Q := fold_left Qplus xs 0%Q.

(** The mean of numbers, as [np.mean] and the [mean()] of a Series give it:
    [nan] without a sample, else the exact mean, in lowest terms. *)
Definition mean (xs : list Q) : npfloat :=
  match xs with
  | [] => NotANumber
  | _ :: _ => Number (Qred (Qsum xs / of_int (len xs)))
  end.

(** The numbers of a list of floats, when none is [nan]. *)
Fixpoint numbers (xs : list npfloat) : option (list Q) :=
  match xs with
  | [] => Some []
  | NotANumber :: _ => None
  | Number q :: xs' =>
      match numbers xs' with
      | Some qs => Some (q :: qs)
      | None => None
      end
  end.

(** [np.mean] on floats: a [nan] among them makes the mean [nan]. *)
Definition np_mean (xs : list npfloat) : npfloat :=
  match numbers xs with
  | Some qs => mean qs
  | None => NotANumber
  end.

(** What a correct turn can add to the soft score: [1], or
    [1 - np.exp(-d)] at a distance [d >= 1] from the last incorrect turn. *)
Definition discounting (a : addend) : Prop :=
  match a with
  | One => True
  | OneMinusExp d => (1 <= d)%Z
  end.

Section OtherMetrics.

Context {C : Type}.

(** *** [average_num_steps] *)

Definition average_num_steps (df : Transcript C) : npfloat :=
  mean (map (fun x => of_int (num_steps x)) (turn_responses df)).

(** *** [average_num_tools] *)

(** [turn_response["step_responses"][:-1]] is [removelast]; the list the
    source calls [num_tools] is [samples] here. *)
Definition average_num_tools (df : Transcript C) : npfloat :=
  let samples :=
    fold_left
      (fun samples turn_response =>
         let turn_num_tools :=
           map (fun step_response => of_int (num_tools step_response))
               (removelast (step_responses turn_response)) in
         if 0 <? len turn_num_tools
         then samples ++ [mean turn_num_tools]
         else samples)
      (turn_responses df) [] in
  np_mean samples.

(** *** [apologetic_rate] *)

Definition apologetic_turn_count (df : Transcript C) : result nat :=
  for_all (turn_responses df)
    (fun turn_response apologetic_turn_count =>
       last_step <- last_item (step_responses turn_response);;
       message <- getitem (assistant_content last_step);;
       let turn_summary := str message in
       if apologetic_test turn_summary
       then Ok (apologetic_turn_count + 1)
       else Ok apologetic_turn_count)
    0.

Definition apologetic_rate (df : Transcript C) : result Q :=
  count <- apologetic_turn_count df;;
  truediv count (len (turn_responses df)).

(** *** Vocabulary *)

(** Lines 45-46 on one turn: whether its closing message is apologetic. *)
Definition closing_verdict (turn : Turn C) : result bool :=
  last_step <- last_item (step_responses turn);;
  message <- getitem (assistant_content last_step);;
  Ok (apologetic_test (str message)).

(** Whether the turn counts as apologetic. *)
Definition flagged (turn : Turn C) : bool :=
  match closing_verdict turn with
  | Ok b => b
  | Raise _ => false
  end.

(** A turn whose closing message can be read. *)
Definition readable (turn : Turn C) : Prop :=
  exists b, closing_verdict turn = Ok b.

(** The steps of a transcript, all turns together. *)
Definition total_steps (df : Transcript C) : nat :=
  list_sum (map (fun turn => len (step_responses turn)) (turn_responses df)).

(** The [num_tools] of the steps of a turn that are not its last. *)
Definition tools_before_last (turn : Turn C) : list nat :=
  map num_tools (removelast (step_responses turn)).

(** The sample a list of [num_tools] gives: their mean; and whether the
    list gives one. *)
Definition tools_sample (tools : list nat) : npfloat :=
  mean (map of_int tools).

Definition has_sample (tools : list nat) : bool := 0 <? len tools.

End OtherMetrics.

(** ** Lemmas on the built-ins *)

Lemma eqb_true_iff {A : Type} `{EqDec A} (x y : A) : eqb x y = true <-> x = y.
Proof.
  unfold eqb. destruct (eq_dec x y); split; congruence.
Qed.

Lemma eqb_false_iff {A : Type} `{EqDec A} (x y : A) : eqb x y = false <-> x <> y.
Proof.
  unfold eqb. destruct (eq_dec x y); split; congruence.
Qed.

Lemma neqb_true_iff {A : Type} `{EqDec A} (x y : A) : neqb x y = true <-> x <> y.
Proof.
  unfold neqb. rewrite negb_true_iff. apply eqb_false_iff.
Qed.

Lemma neqb_false_iff {A : Type} `{EqDec A} (x y : A) : neqb x y = false <-> x = y.
Proof.
  unfold neqb. rewrite negb_false_iff. apply eqb_true_iff.
Qed.

Lemma index_Ok {X : Type} (l : list X) (i : nat) (x : X) :
  index l i = Ok x <-> nth_error l i = Some x.
Proof.
  unfold index. destruct (nth_error l i); split; congruence.
Qed.

Lemma index_Ok_lt {X : Type} (l : list X) (i : nat) (x : X) :
  index l i = Ok x -> i < len l.
Proof.
  intros E. apply index_Ok in E. apply nth_error_Some. congruence.
Qed.

Lemma index_Raise {X : Type} (l : list X) (i : nat) (e : exn) :
  index l i = Raise e <-> e = IndexError /\ len l <= i.
Proof.
  unfold index. destruct (nth_error l i) eqn:E.
  - split; [discriminate|]. intros [_ Hl].
    apply nth_error_None in Hl. congruence.
  - apply nth_error_None in E. split.
    + intros [= <-]. auto.
    + intros [-> _]. reflexivity.
Qed.

Lemma index_in_range {X : Type} (l : list X) (i : nat) :
  i < len l -> exists x, index l i = Ok x /\ nth_error l i = Some x.
Proof.
  intros Hi. unfold index. destruct (nth_error l i) eqn:E.
  - eauto.
  - apply nth_error_None in E. lia.
Qed.

Lemma for_all_ext {X S : Type} (xs : list X) (f g : X -> S -> result S) :
  (forall x s, In x xs -> f x s = g x s) ->
  forall s, for_all xs f s = for_all xs g s.
Proof.
  induction xs as [|x xs IH]; intros E s; cbn.
  - reflexivity.
  - rewrite E by (left; reflexivity).
    destruct (g x s); [|reflexivity].
    apply IH. intros. apply E. now right.
Qed.

Lemma for_each_ext {X S V : Type} (xs : list X)
    (f g : X -> S -> result (flow S V)) :
  (forall x s, In x xs -> f x s = g x s) ->
  forall s, for_each xs f s = for_each xs g s.
Proof.
  induction xs as [|x xs IH]; intros E s; cbn.
  - reflexivity.
  - rewrite E by (left; reflexivity).
    destruct (g x s) as [[s'|v]|e]; try reflexivity.
    apply IH. intros. apply E. now right.
Qed.

Lemma nth_error_zip {X Y : Type} (xs : list X) (ys : list Y) (k : nat)
    (x : X) (y : Y) :
  nth_error (zip xs ys) k = Some (x, y) <->
  nth_error xs k = Some x /\ nth_error ys k = Some y.
Proof.
  unfold zip. revert ys k.
  induction xs as [|x0 xs IH]; intros [|y0 ys] [|k]; cbn;
    try (split; [discriminate | intros [? ?]; discriminate]).
  - split; [intros [= -> ->]; auto | intros [[= ->] [= ->]]; reflexivity].
  - apply IH.
Qed.

Lemma len_zip {X Y : Type} (xs : list X) (ys : list Y) :
  len (zip xs ys) = Nat.min (len xs) (len ys).
Proof. apply length_combine. Qed.

Lemma zip_firstn {X Y : Type} (xs : list X) (ys : list Y) :
  zip xs ys =
  zip (firstn (Nat.min (len xs) (len ys)) xs)
      (firstn (Nat.min (len xs) (len ys)) ys).
Proof.
  unfold zip. revert ys.
  induction xs as [|x xs IH]; intros [|y ys]; cbn; try reflexivity.
  f_equal. apply IH.
Qed.

(** ** The comparison of one turn *)

Section Comparison.

Context {C : Type} `{EqDec C}.

Lemma all_equal_true (preds truths : list (ApiState C)) :
  all_equal (zip preds truths) = true <->
  forall k pred truth,
    nth_error preds k = Some pred -> nth_error truths k = Some truth ->
    pred = truth.
Proof.
  unfold all_equal. rewrite forallb_forall. split.
  - intros Hall k pred truth Hp Ht.
    assert (Hin : In (pred, truth) (zip preds truths)).
    { apply nth_error_In with k. now apply nth_error_zip. }
    apply Hall in Hin. now apply eqb_true_iff in Hin.
  - intros Hall [pred truth] Hin.
    apply In_nth_error in Hin as [k Hk].
    apply nth_error_zip in Hk as [Hp Ht].
    apply eqb_true_iff. eauto.
Qed.

Lemma all_equal_false (preds truths : list (ApiState C)) :
  all_equal (zip preds truths) = false <->
  exists k pred truth,
    nth_error preds k = Some pred /\ nth_error truths k = Some truth /\
    pred <> truth.
Proof.
  split.
  - intros Hf. unfold all_equal in Hf.
    assert (Hex : existsb (fun '(pred, truth) => neqb pred truth)
                    (zip preds truths) = true).
    { clear -Hf. induction (zip preds truths) as [|[p t] l IH]; cbn in *.
      - discriminate.
      - unfold neqb. destruct (eqb p t); cbn in *; auto. }
    apply existsb_exists in Hex as [[pred truth] [Hin Hne]].
    apply In_nth_error in Hin as [k Hk].
    apply nth_error_zip in Hk as [Hp Ht].
    apply neqb_true_iff in Hne. eauto 6.
  - intros (k & pred & truth & Hp & Ht & Hne).
    destruct (all_equal (zip preds truths)) eqn:E; [|reflexivity].
    exfalso. apply Hne. rewrite all_equal_true in E. eauto.
Qed.

Lemma verdict_true (df : Transcript C) (i : nat) :
  verdict df i = Ok true <-> turn_matches df i.
Proof.
  unfold verdict, turn_matches, pair_at. split.
  - intros Hv.
    destruct (index (turn_responses df) i) as [turn|] eqn:Et; [|discriminate].
    destruct (index (ground_truth_log df) (i + 1)) as [ts|] eqn:Eg;
      [|discriminate].
    cbn in Hv. injection Hv as Hv.
    apply index_Ok in Et, Eg.
    split; [apply nth_error_Some; congruence|].
    split; [apply nth_error_Some; congruence|].
    intros k pred truth (turn' & ts' & Ht' & Hg' & Hp & Hq).
    rewrite Et in Ht'. rewrite Eg in Hg'.
    injection Ht' as <-. injection Hg' as <-.
    rewrite all_equal_true in Hv. eauto.
  - intros (Hi & Hg & Hall).
    destruct (index_in_range _ _ Hi) as (turn & -> & Et).
    destruct (index_in_range _ _ Hg) as (ts & -> & Eg).
    cbn. f_equal. apply all_equal_true.
    intros k pred truth Hp Hq. apply (Hall k). eauto 8.
Qed.

Lemma verdict_false (df : Transcript C) (i : nat) :
  verdict df i = Ok false <-> turn_mismatches df i.
Proof.
  unfold verdict, turn_mismatches, pair_at. split.
  - intros Hv.
    destruct (index (turn_responses df) i) as [turn|] eqn:Et; [|discriminate].
    destruct (index (ground_truth_log df) (i + 1)) as [ts|] eqn:Eg;
      [|discriminate].
    cbn in Hv. injection Hv as Hv.
    apply index_Ok in Et, Eg.
    apply all_equal_false in Hv as (k & pred & truth & Hp & Hq & Hne).
    exists k, pred, truth. split; [|exact Hne]. eauto 8.
  - intros (k & pred & truth & (turn & ts & Et & Eg & Hp & Hq) & Hne).
    apply index_Ok in Et, Eg. rewrite Et, Eg. cbn. f_equal.
    apply all_equal_false. eauto 8.
Qed.

Lemma verdict_Raise (df : Transcript C) (i : nat) (e : exn) :
  verdict df i = Raise e <->
  e = IndexError /\
  (len (turn_responses df) <= i \/ len (ground_truth_log df) <= i + 1).
Proof.
  unfold verdict.
  destruct (index (turn_responses df) i) as [turn|e1] eqn:Et; cbn.
  - destruct (index (ground_truth_log df) (i + 1)) as [ts|e2] eqn:Eg; cbn.
    + apply index_Ok_lt in Et. apply index_Ok_lt in Eg.
      split; [discriminate | intros [_ [?|?]]; lia].
    + apply index_Raise in Eg as [-> Hl].
      split; [intros [= <-]; auto | intros [-> _]; reflexivity].
  - apply index_Raise in Et as [-> Hl].
    split; [intros [= <-]; auto | intros [-> _]; reflexivity].
Qed.

Lemma verdict_in_range (df : Transcript C) (i : nat) :
  i < len (turn_responses df) ->
  i + 1 < len (ground_truth_log df) ->
  exists b, verdict df i = Ok b.
Proof.
  intros Hi Hg. destruct (verdict df i) as [b|e] eqn:E; [eauto|].
  apply verdict_Raise in E as [_ [?|?]]; lia.
Qed.

Lemma match_mismatch_exclusive (df : Transcript C) (i : nat) :
  turn_matches df i -> turn_mismatches df i -> False.
Proof.
  intros Hm Hn. apply verdict_true in Hm. apply verdict_false in Hn.
  congruence.
Qed.

End Comparison.

(** ** Quotients of counts *)

Lemma Zpos_of_nat (n : nat) : 0 < n -> Z.pos (Pos.of_nat n) = Z.of_nat n.
Proof.
  intros Hn. rewrite <- positive_nat_Z. rewrite Nat2Pos.id by lia. reflexivity.
Qed.

Lemma truediv_Ok (a n : nat) :
  0 < n -> truediv a n = Ok (Qred (Z.of_nat a # Pos.of_nat n)).
Proof.
  intros Hn. destruct n; [lia | reflexivity].
Qed.

Lemma quotient_value (a n : nat) :
  0 < n ->
  (Qred (Z.of_nat a # Pos.of_nat n)
   == inject_Z (Z.of_nat a) / inject_Z (Z.of_nat n))%Q.
Proof.
  intros Hn. rewrite Qred_correct. rewrite Qmake_Qdiv.
  rewrite Zpos_of_nat by exact Hn. reflexivity.
Qed.

Lemma quotient_nonneg (a n : nat) :
  0 < n -> (0 <= Qred (Z.of_nat a # Pos.of_nat n))%Q.
Proof.
  intros Hn. rewrite Qred_correct. unfold Qle. cbn. lia.
Qed.

Lemma quotient_le_1 (a n : nat) :
  0 < n -> a <= n -> (Qred (Z.of_nat a # Pos.of_nat n) <= 1)%Q.
Proof.
  intros Hn Ha. rewrite Qred_correct. unfold Qle. cbn.
  rewrite Zpos_of_nat by exact Hn. lia.
Qed.

Lemma quotient_lt_1 (a n : nat) :
  a < n -> (Qred (Z.of_nat a # Pos.of_nat n) < 1)%Q.
Proof.
  intros Ha. rewrite Qred_correct. unfold Qlt. cbn.
  rewrite Zpos_of_nat by lia. lia.
Qed.

Lemma quotient_self (n : nat) :
  0 < n -> Qred (Z.of_nat n # Pos.of_nat n) = 1%Q.
Proof.
  intros Hn. change 1%Q with (Qred 1). apply Qred_complete.
  unfold Qeq. cbn. rewrite Zpos_of_nat by exact Hn. lia.
Qed.

(** ** Bounds on [exp (-1)] and [exp (-2)]

    [exp x >= 1 + x] at [x = -1/1024] and [x = 1/1024], squared ten
    times, each square rounded down to seven decimals. *)

Lemma exp_double_lower (x l l' : R) :
  (0 <= l -> l <= exp x -> l' <= l * l -> l' <= exp (x + x))%R.
Proof.
  intros Hl Hx Hl'. rewrite exp_plus.
  apply Rle_trans with (l * l)%R; [exact Hl'|].
  apply Rmult_le_compat; assumption.
Qed.

Ltac exp_square H l :=
  match goal with
  | |- (_ <= exp ?x)%R =>
      match type of H with
      | (_ <= exp ?y)%R =>
          replace x with (y + y)%R by lra;
          apply exp_double_lower with l; [lra | exact H | lra]
      end
  end.

Lemma exp_minus_one_lower : (3676916 / 10000000 <= exp (-1))%R.
Proof.
  assert (H1024 : (1023 / 1024 <= exp (-1 / 1024))%R).
  { generalize (exp_ineq1_le (-1 / 1024)). lra. }
  assert (H512 : (9980478 / 10000000 <= exp (-1 / 512))%R).
  { exp_square H1024 (1023 / 1024)%R. }
  assert (H256 : (9960994 / 10000000 <= exp (-1 / 256))%R).
  { exp_square H512 (9980478 / 10000000)%R. }
  assert (H128 : (9922140 / 10000000 <= exp (-1 / 128))%R).
  { exp_square H256 (9960994 / 10000000)%R. }
  assert (H64 : (9844886 / 10000000 <= exp (-1 / 64))%R).
  { exp_square H128 (9922140 / 10000000)%R. }
  assert (H32 : (9692178 / 10000000 <= exp (-1 / 32))%R).
  { exp_square H64 (9844886 / 10000000)%R. }
  assert (H16 : (9393831 / 10000000 <= exp (-1 / 16))%R).
  { exp_square H32 (9692178 / 10000000)%R. }
  assert (H8 : (8824406 / 10000000 <= exp (-1 / 8))%R).
  { exp_square H16 (9393831 / 10000000)%R. }
  assert (H4 : (7787014 / 10000000 <= exp (-1 / 4))%R).
  { exp_square H8 (8824406 / 10000000)%R. }
  assert (H2 : (6063758 / 10000000 <= exp (-1 / 2))%R).
  { exp_square H4 (7787014 / 10000000)%R. }
  exp_square H2 (6063758 / 10000000)%R.
Qed.

Lemma exp_one_lower : (27168203 / 10000000 <= exp 1)%R.
Proof.
  assert (H1024 : (1025 / 1024 <= exp (1 / 1024))%R).
  { generalize (exp_ineq1_le (1 / 1024)). lra. }
  assert (H512 : (10019540 / 10000000 <= exp (1 / 512))%R).
  { exp_square H1024 (1025 / 1024)%R. }
  assert (H256 : (10039118 / 10000000 <= exp (1 / 256))%R).
  { exp_square H512 (10019540 / 10000000)%R. }
  assert (H128 : (10078389 / 10000000 <= exp (1 / 128))%R).
  { exp_square H256 (10039118 / 10000000)%R. }
  assert (H64 : (10157392 / 10000000 <= exp (1 / 64))%R).
  { exp_square H128 (10078389 / 10000000)%R. }
  assert (H32 : (10317261 / 10000000 <= exp (1 / 32))%R).
  { exp_square H64 (10157392 / 10000000)%R. }
  assert (H16 : (10644587 / 10000000 <= exp (1 / 16))%R).
  { exp_square H32 (10317261 / 10000000)%R. }
  assert (H8 : (11330723 / 10000000 <= exp (1 / 8))%R).
  { exp_square H16 (10644587 / 10000000)%R. }
  assert (H4 : (12838528 / 10000000 <= exp (1 / 4))%R).
  { exp_square H8 (11330723 / 10000000)%R. }
  assert (H2 : (16482780 / 10000000 <= exp (1 / 2))%R).
  { exp_square H4 (12838528 / 10000000)%R. }
  exp_square H2 (16482780 / 10000000)%R.
Qed.

Lemma exp_minus_one_bounds :
  (3676 / 10000 < exp (-1) /\ exp (-1) < 3681 / 10000)%R.
Proof.
  split.
  - generalize exp_minus_one_lower. lra.
  - assert (He : (27168203 / 10000000 <= exp 1)%R) by exact exp_one_lower.
    assert (Hinv : (exp (-1) * exp 1 = 1)%R).
    { rewrite <- exp_plus. replace (-1 + 1)%R with 0%R by lra. apply exp_0. }
    assert (Hpos : (0 < exp (-1))%R) by apply exp_pos.
    nra.
Qed.

Lemma exp_minus_two_bounds :
  (1351 / 10000 < exp (-2) /\ exp (-2) < 1355 / 10000)%R.
Proof.
  replace (-2)%R with (-1 + -1)%R by lra. rewrite exp_plus.
  destruct exp_minus_one_bounds as [Hl Hu]. split; nra.
Qed.

(** The value of the three-turn scenario, to three decimals. *)
Lemma soft_scenario_value :
  (4985 / 10000 < (0 + (1 - exp (-1)) + (1 - exp (-2))) / 3 < 4995 / 10000)%R.
Proof.
  destruct exp_minus_one_bounds as [Hl1 Hu1].
  destruct exp_minus_two_bounds as [Hl2 Hu2].
  split; lra.
Qed.

(** ** The loops of the success rates, turn by turn *)

Section RateLoops.

Context {C : Type} `{EqDec C}.

Implicit Types df : Transcript C.

Lemma scan_pairs_all_equal (turn_idx n : nat)
    (pairs : list (ApiState C * ApiState C)) :
  0 < n ->
  scan_pairs turn_idx n pairs =
  if all_equal pairs then Ok (Next tt)
  else Ok (Leave (Finite (Qred (Z.of_nat turn_idx # Pos.of_nat n)))).
Proof.
  intros Hn. unfold scan_pairs, all_equal.
  induction pairs as [|[pred truth] pairs IH]; cbn.
  - reflexivity.
  - unfold neqb. destruct (eqb pred truth); cbn.
    + exact IH.
    + rewrite truediv_Ok by exact Hn. reflexivity.
Qed.

Lemma task_process_rate_by_verdict df :
  task_process_rate df =
  r <- for_each (range (len (turn_responses df))) (rate_step df) tt;;
  match r with
  | Leave v => Ok v
  | Next _ => Ok PosInf
  end.
Proof.
  unfold task_process_rate. cbv zeta. f_equal.
  apply for_each_ext. intros i s Hin.
  apply in_seq in Hin.
  unfold rate_step, verdict.
  destruct (index (turn_responses df) i) as [turn|]; cbn; [|reflexivity].
  destruct (index (ground_truth_log df) (i + 1)) as [ts|]; cbn; [|reflexivity].
  apply scan_pairs_all_equal. lia.
Qed.

Lemma rate_loop df (m k : nat) :
  k + m = len (turn_responses df) ->
  let n := len (turn_responses df) in
  let r := for_each (seq k m) (rate_step df) tt in
  (exists i, k <= i < n /\ verdict df i = Ok false /\
             (forall j, k <= j < i -> verdict df j = Ok true) /\
             r = Ok (Leave (Finite (Qred (Z.of_nat i # Pos.of_nat n)))))
  \/ ((forall j, k <= j < n -> verdict df j = Ok true) /\ r = Ok (Next tt))
  \/ (exists i, k <= i < n /\ len (ground_truth_log df) <= i + 1 /\
                (forall j, k <= j < i -> verdict df j = Ok true) /\
                r = Raise IndexError).
Proof.
  revert k. induction m as [|m IH]; intros k Hk n r; subst n r.
  - right. left. split; [intros j Hj; lia | reflexivity].
  - cbn [seq for_each].
    assert (Es : rate_step df k tt =
                 b <- verdict df k;;
                 if b then Ok (Next tt)
                 else Ok (Leave (Finite (Qred (Z.of_nat k
                        # Pos.of_nat (len (turn_responses df)))))))
      by reflexivity.
    rewrite Es. clear Es.
    destruct (verdict df k) as [[|]|e] eqn:Ev; cbn [bind].
    + specialize (IH (S k) ltac:(lia)). cbv zeta in IH.
      destruct IH as [(i & Hi & Hf & Hb & Hr) | [(Hall & Hr) | (i & Hi & Hg & Hb & Hr)]].
      * left. exists i. repeat split; try lia; try assumption.
        intros j Hj. destruct (Nat.eq_dec j k) as [->|]; [exact Ev|].
        apply Hb. lia.
      * right. left. split; [|exact Hr].
        intros j Hj. destruct (Nat.eq_dec j k) as [->|]; [exact Ev|].
        apply Hall. lia.
      * right. right. exists i. repeat split; try lia; try assumption.
        intros j Hj. destruct (Nat.eq_dec j k) as [->|]; [exact Ev|].
        apply Hb. lia.
    + left. exists k. repeat split; try lia; try assumption.
    + apply verdict_Raise in Ev as [-> Hlen].
      right. right. exists k. repeat split; try lia.
Qed.

Lemma turn_success_score_by_verdict df :
  turn_success_score df =
  for_all (range (len (turn_responses df))) (score_step df) 0.
Proof.
  unfold turn_success_score. apply for_all_ext. intros i s _.
  unfold score_step, verdict.
  destruct (index (turn_responses df) i) as [turn|]; cbn; [|reflexivity].
  destruct (index (ground_truth_log df) (i + 1)) as [ts|]; cbn; reflexivity.
Qed.

Lemma succeeds_true df (i : nat) : succeeds df i = true <-> turn_matches df i.
Proof.
  rewrite <- verdict_true. unfold succeeds.
  destruct (verdict df i) as [b|e]; split; congruence.
Qed.

Lemma score_loop df (m k score : nat) :
  (forall j, k <= j < k + m -> exists b, verdict df j = Ok b) ->
  for_all (seq k m) (score_step df) score =
  Ok (score + len (filter (succeeds df) (seq k m))).
Proof.
  revert k score. induction m as [|m IH]; intros k score Hv.
  - cbn. f_equal. lia.
  - cbn [seq for_all filter].
    destruct (Hv k ltac:(lia)) as [b Eb].
    assert (Es : score_step df k score = Ok (if b then score + 1 else score)).
    { unfold score_step. rewrite Eb. now destruct b. }
    assert (Ef : succeeds df k = b) by (unfold succeeds; now rewrite Eb).
    rewrite Es, Ef.
    destruct b; rewrite IH by (intros j Hj; apply Hv; lia);
      f_equal; cbn [len]; lia.
Qed.

Lemma score_loop_raise df (m k score : nat) :
  (exists j, k <= j < k + m /\ len (ground_truth_log df) <= j + 1) ->
  k + m <= len (turn_responses df) ->
  for_all (seq k m) (score_step df) score = Raise IndexError.
Proof.
  revert k score. induction m as [|m IH]; intros k score [j [Hj Hg]] Hk.
  - lia.
  - cbn [seq for_all].
    assert (Es : score_step df k score =
                 b <- verdict df k;; if b then Ok (score + 1) else Ok score)
      by reflexivity.
    rewrite Es. clear Es.
    destruct (verdict df k) as [b|e] eqn:Ev; cbn [bind].
    + assert (Hne : j <> k).
      { intros ->. destruct (verdict_Raise df k IndexError) as [_ Hr].
        rewrite Hr in Ev by auto. discriminate. }
      destruct b; apply IH; try lia; exists j; split; auto; lia.
    + apply verdict_Raise in Ev as [-> _]. reflexivity.
Qed.

Lemma soft_score_by_verdict df :
  soft_score df =
  for_all (range (len (turn_responses df))) (soft_step df) ([], None).
Proof.
  unfold soft_score. apply for_all_ext. intros i [score last] _.
  unfold soft_step, verdict.
  destruct (index (turn_responses df) i) as [turn|]; cbn; [|reflexivity].
  destruct (index (ground_truth_log df) (i + 1)) as [ts|]; cbn; reflexivity.
Qed.

Lemma soft_loop_all_match df (m k : nat) (score : list addend) :
  (forall j, k <= j < k + m -> verdict df j = Ok true) ->
  for_all (seq k m) (soft_step df) (score, None) =
  Ok (score ++ repeat One m, None).
Proof.
  revert k score. induction m as [|m IH]; intros k score Hv.
  - cbn. now rewrite app_nil_r.
  - cbn [seq for_all repeat].
    assert (Es : soft_step df k (score, None) = Ok (score ++ [One], None)).
    { unfold soft_step. rewrite (Hv k) by lia. reflexivity. }
    rewrite Es.
    rewrite IH by (intros j Hj; apply Hv; lia).
    now rewrite <- app_assoc.
Qed.

Lemma score_value_app (added : list addend) (a : addend) :
  score_value (added ++ [a]) = (score_value added + addend_value a)%R.
Proof.
  unfold score_value. now rewrite fold_left_app.
Qed.

Lemma score_value_ones (m : nat) : score_value (repeat One m) = INR m.
Proof.
  induction m as [|m IH].
  - reflexivity.
  - replace (repeat One (S m)) with (repeat One m ++ [One]).
    + rewrite score_value_app, IH, S_INR. reflexivity.
    + change [One] with (repeat One 1). rewrite <- repeat_app.
      f_equal. lia.
Qed.

Lemma task_process_rate_all_match df :
  (forall j, j < len (turn_responses df) -> verdict df j = Ok true) ->
  task_process_rate df = Ok PosInf.
Proof.
  intros Hall. rewrite task_process_rate_by_verdict. unfold range.
  destruct (rate_loop df (len (turn_responses df)) 0 eq_refl)
    as [(i & Hi & Hf & _) | [(_ & Hr) | (i & Hi & Hg & _)]].
  - rewrite Hall in Hf by lia. discriminate.
  - now rewrite Hr.
  - destruct (verdict_Raise df i IndexError) as [_ Hr].
    rewrite Hall in Hr by lia. discriminate Hr. auto.
Qed.

Lemma average_rate_all_match df :
  0 < len (turn_responses df) ->
  (forall j, j < len (turn_responses df) -> verdict df j = Ok true) ->
  average_turn_success_rate df = Ok 1%Q.
Proof.
  intros Hn Hall. unfold average_turn_success_rate.
  rewrite turn_success_score_by_verdict. unfold range.
  rewrite score_loop by (intros j Hj; rewrite Hall by lia; eauto).
  replace (filter (succeeds df) (seq 0 (len (turn_responses df))))
    with (seq 0 (len (turn_responses df))).
  - rewrite length_seq. cbn [bind Nat.add].
    rewrite truediv_Ok by exact Hn. now rewrite quotient_self.
  - symmetry. apply forallb_filter_id. apply forallb_forall.
    intros j Hj. apply in_seq in Hj. unfold succeeds.
    rewrite Hall by lia. reflexivity.
Qed.

Lemma soft_rate_all_match df :
  0 < len (turn_responses df) ->
  (forall j, j < len (turn_responses df) -> verdict df j = Ok true) ->
  soft_average_turn_success_rate df = Ok 1%R.
Proof.
  intros Hn Hall. unfold soft_average_turn_success_rate.
  rewrite soft_score_by_verdict. unfold range.
  rewrite soft_loop_all_match by (intros j Hj; apply Hall; lia).
  cbn [bind app]. rewrite score_value_ones.
  destruct (len (turn_responses df)) as [|n']; [lia|].
  cbn [realdiv]. f_equal.
  apply Rdiv_diag. apply not_0_INR. discriminate.
Qed.

End RateLoops.

(** ** The success rates *)

Section Rates.

Context {C : Type} `{EqDec C}.

Implicit Types df : Transcript C.

(** C3, amended: [task_process_rate] scans the turns in order.  At the
    first turn whose comparison finds an unequal pair it returns that
    turn's index divided by the number of turns, a value in [0, 1); when
    every turn matches it returns positive infinity; when, before any
    mismatch, it reaches a turn for which [ground_truth_log] has no entry
    [turn_idx + 1], it raises [IndexError].  These are the only outcomes,
    the third is excluded when [ground_truth_log] has more entries than
    there are turns, and the result is infinity exactly when every turn
    matches. *)
Theorem task_process_rate_outcomes df :
  let n := len (turn_responses df) in
  ((exists i q,
       i < n /\ turn_mismatches df i /\
       (forall j, j < i -> turn_matches df j) /\
       task_process_rate df = Ok (Finite q) /\
       (q == inject_Z (Z.of_nat i) / inject_Z (Z.of_nat n))%Q /\
       (0 <= q)%Q /\ (q < 1)%Q)
   \/ ((forall j, j < n -> turn_matches df j) /\
       task_process_rate df = Ok PosInf)
   \/ (exists i,
         i < n /\ len (ground_truth_log df) <= i + 1 /\
         (forall j, j < i -> turn_matches df j) /\
         task_process_rate df = Raise IndexError))
  /\ (n < len (ground_truth_log df) -> exists v, task_process_rate df = Ok v)
  /\ (task_process_rate df = Ok PosInf <->
      forall j, j < n -> turn_matches df j).
Proof.
  intros n.
  assert (Tri :
    (exists i q,
       i < n /\ turn_mismatches df i /\
       (forall j, j < i -> turn_matches df j) /\
       task_process_rate df = Ok (Finite q) /\
       (q == inject_Z (Z.of_nat i) / inject_Z (Z.of_nat n))%Q /\
       (0 <= q)%Q /\ (q < 1)%Q)
    \/ ((forall j, j < n -> turn_matches df j) /\
        task_process_rate df = Ok PosInf)
    \/ (exists i,
          i < n /\ len (ground_truth_log df) <= i + 1 /\
          (forall j, j < i -> turn_matches df j) /\
          task_process_rate df = Raise IndexError)).
  { subst n. rewrite task_process_rate_by_verdict. unfold range.
    set (n := len (turn_responses df)).
    destruct (rate_loop df n 0 eq_refl)
      as [(i & Hi & Hf & Hb & Hr) | [(Hall & Hr) | (i & Hi & Hg & Hb & Hr)]];
      fold n in Hi, Hr || fold n in Hr; rewrite Hr; cbn [bind].
    - left. exists i, (Qred (Z.of_nat i # Pos.of_nat n)).
      split; [lia|]. split; [now apply verdict_false|].
      split; [intros j Hj; apply verdict_true, Hb; lia|].
      split; [reflexivity|].
      split; [apply quotient_value; lia|].
      split; [apply quotient_nonneg; lia | apply quotient_lt_1; lia].
    - right. left. split; [|reflexivity].
      intros j Hj. apply verdict_true, Hall. fold n. lia.
    - right. right. exists i.
      split; [lia|]. split; [exact Hg|].
      split; [intros j Hj; apply verdict_true, Hb; lia | reflexivity]. }
  split; [exact Tri|]. split.
  - intros Hlen.
    destruct Tri as [(i & q & _ & _ & _ & Hr & _) | [(_ & Hr) | (i & Hi & Hg & _)]];
      [eauto | eauto | lia].
  - split.
    + intros Hinf.
      destruct Tri as [(i & q & _ & _ & _ & Hr & _) | [(Hall & _) | (i & _ & _ & _ & Hr)]];
        [congruence | exact Hall | congruence].
    + intros Hall.
      destruct Tri as [(i & q & Hi & Hm & _) | [(_ & Hr) | (i & Hi & Hg & _)]].
      * exfalso. apply (match_mismatch_exclusive df i); auto.
      * exact Hr.
      * destruct (Hall i Hi) as (_ & Hg' & _). lia.
Qed.

(** C4, amended: on a transcript with at least one turn whose
    [ground_truth_log] has more entries than there are turns,
    [average_turn_success_rate] is the number of turns whose pairs are all
    equal divided by the number of turns, a value in [0, 1]; with zero
    turns it raises [ZeroDivisionError]; with at least one turn and a
    [ground_truth_log] of at most as many entries as turns it raises
    [IndexError]. *)
Theorem average_turn_success_rate_proportion df :
  let n := len (turn_responses df) in
  (n = 0 -> average_turn_success_rate df = Raise ZeroDivisionError) /\
  (0 < n -> len (ground_truth_log df) <= n ->
   average_turn_success_rate df = Raise IndexError) /\
  (0 < n -> n < len (ground_truth_log df) ->
   exists good q,
     NoDup good /\
     (forall i, In i good <-> turn_matches df i) /\
     average_turn_success_rate df = Ok q /\
     (q == inject_Z (Z.of_nat (len good)) / inject_Z (Z.of_nat n))%Q /\
     (0 <= q)%Q /\ (q <= 1)%Q).
Proof.
  intros n. unfold average_turn_success_rate.
  rewrite turn_success_score_by_verdict. fold n. unfold range.
  split; [|split].
  - intros ->. reflexivity.
  - intros Hn Hg. rewrite score_loop_raise; [reflexivity| |cbn; lia].
    exists (n - 1). lia.
  - intros Hn Hg.
    rewrite score_loop.
    2:{ intros j Hj. apply verdict_in_range; fold n; lia. }
    set (good := filter (succeeds df) (seq 0 n)).
    cbn [bind Nat.add]. rewrite truediv_Ok by exact Hn.
    assert (Hle : len good <= n).
    { unfold good. etransitivity; [apply filter_length_le|].
      now rewrite length_seq. }
    exists good, (Qred (Z.of_nat (len good) # Pos.of_nat n)).
    split; [apply NoDup_filter, seq_NoDup|].
    split.
    { intros i. unfold good. rewrite filter_In, in_seq, succeeds_true.
      split; [tauto|]. intros Hm. split; [|exact Hm].
      destruct Hm as (Hi & _). fold n in Hi. lia. }
    split; [reflexivity|].
    split; [apply quotient_value; exact Hn|].
    split; [apply quotient_nonneg; exact Hn | apply quotient_le_1; assumption].
Qed.

(** C5: on a transcript of three turns where turn 0 mismatches and turns
    1 and 2 match, [task_process_rate] returns 0/3 = 0,
    [average_turn_success_rate] returns 2/3, and
    [soft_average_turn_success_rate] adds [1 - exp (-1)] for turn 1 and
    [1 - exp (-2)] for turn 2 and returns
    [(0 + (1 - exp (-1)) + (1 - exp (-2))) / 3], which is 0.499 to three
    decimals. *)
Theorem three_turn_scenario df :
  len (turn_responses df) = 3 ->
  turn_mismatches df 0 -> turn_matches df 1 -> turn_matches df 2 ->
  task_process_rate df = Ok (Finite 0%Q) /\
  average_turn_success_rate df = Ok (2 # 3)%Q /\
  soft_score df = Ok ([OneMinusExp 1; OneMinusExp 2], Some 0) /\
  soft_average_turn_success_rate df
  = Ok ((0 + (1 - exp (-1)) + (1 - exp (-2))) / 3)%R /\
  (4985 / 10000 < (0 + (1 - exp (-1)) + (1 - exp (-2))) / 3 < 4995 / 10000)%R.
Proof.
  intros Hn H0 H1 H2.
  apply verdict_false in H0. apply verdict_true in H1, H2.
  assert (Hsoft : soft_score df = Ok ([OneMinusExp 1; OneMinusExp 2], Some 0)).
  { rewrite soft_score_by_verdict, Hn. cbn [range seq for_all].
    unfold soft_step. rewrite H0, H1, H2. reflexivity. }
  split; [|split; [|split; [|split]]].
  - rewrite task_process_rate_by_verdict, Hn. cbn [range seq for_each].
    unfold rate_step. rewrite H0, Hn. reflexivity.
  - unfold average_turn_success_rate.
    rewrite turn_success_score_by_verdict, Hn. cbn [range seq for_all].
    unfold score_step. rewrite H0, H1, H2. reflexivity.
  - exact Hsoft.
  - unfold soft_average_turn_success_rate. rewrite Hsoft, Hn.
    cbn [bind realdiv]. f_equal.
    unfold score_value. cbn [fold_left addend_value].
    replace (INR 3) with 3%R by (cbn; lra).
    reflexivity.
  - exact soft_scenario_value.
Qed.

(** C6: on a transcript with at least one turn in which every turn
    matches its ground truth, [average_turn_success_rate] and
    [soft_average_turn_success_rate] are equal, and both are exactly 1. *)
Theorem all_turns_match_rates_one df :
  0 < len (turn_responses df) ->
  (forall i, i < len (turn_responses df) -> turn_matches df i) ->
  exists q r,
    average_turn_success_rate df = Ok q /\
    soft_average_turn_success_rate df = Ok r /\
    Q2R q = r /\ q = 1%Q /\ r = 1%R.
Proof.
  intros Hn Hall.
  assert (Hv : forall j, j < len (turn_responses df) -> verdict df j = Ok true).
  { intros j Hj. apply verdict_true, Hall, Hj. }
  exists 1%Q, 1%R. split; [|split; [|split; [|split]]].
  - now apply average_rate_all_match.
  - now apply soft_rate_all_match.
  - unfold Q2R. cbn. lra.
  - reflexivity.
  - reflexivity.
Qed.

End Rates.

(** ** Loops that read [df['turn_responses'][turn_idx]] *)

Lemma for_all_seq_index {X S : Type} (pre l : list X)
    (f : X -> S -> result S) (s : S) :
  for_all (seq (len pre) (len l))
    (fun i s => x <- index (pre ++ l) i;; f x s) s
  = for_all l f s.
Proof.
  revert pre s. induction l as [|x l IH]; intros pre s.
  - reflexivity.
  - cbn [len seq for_all].
    assert (Ex : index (pre ++ x :: l) (len pre) = Ok x).
    { apply index_Ok. rewrite nth_error_app2 by lia.
      now rewrite Nat.sub_diag. }
    rewrite Ex. cbn [bind].
    destruct (f x s) as [s'|e]; [|reflexivity].
    specialize (IH (pre ++ [x]) s').
    rewrite <- app_assoc in IH. cbn [app] in IH.
    rewrite length_app in IH. cbn [len] in IH.
    rewrite Nat.add_1_r in IH. exact IH.
Qed.

Lemma for_all_range_index {X S : Type} (l : list X)
    (f : X -> S -> result S) (s : S) :
  for_all (range (len l)) (fun i s => x <- index l i;; f x s) s
  = for_all l f s.
Proof. exact (for_all_seq_index [] l f s). Qed.

(** ** Steps without a call *)

Section NoFuncCall.

Context {C : Type}.

Implicit Types df : Transcript C.

Lemma count_no_call_steps_spec (steps : list Step) (count : nat) :
  exists r,
    count_no_call_steps steps count = Ok r /\
    after_loop r = count + len (steps_before_call steps).
Proof.
  unfold count_no_call_steps. revert count.
  induction steps as [|entry steps IH]; intros count; cbn.
  - exists (Next count). split; [reflexivity | cbn; lia].
  - destruct (has_key (handler_response entry)).
    + exists (Leave count). split; [reflexivity | cbn; lia].
    + destruct (IH (count + 1)) as (r & Hr & Ha).
      exists r. split; [exact Hr | cbn; lia].
Qed.

Lemma no_func_call_loop (turns : list (Turn C)) (count : nat) :
  for_all turns
    (fun turn count =>
       r <- count_no_call_steps (step_responses turn) count;;
       Ok (after_loop r))
    count
  = Ok (count
        + list_sum (map (fun turn => len (steps_before_call (step_responses turn)))
                        turns)).
Proof.
  unfold list_sum.
  revert count. induction turns as [|turn turns IH]; intros count; cbn.
  - f_equal. lia.
  - destruct (count_no_call_steps_spec (step_responses turn) count)
      as (r & -> & Ha).
    cbn [bind]. rewrite IH, Ha. f_equal. lia.
Qed.

Lemma no_func_call_count_spec df :
  no_func_call_count df = Ok (no_call_steps df).
Proof.
  unfold no_func_call_count, no_call_steps.
  rewrite (for_all_range_index (turn_responses df)
             (fun turn count =>
                r <- count_no_call_steps (step_responses turn) count;;
                Ok (after_loop r))).
  apply no_func_call_loop.
Qed.

Lemma steps_before_call_prefix (steps : list Step) :
  exists rest,
    steps = steps_before_call steps ++ rest /\
    Forall (fun entry => handler_response entry = None)
           (steps_before_call steps) /\
    match rest with
    | [] => True
    | entry :: _ => handler_response entry <> None
    end.
Proof.
  induction steps as [|entry steps (rest & Hs & Hf & Hr)]; cbn.
  - exists []. repeat split. constructor.
  - destruct (handler_response entry) as [h|] eqn:Eh; cbn.
    + exists (entry :: steps). repeat split; [constructor | congruence].
    + exists rest. cbn. split; [congruence|]. split; [|exact Hr].
      constructor; assumption.
Qed.

(** C9: on a transcript with at least one turn, [no_func_call_rate] is
    [N] divided by the number of turns, where [N] adds up, over the turns,
    the steps that come before the turn's first step with a
    [handler_response]: the scan of a turn stops at that step, and every
    step before it counts once. *)
Theorem no_func_call_rate_counts_steps df :
  0 < len (turn_responses df) ->
  (forall steps, exists rest,
      steps = steps_before_call steps ++ rest /\
      Forall (fun entry => handler_response entry = None)
             (steps_before_call steps) /\
      match rest with
      | [] => True
      | entry :: _ => handler_response entry <> None
      end) /\
  no_func_call_count df
  = Ok (list_sum (map (fun turn => len (steps_before_call (step_responses turn)))
                      (turn_responses df))) /\
  exists q,
    no_func_call_rate df = Ok q /\
    (q == inject_Z (Z.of_nat (no_call_steps df))
          / inject_Z (Z.of_nat (len (turn_responses df))))%Q.
Proof.
  intros Hn. split; [exact steps_before_call_prefix|].
  split; [apply no_func_call_count_spec|].
  unfold no_func_call_rate. rewrite no_func_call_count_spec. cbn [bind].
  rewrite truediv_Ok by exact Hn.
  eexists. split; [reflexivity|]. apply quotient_value. exact Hn.
Qed.

End NoFuncCall.

(** ** Tool errors *)

Section ToolErrorCounts.

Context {C : Type}.
Variable json_loads : string -> json_exn + json.

Implicit Types df : Transcript C.

Let has_error := has_error_in_tool_response json_loads.

Lemma has_error_iff (tr : ToolResponse) :
  has_error tr = true <->
  exists members,
    json_loads (content tr) = inr (JObject members) /\
    In "error" (map fst members).
Proof.
  unfold has_error, has_error_in_tool_response, error_key_test.
  destruct (json_loads (content tr)) as [e|v].
  - split; [discriminate | intros (m & Hm & _); discriminate].
  - destruct v; cbn [keys];
      try (split; [discriminate | intros (m & Hm & _); discriminate]).
    rewrite existsb_exists. split.
    + intros (k & Hin & Hk). apply String.eqb_eq in Hk. subst k.
      exists members. auto.
    + intros (m & [= <-] & Hin). exists "error". split; [exact Hin|].
      apply String.eqb_refl.
Qed.

Lemma has_error_decode_failure (tr : ToolResponse) (e : json_exn) :
  json_loads (content tr) = inl e -> has_error tr = false.
Proof.
  intros He. unfold has_error, has_error_in_tool_response, error_key_test.
  now rewrite He.
Qed.

Lemma count_tool_response_spec (n : nat) (tr : ToolResponse) :
  count_tool_response json_loads n tr = n + (if has_error tr then 1 else 0).
Proof.
  unfold count_tool_response, has_error, has_error_in_tool_response.
  destruct (error_key_test json_loads tr) as [e|[|]]; lia.
Qed.

Lemma count_tool_responses (trs : list ToolResponse) (n : nat) :
  fold_left (count_tool_response json_loads) trs n
  = n + len (filter has_error trs).
Proof.
  revert n. induction trs as [|tr trs IH]; intros n; cbn.
  - lia.
  - rewrite IH, count_tool_response_spec.
    destruct (has_error tr); cbn; lia.
Qed.

Lemma count_steps (steps : list Step) (n : nat) :
  fold_left
    (fun n step =>
       fold_left (count_tool_response json_loads) (tool_response step) n)
    steps n
  = n + len (filter has_error (flat_map tool_response steps)).
Proof.
  revert n. induction steps as [|step steps IH]; intros n; cbn.
  - lia.
  - rewrite IH, count_tool_responses, filter_app, length_app. lia.
Qed.

Lemma num_tool_errors_loop (turns : list (Turn C)) (n : nat) :
  for_all turns
    (fun turn num_errors =>
       Ok (fold_left
             (fun n step =>
                fold_left (count_tool_response json_loads) (tool_response step) n)
             (step_responses turn) num_errors))
    n
  = Ok (n + len (filter has_error (flat_map turn_tool_responses turns))).
Proof.
  revert n. induction turns as [|turn turns IH]; intros n; cbn.
  - f_equal. lia.
  - rewrite IH, count_steps, filter_app, length_app. f_equal.
    unfold turn_tool_responses. lia.
Qed.

Lemma num_turn_with_errors_loop (turns : list (Turn C)) (n : nat) :
  for_all turns
    (fun turn num_turns_with_error =>
       if existsb has_error (flat_map tool_response (step_responses turn))
       then Ok (num_turns_with_error + 1)
       else Ok num_turns_with_error)
    n
  = Ok (n + len (filter
                   (fun turn => existsb has_error (turn_tool_responses turn))
                   turns)).
Proof.
  revert n. induction turns as [|turn turns IH]; intros n; cbn.
  - f_equal. lia.
  - unfold turn_tool_responses at 1.
    destruct (existsb has_error (flat_map tool_response (step_responses turn)));
      rewrite IH; f_equal; cbn; lia.
Qed.

(** C8: a tool-response entry is an error entry exactly when its content
    decodes to a JSON object with an ["error"] key; an entry whose content
    does not decode is none.  [num_tool_errors] returns the number of error
    entries of the transcript and [num_turn_with_errors] the number of
    turns that hold at least one, each turn counted once; neither
    raises. *)
Theorem tool_errors_counted df :
  (forall tr,
      has_error_in_tool_response json_loads tr = true <->
      exists members,
        json_loads (content tr) = inr (JObject members) /\
        In "error" (map fst members)) /\
  (forall tr e,
      json_loads (content tr) = inl e ->
      has_error_in_tool_response json_loads tr = false) /\
  num_tool_errors json_loads df
  = Ok (len (filter (has_error_in_tool_response json_loads)
                    (all_tool_responses df))) /\
  num_turn_with_errors json_loads df
  = Ok (len (filter
               (fun turn =>
                  existsb (has_error_in_tool_response json_loads)
                          (turn_tool_responses turn))
               (turn_responses df))) /\
  len (filter
         (fun turn =>
            existsb (has_error_in_tool_response json_loads)
                    (turn_tool_responses turn))
         (turn_responses df))
  <= len (turn_responses df).
Proof.
  split; [exact has_error_iff|].
  split; [exact has_error_decode_failure|].
  split; [|split].
  - unfold num_tool_errors.
    rewrite (for_all_range_index (turn_responses df)
               (fun turn num_errors =>
                  Ok (fold_left
                        (fun n step =>
                           fold_left (count_tool_response json_loads)
                                     (tool_response step) n)
                        (step_responses turn) num_errors))).
    rewrite num_tool_errors_loop. reflexivity.
  - unfold num_turn_with_errors.
    rewrite (for_all_range_index (turn_responses df)
               (fun turn num_turns_with_error =>
                  if existsb (has_error_in_tool_response json_loads)
                       (flat_map tool_response (step_responses turn))
                  then Ok (num_turns_with_error + 1)
                  else Ok num_turns_with_error)).
    rewrite num_turn_with_errors_loop. reflexivity.
  - apply filter_length_le.
Qed.

End ToolErrorCounts.

(** ** Apologetic closing messages *)

Section Apologetic.

Context {C : Type}.

Implicit Types df : Transcript C.

Lemma last_item_snoc {X : Type} (l : list X) (x : X) :
  last_item (l ++ [x]) = Ok x.
Proof.
  unfold last_item. now rewrite rev_app_distr.
Qed.

(** The [is None] test of line 46 looks at the result of [str], which is
    never [None]. *)
Lemma is_None_str (message : pyval) : is_None (PyStr (str message)) = false.
Proof. reflexivity. Qed.

Lemma apologetic_test_None : apologetic_test (str PyNone) = false.
Proof. vm_compute. reflexivity. Qed.

(** C7, where the code departs from it: when the closing message of every
    turn is [None], [apologetic] returns [False].  [str] has turned the
    message into the text ["None"] before the [is None] test, and that
    text holds none of the phrases. *)
Theorem apologetic_null_message_not_flagged df :
  (forall turn, In turn (turn_responses df) ->
     exists steps last_step,
       step_responses turn = steps ++ [last_step] /\
       assistant_content last_step = Some PyNone) ->
  apologetic df = Ok false.
Proof.
  unfold apologetic. intros Hnull.
  assert (Hloop :
    for_each (turn_responses df)
      (fun turn_response (_ : unit) =>
         last_step <- last_item (step_responses turn_response);;
         message <- getitem (assistant_content last_step);;
         let turn_summary := str message in
         if apologetic_test turn_summary
         then Ok (Leave true)
         else Ok (Next tt))
      tt
    = Ok (Next tt)).
  { induction (turn_responses df) as [|turn turns IH].
    - reflexivity.
    - cbn [for_each].
      destruct (Hnull turn (or_introl eq_refl)) as (steps & last & -> & Hc).
      rewrite last_item_snoc. cbn [bind]. rewrite Hc. cbn [bind getitem].
      cbv zeta. rewrite apologetic_test_None.
      apply IH. intros t Ht. apply Hnull. now right. }
  cbv zeta in Hloop. rewrite Hloop. reflexivity.
Qed.

End Apologetic.

(** ** The dict of [check_api_state_mismatch] *)

Lemma dict_get_set_same (d : dict) (k : string) (v : cell) :
  dict_get (dict_set d k v) k = Some v.
Proof.
  induction d as [|[k' v'] d IH]; cbn.
  - now rewrite String.eqb_refl.
  - destruct (String.eqb k k') eqn:E; cbn.
    + now rewrite String.eqb_refl.
    + now rewrite E.
Qed.

Lemma dict_get_set_other (d : dict) (k k' : string) (v : cell) :
  k' <> k -> dict_get (dict_set d k v) k' = dict_get d k'.
Proof.
  intros Hne. induction d as [|[k0 v0] d IH]; cbn.
  - apply String.eqb_neq in Hne. now rewrite Hne.
  - destruct (String.eqb k k0) eqn:E; cbn.
    + apply String.eqb_eq in E. subst k0.
      apply String.eqb_neq in Hne. now rewrite Hne.
    + now rewrite IH.
Qed.

Lemma dict_get_set (d : dict) (k k' : string) (v : cell) :
  dict_get (dict_set d k v) k'
  = if String.eqb k k' then Some v else dict_get d k'.
Proof.
  destruct (String.eqb k k') eqn:E.
  - apply String.eqb_eq in E. subst. apply dict_get_set_same.
  - apply String.eqb_neq in E. apply dict_get_set_other. congruence.
Qed.

Lemma keys_of_set_present (d : dict) (k : string) (v : cell) :
  In k (keys_of d) -> keys_of (dict_set d k v) = keys_of d.
Proof.
  induction d as [|[k' v'] d IH]; cbn.
  - intros [].
  - intros Hin. destruct (String.eqb k k') eqn:E; cbn.
    + apply String.eqb_eq in E. now subst.
    + f_equal. apply IH. destruct Hin as [->|Hin]; [|exact Hin].
      now rewrite String.eqb_refl in E.
Qed.

Lemma keys_of_set_incl (d : dict) (k k' : string) (v : cell) :
  In k' (keys_of d) -> In k' (keys_of (dict_set d k v)).
Proof.
  induction d as [|[k0 v0] d IH]; cbn.
  - intros [].
  - destruct (String.eqb k k0) eqn:E; cbn.
    + apply String.eqb_eq in E. subst. tauto.
    + intros [->|Hin]; [now left | right; auto].
Qed.

Lemma dict_get_fold_set (names : list string) (v : cell) (d : dict)
    (k : string) :
  dict_get (fold_left (fun st api => dict_set st api v) names d) k
  = if existsb (String.eqb k) names then Some v else dict_get d k.
Proof.
  revert d. induction names as [|name names IH]; intros d; cbn.
  - reflexivity.
  - rewrite IH, dict_get_set. rewrite (String.eqb_sym name k).
    destruct (String.eqb k name); cbn.
    + now destruct (existsb (String.eqb k) names).
    + reflexivity.
Qed.

Lemma keys_of_fold_set (names : list string) (v : cell) (d : dict) :
  (forall name, In name names -> In name (keys_of d)) ->
  keys_of (fold_left (fun st api => dict_set st api v) names d) = keys_of d.
Proof.
  revert d. induction names as [|name names IH]; intros d Hin; cbn.
  - reflexivity.
  - rewrite IH.
    + apply keys_of_set_present. apply Hin. now left.
    + intros n Hn. apply keys_of_set_incl. apply Hin. now right.
Qed.

Lemma keys_of_fold_set_incl (names : list string) (v : cell) (d : dict)
    (k : string) :
  In k (keys_of d) ->
  In k (keys_of (fold_left (fun st api => dict_set st api v) names d)).
Proof.
  revert d. induction names as [|name names IH]; intros d Hin; cbn.
  - exact Hin.
  - apply IH. now apply keys_of_set_incl.
Qed.

Lemma existsb_eqb_In (k : string) (names : list string) :
  existsb (String.eqb k) names = true <-> In k names.
Proof.
  rewrite existsb_exists. split.
  - intros (x & Hin & E). apply String.eqb_eq in E. now subst.
  - intros Hin. exists k. split; [exact Hin | apply String.eqb_refl].
Qed.

Lemma keys_of_initial_state : keys_of initial_state = API_LIST.
Proof. reflexivity. Qed.

Lemma dict_get_initial_state (k : string) :
  dict_get initial_state k
  = if existsb (String.eqb k) API_LIST then Some NaN else None.
Proof.
  unfold initial_state. rewrite dict_get_fold_set. reflexivity.
Qed.

Lemma In_enumerate_from {X : Type} (l : list X) (k i : nat) (x : X) :
  In (i, x) (combine (seq k (len l)) l) <->
  k <= i /\ nth_error l (i - k) = Some x.
Proof.
  revert k. induction l as [|y l IH]; intros k; cbn [len seq combine In].
  - split; [intros [] | intros [_ Hn]]. now destruct (i - k).
  - rewrite IH. split.
    + intros [[= <- <-] | [Hk Hn]].
      * split; [lia|]. now rewrite Nat.sub_diag.
      * split; [lia|]. replace (i - k) with (S (i - S k)) by lia. exact Hn.
    + intros [Hk Hn]. destruct (Nat.eq_dec i k) as [->|Hne].
      * left. rewrite Nat.sub_diag in Hn. cbn in Hn. congruence.
      * right. split; [lia|].
        replace (i - k) with (S (i - S k)) in Hn by lia. exact Hn.
Qed.

Lemma In_enumerate {X : Type} (l : list X) (i : nat) (x : X) :
  In (i, x) (enumerate l) <-> nth_error l i = Some x.
Proof.
  unfold enumerate. rewrite In_enumerate_from. rewrite Nat.sub_0_r.
  split; [tauto | intros; split; [lia | assumption]].
Qed.

Section CheckApiState.

Context {C : Type} `{EqDec C}.

Implicit Types df : Transcript C.

Lemma marks_iff (gts ts : list (ApiState C)) (api : string) :
  marks gts ts api = true <->
  exists k g t,
    nth_error gts k = Some g /\ nth_error ts k = Some t /\
    g <> t /\ class_name g = api.
Proof.
  unfold marks. rewrite existsb_exists. split.
  - intros ([g t] & Hin & Hb).
    apply andb_true_iff in Hb as [Hne Hname].
    apply neqb_true_iff in Hne. apply String.eqb_eq in Hname.
    apply In_nth_error in Hin as [k Hk].
    apply nth_error_zip in Hk as [Hg Ht]. eauto 8.
  - intros (k & g & t & Hg & Ht & Hne & Hname).
    exists (g, t). split.
    + apply nth_error_In with k. now apply nth_error_zip.
    + apply andb_true_iff. split.
      * now apply neqb_true_iff.
      * now apply String.eqb_eq.
Qed.

Lemma recorded_iff df (api : string) :
  recorded (ground_truth_log df) (enumerate (turn_responses df)) api = true
  <-> mismatch_recorded df api.
Proof.
  unfold recorded, mismatch_recorded, pair_at.
  rewrite existsb_exists. split.
  - intros ([i turn] & Hin & Hb).
    apply In_enumerate in Hin.
    destruct (nth_error (ground_truth_log df) (i + 1)) as [gts|] eqn:Eg;
      [|discriminate].
    apply marks_iff in Hb as (k & g & t & Hg & Ht & Hne & Hname).
    exists i, k, t, g. split; [eauto 8 | auto].
  - intros (i & k & pred & truth & (turn & gts & Et & Eg & Hp & Hq) & Hne & Hname).
    exists (i, turn). split; [now apply In_enumerate|].
    rewrite Eg. apply marks_iff. eauto 8.
Qed.

Lemma dict_get_mark_mismatches (gts ts : list (ApiState C)) (st : dict)
    (api : string) :
  dict_get (mark_mismatches gts ts st) api
  = if marks gts ts api then Some PyTrue else dict_get st api.
Proof.
  unfold mark_mismatches, marks. revert st.
  induction (zip gts ts) as [|[g t] pairs IH]; intros st; cbn.
  - reflexivity.
  - rewrite IH. destruct (neqb g t); cbn.
    + rewrite dict_get_set.
      destruct (String.eqb (class_name g) api); cbn.
      * now destruct (existsb _ pairs).
      * reflexivity.
    + reflexivity.
Qed.

Lemma keys_of_mark_mismatches_incl (gts ts : list (ApiState C)) (st : dict)
    (k : string) :
  In k (keys_of st) -> In k (keys_of (mark_mismatches gts ts st)).
Proof.
  unfold mark_mismatches. revert st.
  induction (zip gts ts) as [|[g t] pairs IH]; intros st Hin; cbn.
  - exact Hin.
  - apply IH. destruct (neqb g t); [now apply keys_of_set_incl | exact Hin].
Qed.

Lemma keys_of_mark_mismatches (gts ts : list (ApiState C)) (st : dict) :
  (forall a, In a gts -> In (class_name a) (keys_of st)) ->
  keys_of (mark_mismatches gts ts st) = keys_of st.
Proof.
  intros Hknown. unfold mark_mismatches.
  assert (Hpairs : forall g t, In (g, t) (zip gts ts) ->
                               In (class_name g) (keys_of st)).
  { intros g t Hin. apply Hknown. now apply in_combine_l in Hin. }
  clear Hknown. revert st Hpairs.
  induction (zip gts ts) as [|[g t] pairs IH]; intros st Hpairs; cbn.
  - reflexivity.
  - destruct (neqb g t).
    + rewrite IH.
      * apply keys_of_set_present. apply (Hpairs g t). now left.
      * intros g' t' Hin. apply keys_of_set_incl.
        apply (Hpairs g' t'). now right.
    + apply IH. intros g' t' Hin. apply (Hpairs g' t'). now right.
Qed.

(** The loop of lines 125-130 over the turns from index [k] on. *)
Lemma check_loop (gt_log : list (list (ApiState C))) (l : list (Turn C))
    (k : nat) (st : dict) :
  k + len l < len gt_log ->
  exists st',
    for_all (combine (seq k (len l)) l)
      (fun '(turn_idx, turn_response) st =>
         gt_states <- index gt_log (turn_idx + 1);;
         let turn_states := end_of_turn_state turn_response in
         Ok (mark_mismatches gt_states turn_states st))
      st
    = Ok st' /\
    (forall api,
        dict_get st' api
        = if recorded gt_log (combine (seq k (len l)) l) api
          then Some PyTrue else dict_get st api) /\
    (forall a, In a (keys_of st) -> In a (keys_of st')) /\
    ((forall snapshot a, In snapshot gt_log -> In a snapshot ->
                         In (class_name a) (keys_of st)) ->
     keys_of st' = keys_of st).
Proof.
  revert k st. induction l as [|turn l IH]; intros k st Hlen.
  - exists st. cbn. repeat split; auto.
  - cbn [len seq combine for_all].
    destruct (index_in_range gt_log (k + 1) ltac:(cbn [len] in Hlen; lia))
      as (gts & Ei & En).
    rewrite Ei. cbn [bind]. cbv zeta.
    destruct (IH (S k) (mark_mismatches gts (end_of_turn_state turn) st)
                ltac:(cbn [len] in Hlen; lia))
      as (st' & Hrun & Hget & Hincl & Hkeys).
    exists st'. split; [exact Hrun|]. split; [|split].
    + intros api. rewrite Hget, dict_get_mark_mismatches.
      unfold recorded at 2. cbn [existsb]. rewrite En.
      fold (recorded gt_log (combine (seq (S k) (len l)) l) api).
      destruct (marks gts (end_of_turn_state turn) api); cbn.
      * now destruct (recorded _ _ api).
      * reflexivity.
    + intros a Ha. apply Hincl. now apply keys_of_mark_mismatches_incl.
    + intros Hknown.
      assert (Hk : keys_of (mark_mismatches gts (end_of_turn_state turn) st)
                   = keys_of st).
      { apply keys_of_mark_mismatches. intros a Ha.
        apply (Hknown gts); [|exact Ha].
        apply nth_error_In with (k + 1). exact En. }
      rewrite Hkeys; [exact Hk|].
      intros snapshot a Hs Ha. rewrite Hk. eauto.
Qed.

(** The dict [check_api_state_mismatch] builds, key by key. *)
Lemma check_api_state_mismatch_dict_spec df :
  0 < len (turn_responses df) ->
  exists state,
    check_api_state_mismatch_dict df = Ok state /\
    (forall api,
        dict_get state api
        = if len (ground_truth_log df) =? len (turn_responses df) + 1
          then
            if recorded (ground_truth_log df)
                        (enumerate (turn_responses df)) api
            then Some PyTrue
            else if existsb (String.eqb api) (first_turn_names df)
                 then Some PyFalse
                 else if existsb (String.eqb api) API_LIST
                      then Some NaN else None
          else
            if existsb (String.eqb api) (first_turn_names df)
            then Some PyTrue
            else if existsb (String.eqb api) API_LIST
                 then Some NaN else None) /\
    (forall api, In api API_LIST -> In api (keys_of state)) /\
    (names_known df -> keys_of state = API_LIST).
Proof.
  intros Hn. unfold check_api_state_mismatch_dict, first_turn_names, names_known.
  fold initial_state.
  destruct (turn_responses df) as [|first_turn rest] eqn:Et;
    [cbn in Hn; lia|].
  change (index (first_turn :: rest) 0) with (Ok first_turn).
  cbn [bind]. cbv zeta.
  set (api_list := map class_name (end_of_turn_state first_turn)).
  set (state0 := fold_left (fun st api => dict_set st api PyFalse)
                   api_list initial_state).
  assert (Hget0 : forall api,
             dict_get state0 api
             = if existsb (String.eqb api) api_list then Some PyFalse
               else if existsb (String.eqb api) API_LIST
                    then Some NaN else None).
  { intros api. unfold state0.
    now rewrite dict_get_fold_set, dict_get_initial_state. }
  assert (Hincl0 : forall api, In api API_LIST -> In api (keys_of state0)).
  { intros api Hin. unfold state0. apply keys_of_fold_set_incl.
    now rewrite keys_of_initial_state. }
  assert (Hkeys0 : (forall a, In a (end_of_turn_state first_turn) ->
                              In (class_name a) API_LIST) ->
                   keys_of state0 = API_LIST).
  { intros Hk. unfold state0. rewrite keys_of_fold_set.
    - apply keys_of_initial_state.
    - intros name Hname. rewrite keys_of_initial_state.
      unfold api_list in Hname. apply in_map_iff in Hname as (a & <- & Ha).
      now apply Hk. }
  destruct (len (ground_truth_log df) =? len (first_turn :: rest) + 1) eqn:Ewf;
    cbn [negb].
  - apply Nat.eqb_eq in Ewf.
    change (combine (seq 0 (len (first_turn :: rest))) (first_turn :: rest))
      with (enumerate (first_turn :: rest)).
    destruct (check_loop (ground_truth_log df) (first_turn :: rest) 0 state0
                ltac:(lia))
      as (st' & Hrun & Hget & Hincl & Hkeys).
    exists st'. split; [exact Hrun|]. split; [|split].
    + intros api. rewrite Hget, Hget0. reflexivity.
    + intros api Hin. apply Hincl, Hincl0, Hin.
    + intros [Hturns Hgt].
      assert (Hk0 : keys_of state0 = API_LIST).
      { apply Hkeys0. intros a Ha. apply (Hturns first_turn); [now left | exact Ha]. }
      rewrite Hkeys; [exact Hk0|].
      intros snapshot a Hs Ha. rewrite Hk0. eauto.
  - eexists. split; [reflexivity|]. split; [|split].
    + intros api. rewrite dict_get_fold_set, Hget0.
      now destruct (existsb (String.eqb api) api_list).
    + intros api Hin. apply keys_of_fold_set_incl, Hincl0, Hin.
    + intros [Hturns Hgt].
      assert (Hk0 : keys_of state0 = API_LIST).
      { apply Hkeys0. intros a Ha. apply (Hturns first_turn); [now left | exact Ha]. }
      rewrite keys_of_fold_set; [exact Hk0|].
      intros name Hname. rewrite Hk0.
      unfold api_list in Hname. apply in_map_iff in Hname as (a & <- & Ha).
      apply (Hturns first_turn); [now left | exact Ha].
Qed.

End CheckApiState.

Lemma bool_false_iff (b : bool) (P : Prop) :
  (b = true <-> P) -> (b = false <-> ~ P).
Proof.
  intros Hb. destruct b; split; try congruence.
  - intros HnP. exfalso. apply HnP, Hb. reflexivity.
  - intros _ HP. apply Hb in HP. discriminate.
Qed.

Section CheckApiStateTheorems.

Context {C : Type} `{EqDec C}.

Implicit Types df : Transcript C.

Ltac reflect_tests df api :=
  repeat match goal with
  | E : (len (ground_truth_log df) =? _) = true |- _ =>
      apply Nat.eqb_eq in E; fold (well_formed df) in E
  | E : (len (ground_truth_log df) =? _) = false |- _ =>
      apply Nat.eqb_neq in E; fold (well_formed df) in E
  | E : recorded _ _ api = true |- _ => apply recorded_iff in E
  | E : recorded _ _ api = false |- _ =>
      apply (bool_false_iff _ _ (recorded_iff df api)) in E
  | E : existsb (String.eqb api) _ = true |- _ => apply existsb_eqb_In in E
  | E : existsb (String.eqb api) ?l = false |- _ =>
      apply (bool_false_iff _ _ (existsb_eqb_In api l)) in E
  end.

(** X17: on a transcript with at least one turn,
    [check_api_state_mismatch] returns the values of a dict that has an
    entry for every tracked API, and no other key when every class name
    of the transcript is a tracked API.  An API is marked not-applicable
    exactly when it is tracked, its name is not in the first turn's
    [end_of_turn_state], and it is not so that the length invariant holds
    and a mismatch was recorded under its name.  When the length invariant
    holds, an API is marked mismatch exactly when some turn has a
    positional (ground-truth, predicted) pair that is unequal and whose
    ground-truth record carries that API's [class_name], and it is marked
    no-mismatch exactly when it is in the first turn's
    [end_of_turn_state] and no such pair exists. *)
Theorem check_api_state_mismatch_marks df :
  0 < len (turn_responses df) ->
  exists state,
    check_api_state_mismatch_dict df = Ok state /\
    check_api_state_mismatch df = Ok (values state) /\
    (forall api, In api API_LIST -> In api (keys_of state)) /\
    (names_known df -> keys_of state = API_LIST) /\
    (forall api,
        dict_get state api = Some NaN <->
        In api API_LIST /\ ~ In api (first_turn_names df) /\
        ~ (well_formed df /\ mismatch_recorded df api)) /\
    (well_formed df ->
     forall api,
       (dict_get state api = Some PyTrue <-> mismatch_recorded df api) /\
       (dict_get state api = Some PyFalse <->
        In api (first_turn_names df) /\ ~ mismatch_recorded df api)).
Proof.
  intros Hn.
  destruct (check_api_state_mismatch_dict_spec df Hn)
    as (state & Hrun & Hget & Hincl & Hkeys).
  exists state. split; [exact Hrun|].
  split; [unfold check_api_state_mismatch; now rewrite Hrun|].
  split; [exact Hincl|]. split; [exact Hkeys|]. split.
  - intros api. rewrite Hget.
    destruct (len (ground_truth_log df) =? len (turn_responses df) + 1) eqn:Ewf;
      [destruct (recorded (ground_truth_log df)
                          (enumerate (turn_responses df)) api) eqn:Er|];
      destruct (existsb (String.eqb api) (first_turn_names df)) eqn:Ef;
      destruct (existsb (String.eqb api) API_LIST) eqn:Ea;
      reflect_tests df api;
      (split; [intros E; try discriminate E; tauto
              | intros (Ha' & Hf' & Hr'); try reflexivity; tauto]).
  - intros Hwf api. rewrite Hget.
    apply Nat.eqb_eq in Hwf. rewrite Hwf.
    destruct (recorded (ground_truth_log df)
                       (enumerate (turn_responses df)) api) eqn:Er;
      destruct (existsb (String.eqb api) (first_turn_names df)) eqn:Ef;
      destruct (existsb (String.eqb api) API_LIST) eqn:Ea;
      reflect_tests df api;
      (split; split; intros E; try discriminate E; try reflexivity; tauto).
Qed.

(** X18: on a transcript with at least one turn in which
    [len(ground_truth_log)] differs from [len(turn_responses) + 1],
    [check_api_state_mismatch] does not raise; it marks as mismatch
    exactly the APIs named in the first turn's [end_of_turn_state], every
    other tracked API stays not-applicable, and no API is marked
    no-mismatch. *)
Theorem check_api_state_mismatch_length_violation df :
  0 < len (turn_responses df) ->
  ~ well_formed df ->
  exists state,
    check_api_state_mismatch_dict df = Ok state /\
    check_api_state_mismatch df = Ok (values state) /\
    forall api,
      (dict_get state api = Some PyTrue <-> In api (first_turn_names df)) /\
      (dict_get state api = Some NaN <->
       In api API_LIST /\ ~ In api (first_turn_names df)) /\
      dict_get state api <> Some PyFalse.
Proof.
  intros Hn Hwf.
  destruct (check_api_state_mismatch_dict_spec df Hn)
    as (state & Hrun & Hget & _).
  exists state. split; [exact Hrun|].
  split; [unfold check_api_state_mismatch; now rewrite Hrun|].
  intros api. rewrite Hget.
  apply Nat.eqb_neq in Hwf. rewrite Hwf.
  destruct (existsb (String.eqb api) (first_turn_names df)) eqn:Ef;
    destruct (existsb (String.eqb api) API_LIST) eqn:Ea;
    reflect_tests df api;
    (split; [|split]);
    try (split; intros E; try discriminate E; try reflexivity; tauto);
    discriminate.
Qed.

End CheckApiStateTheorems.

(** ** Snapshots of different lengths *)

Lemma nth_error_firstn_lt {X : Type} (l : list X) (m k : nat) :
  k < m -> nth_error (firstn m l) k = nth_error l k.
Proof.
  revert m k. induction l as [|x l IH]; intros [|m] [|k] Hk; cbn;
    try reflexivity; try lia.
  apply IH. lia.
Qed.

Lemma zip_diag {X : Type} (l : list X) : zip l l = map (fun x => (x, x)) l.
Proof.
  unfold zip. induction l as [|x l IH]; cbn; [reflexivity | now rewrite IH].
Qed.

Section ShorterSnapshot.

Context {C : Type} `{EqDec C}.

Implicit Types df : Transcript C.

Lemma zip_agree (preds truths : list (ApiState C)) :
  agree_on_shared preds truths ->
  zip preds truths
  = map (fun x => (x, x)) (firstn (Nat.min (len preds) (len truths)) preds)
  /\ zip truths preds
     = map (fun x => (x, x)) (firstn (Nat.min (len preds) (len truths)) preds).
Proof.
  unfold agree_on_shared. intros Hagree. split.
  - rewrite zip_firstn, <- Hagree. apply zip_diag.
  - rewrite zip_firstn, (Nat.min_comm (len truths)), <- Hagree.
    apply zip_diag.
Qed.

Lemma eqb_refl (x : ApiState C) : eqb x x = true.
Proof. now apply eqb_true_iff. Qed.

Lemma all_equal_diag (l : list (ApiState C)) :
  all_equal (map (fun x => (x, x)) l) = true.
Proof.
  unfold all_equal. induction l as [|x l IH]; cbn; [reflexivity|].
  now rewrite eqb_refl.
Qed.

Lemma scan_pairs_diag (turn_idx n : nat) (l : list (ApiState C)) :
  scan_pairs turn_idx n (map (fun x => (x, x)) l) = Ok (Next tt).
Proof.
  unfold scan_pairs. induction l as [|x l IH]; cbn; [reflexivity|].
  unfold neqb. now rewrite eqb_refl.
Qed.

Lemma mark_mismatches_diag (l : list (ApiState C)) (st : dict) :
  fold_left
    (fun st '(gt_state, turn_state) =>
       if neqb gt_state turn_state
       then dict_set st (class_name gt_state) PyTrue
       else st)
    (map (fun x => (x, x)) l) st
  = st.
Proof.
  revert st. induction l as [|x l IH]; intros st; cbn; [reflexivity|].
  assert (Ex : neqb x x = false) by now apply neqb_false_iff.
  rewrite Ex. apply IH.
Qed.

Lemma agree_turn_matches df (i : nat) (turn : Turn C)
    (truth_states : list (ApiState C)) :
  nth_error (turn_responses df) i = Some turn ->
  nth_error (ground_truth_log df) (i + 1) = Some truth_states ->
  agree_on_shared (end_of_turn_state turn) truth_states ->
  verdict df i = Ok true.
Proof.
  intros Et Eg Hagree. unfold verdict.
  apply index_Ok in Et, Eg. rewrite Et, Eg. cbn [bind]. f_equal.
  destruct (zip_agree _ _ Hagree) as [-> _]. apply all_equal_diag.
Qed.

(** C10: each per-turn comparison of [average_turn_success_rate],
    [soft_average_turn_success_rate], [task_process_rate] and
    [check_api_state_mismatch] pairs the two snapshots position by
    position and reads only as many positions as the shorter one has.
    When the snapshots agree on the positions they share, whatever their
    lengths, the comparison finds no mismatch: the turn is a success and
    nothing is marked.  On a well-formed transcript with at least one
    turn where this holds of every turn, both success rates are 1,
    [task_process_rate] is infinity and no API is marked mismatch. *)
Theorem comparison_stops_at_shorter_snapshot :
  (forall (preds truths : list (ApiState C)),
      let m := Nat.min (len preds) (len truths) in
      len (zip preds truths) = m /\
      all_equal (zip preds truths)
      = all_equal (zip (firstn m preds) (firstn m truths)) /\
      (forall turn_idx n,
          scan_pairs turn_idx n (zip preds truths)
          = scan_pairs turn_idx n (zip (firstn m preds) (firstn m truths))) /\
      (forall st,
          mark_mismatches truths preds st
          = mark_mismatches (firstn m truths) (firstn m preds) st)) /\
  (forall (preds truths : list (ApiState C)),
      agree_on_shared preds truths ->
      all_equal (zip preds truths) = true /\
      (forall turn_idx n,
          scan_pairs turn_idx n (zip preds truths) = Ok (Next tt)) /\
      (forall st, mark_mismatches truths preds st = st)) /\
  (forall df,
      0 < len (turn_responses df) ->
      well_formed df ->
      (forall i turn truth_states,
          nth_error (turn_responses df) i = Some turn ->
          nth_error (ground_truth_log df) (i + 1) = Some truth_states ->
          agree_on_shared (end_of_turn_state turn) truth_states) ->
      average_turn_success_rate df = Ok 1%Q /\
      soft_average_turn_success_rate df = Ok 1%R /\
      task_process_rate df = Ok PosInf /\
      exists state,
        check_api_state_mismatch_dict df = Ok state /\
        forall api, dict_get state api <> Some PyTrue).
Proof.
  split; [|split].
  - intros preds truths m. split; [apply len_zip|].
    split; [|split].
    + unfold m. now rewrite <- zip_firstn.
    + intros turn_idx n. unfold m. now rewrite <- zip_firstn.
    + intros st. unfold mark_mismatches, m.
      rewrite (Nat.min_comm (len preds)). now rewrite <- zip_firstn.
  - intros preds truths Hagree.
    destruct (zip_agree _ _ Hagree) as [Ez Ez'].
    split; [|split].
    + rewrite Ez. apply all_equal_diag.
    + intros turn_idx n. rewrite Ez. apply scan_pairs_diag.
    + intros st. unfold mark_mismatches. rewrite Ez'.
      apply mark_mismatches_diag.
  - intros df Hn Hwf Hagree.
    assert (Hv : forall j, j < len (turn_responses df) -> verdict df j = Ok true).
    { intros j Hj. unfold well_formed in Hwf.
      destruct (index_in_range (turn_responses df) j Hj) as (turn & _ & Et).
      destruct (index_in_range (ground_truth_log df) (j + 1) ltac:(lia))
        as (ts & _ & Eg).
      apply (agree_turn_matches df j turn ts); eauto. }
    split; [now apply average_rate_all_match|].
    split; [now apply soft_rate_all_match|].
    split; [now apply task_process_rate_all_match|].
    destruct (check_api_state_mismatch_dict_spec df Hn)
      as (state & Hrun & Hget & _).
    exists state. split; [exact Hrun|].
    intros api. rewrite Hget.
    apply Nat.eqb_eq in Hwf. rewrite Hwf.
    destruct (recorded (ground_truth_log df)
                       (enumerate (turn_responses df)) api) eqn:Er.
    + exfalso. apply recorded_iff in Er.
      destruct Er as (i & k & pred & truth & Hpair & Hne & _).
      assert (Hm : turn_matches df i).
      { apply verdict_true, Hv.
        destruct Hpair as (turn & _ & Et & _).
        apply nth_error_Some. congruence. }
      destruct Hm as (_ & _ & Hall). apply Hne. symmetry. eauto.
    + destruct (existsb (String.eqb api) (first_turn_names df));
        [discriminate|].
      destruct (existsb (String.eqb api) API_LIST); discriminate.
Qed.

End ShorterSnapshot.


(** ** The example transcripts *)

Example json_decode_error_text :
  json_decode error_text = inr (JObject [("error", JString "timeout")]).
Proof. reflexivity. Qed.

Example json_decode_not_json : json_decode "not json" = inl JSONDecodeError.
Proof. reflexivity. Qed.

Example tool_transcript_counts :
  num_tool_errors json_decode tool_transcript = Ok 1 /\
  num_turn_with_errors json_decode tool_transcript = Ok 1.
Proof. split; reflexivity. Qed.

Lemma scenario_names_known : names_known scenario_transcript.
Proof.
  split.
  - intros turn a Ht Ha. cbn in Ht.
    destruct Ht as [<-|[<-|[<-|[]]]]; cbn in Ha;
      destruct Ha as [<-|[]]; cbn; auto.
  - intros snapshot a Hs Ha. cbn in Hs.
    destruct Hs as [<-|[<-|[<-|[<-|[]]]]]; cbn in Ha;
      destruct Ha as [<-|[]]; cbn; auto.
Qed.

(** X17 on the three-turn scenario: the dict has the tracked APIs as its
    keys, and [MathAPI] is marked as the recorded mismatch says. *)
Lemma check_api_state_mismatch_marks_witness :
  0 < len (turn_responses scenario_transcript) /\
  exists state,
    check_api_state_mismatch_dict scenario_transcript = Ok state /\
    keys_of state = API_LIST /\
    (dict_get state "MathAPI" = Some PyTrue <->
     mismatch_recorded scenario_transcript "MathAPI").
Proof.
  assert (Hn : 0 < len (turn_responses scenario_transcript)) by (cbn; lia).
  split; [exact Hn|].
  destruct (check_api_state_mismatch_marks scenario_transcript Hn)
    as (state & Hrun & _ & _ & Hkeys & _ & Hwf).
  exists state. split; [exact Hrun|]. split.
  - apply Hkeys. exact scenario_names_known.
  - apply Hwf. reflexivity.
Defined.

(** C1, where the code departs from it: [MathAPI] is in the
    [end_of_turn_state] of the second turn, so it is present, and
    [check_api_state_mismatch] marks it not-applicable, because line 118
    reads the names of the first turn only. *)
Lemma not_applicable_though_present_later :
  exists state,
    check_api_state_mismatch_dict late_api_transcript = Ok state /\
    check_api_state_mismatch late_api_transcript = Ok (values state) /\
    dict_get state "MathAPI" = Some NaN /\
    (exists turn,
        In turn (turn_responses late_api_transcript) /\
        In "MathAPI" (map class_name (end_of_turn_state turn))) /\
    ~ (dict_get state "MathAPI" = Some NaN <->
       forall turn,
         In turn (turn_responses late_api_transcript) ->
         ~ In "MathAPI" (map class_name (end_of_turn_state turn))).
Proof.
  eexists. split; [reflexivity|]. split; [reflexivity|].
  split; [reflexivity|].
  assert (Hin : In (turn_with_state [api "MathAPI" "a"])
                   (turn_responses late_api_transcript))
    by (cbn; auto).
  split.
  - exists (turn_with_state [api "MathAPI" "a"]). split; [exact Hin|].
    cbn. auto.
  - intros [Hnever _]. apply (Hnever eq_refl _ Hin). cbn. auto.
Qed.

(** X18 on a one-turn transcript with an empty ground-truth log: the API
    of the first turn is marked mismatch, another tracked API stays
    not-applicable. *)
Lemma check_api_state_mismatch_length_violation_witness :
  0 < len (turn_responses no_ground_truth_transcript) /\
  ~ well_formed no_ground_truth_transcript /\
  exists state,
    check_api_state_mismatch no_ground_truth_transcript = Ok (values state) /\
    dict_get state "MathAPI" = Some PyTrue /\
    dict_get state "TicketAPI" = Some NaN.
Proof.
  assert (Hn : 0 < len (turn_responses no_ground_truth_transcript))
    by (cbn; lia).
  assert (Hwf : ~ well_formed no_ground_truth_transcript)
    by (unfold well_formed; cbn; lia).
  split; [exact Hn|]. split; [exact Hwf|].
  destruct (check_api_state_mismatch_length_violation
              no_ground_truth_transcript Hn Hwf)
    as (state & _ & Hrun & Hmarks).
  exists state. split; [exact Hrun|]. split.
  - apply (proj1 (Hmarks "MathAPI")). cbn. auto.
  - apply (proj1 (proj2 (Hmarks "TicketAPI"))). split.
    + cbn. auto 10.
    + cbn. intuition discriminate.
Defined.

(** C2, where the code departs from it: on a transcript that violates the
    length invariant, an API that appears only after the first turn stays
    not-applicable instead of being marked mismatch, because line 118
    reads the names of the first turn only; and a transcript without
    turns, which violates the invariant too, makes
    [check_api_state_mismatch] raise at that line. *)
Lemma length_violation_raises_or_misses :
  (~ well_formed empty_transcript /\
   check_api_state_mismatch empty_transcript = Raise IndexError) /\
  (~ well_formed late_api_short_log_transcript /\
   exists state,
     check_api_state_mismatch_dict late_api_short_log_transcript = Ok state /\
     dict_get state "MathAPI" = Some NaN /\
     exists turn,
       In turn (turn_responses late_api_short_log_transcript) /\
       In "MathAPI" (map class_name (end_of_turn_state turn))).
Proof.
  split; split.
  - unfold well_formed. cbn. lia.
  - reflexivity.
  - unfold well_formed. cbn. lia.
  - eexists. split; [reflexivity|]. split; [reflexivity|].
    exists (turn_with_state [api "MathAPI" "a"]). cbn. auto.
Qed.

(** C3 on the three-turn scenario, whose log has four entries. *)
Lemma task_process_rate_outcomes_witness :
  len (turn_responses scenario_transcript)
  < len (ground_truth_log scenario_transcript) /\
  exists v, task_process_rate scenario_transcript = Ok v.
Proof.
  assert (Hlen : len (turn_responses scenario_transcript)
                 < len (ground_truth_log scenario_transcript))
    by (cbn; lia).
  split; [exact Hlen|].
  exact (proj1 (proj2 (task_process_rate_outcomes scenario_transcript)) Hlen).
Defined.

(** C3 as stated fails: with one turn and an empty ground-truth log
    [task_process_rate] returns neither a quotient nor infinity. *)
Lemma task_process_rate_raises_without_ground_truth :
  task_process_rate no_ground_truth_transcript = Raise IndexError.
Proof. reflexivity. Qed.

(** C4 on a transcript without turns, on one whose log is too short, and
    on the three-turn scenario. *)
Lemma average_turn_success_rate_proportion_witness :
  average_turn_success_rate empty_transcript = Raise ZeroDivisionError /\
  average_turn_success_rate no_ground_truth_transcript = Raise IndexError /\
  exists good q,
    (forall i, In i good <-> turn_matches scenario_transcript i) /\
    average_turn_success_rate scenario_transcript = Ok q /\
    (0 <= q)%Q /\ (q <= 1)%Q.
Proof.
  split; [|split].
  - apply (proj1 (average_turn_success_rate_proportion empty_transcript)).
    reflexivity.
  - apply (proj1 (proj2 (average_turn_success_rate_proportion
                           no_ground_truth_transcript))); cbn; lia.
  - destruct (proj2 (proj2 (average_turn_success_rate_proportion
                              scenario_transcript)))
      as (good & q & _ & Hgood & Hrun & _ & Hlo & Hhi);
      [cbn; lia | cbn; lia |].
    exists good, q. auto.
Defined.

(** C4 as stated fails: with one turn and an empty ground-truth log
    [average_turn_success_rate] raises [IndexError], which is neither a
    proportion nor the division by zero of a transcript without turns. *)
Lemma average_turn_success_rate_raises_without_ground_truth :
  len (turn_responses no_ground_truth_transcript) = 1 /\
  average_turn_success_rate no_ground_truth_transcript = Raise IndexError.
Proof. split; reflexivity. Qed.

(** C5 on the three-turn scenario. *)
Lemma three_turn_scenario_witness :
  task_process_rate scenario_transcript = Ok (Finite 0%Q) /\
  average_turn_success_rate scenario_transcript = Ok (2 # 3)%Q /\
  soft_average_turn_success_rate scenario_transcript
  = Ok ((0 + (1 - exp (-1)) + (1 - exp (-2))) / 3)%R.
Proof.
  destruct (three_turn_scenario scenario_transcript)
    as (Hrate & Havg & _ & Hsoft & _).
  - reflexivity.
  - apply verdict_false. reflexivity.
  - apply verdict_true. reflexivity.
  - apply verdict_true. reflexivity.
  - auto.
Defined.

(** C6 on a transcript of two matching turns. *)
Lemma all_turns_match_rates_one_witness :
  average_turn_success_rate matching_transcript = Ok 1%Q /\
  soft_average_turn_success_rate matching_transcript = Ok 1%R.
Proof.
  destruct (all_turns_match_rates_one matching_transcript)
    as (q & r & Havg & Hsoft & _ & -> & ->).
  - cbn. lia.
  - intros i Hi. apply verdict_true. cbn in Hi.
    destruct i as [|[|i]]; [reflexivity | reflexivity | lia].
  - auto.
Defined.

(** C7 on a transcript whose only closing message is [None]. *)
Lemma apologetic_null_message_not_flagged_witness :
  apologetic null_message_transcript = Ok false.
Proof.
  apply apologetic_null_message_not_flagged.
  intros turn Hin. cbn in Hin. destruct Hin as [<-|[]].
  exists [], (closing PyNone). split; reflexivity.
Defined.

(** C8 on the two tool responses of the scenario, decoded by
    [json_decode]. *)
Lemma tool_errors_counted_witness :
  has_error_in_tool_response json_decode (mkToolResponse error_text) = true /\
  has_error_in_tool_response json_decode (mkToolResponse "not json") = false /\
  num_tool_errors json_decode tool_transcript = Ok 1 /\
  num_turn_with_errors json_decode tool_transcript = Ok 1.
Proof.
  destruct (tool_errors_counted json_decode tool_transcript)
    as (Hiff & Hfail & Herrors & Hturns & _).
  split; [|split; [|split]].
  - apply Hiff. exists [("error", JString "timeout")].
    split; [reflexivity | cbn; auto].
  - apply (Hfail _ JSONDecodeError). reflexivity.
  - rewrite Herrors. reflexivity.
  - rewrite Hturns. reflexivity.
Defined.

(** C9 on a transcript of two turns with three steps before a call. *)
Lemma no_func_call_rate_counts_steps_witness :
  0 < len (turn_responses no_call_transcript) /\
  no_func_call_count no_call_transcript = Ok 3 /\
  exists q,
    no_func_call_rate no_call_transcript = Ok q /\
    (q == inject_Z 3 / inject_Z 2)%Q.
Proof.
  assert (Hn : 0 < len (turn_responses no_call_transcript)) by (cbn; lia).
  split; [exact Hn|].
  destruct (no_func_call_rate_counts_steps no_call_transcript Hn)
    as (_ & Hcount & q & Hrate & Hq).
  split; [exact Hcount|].
  exists q. split; [exact Hrate | exact Hq].
Defined.

(** C10 on a turn whose predicted snapshot is shorter than the ground
    truth. *)
Lemma comparison_stops_at_shorter_snapshot_witness :
  len (end_of_turn_state (turn_with_state [api "MathAPI" "a"]))
  < len [api "MathAPI" "a"; api "TicketAPI" "t"] /\
  average_turn_success_rate shorter_snapshot_transcript = Ok 1%Q /\
  soft_average_turn_success_rate shorter_snapshot_transcript = Ok 1%R /\
  task_process_rate shorter_snapshot_transcript = Ok PosInf /\
  exists state,
    check_api_state_mismatch_dict shorter_snapshot_transcript = Ok state /\
    forall api, dict_get state api <> Some PyTrue.
Proof.
  split; [cbn; lia|].
  apply (proj2 (proj2 (@comparison_stops_at_shorter_snapshot string _))).
  - cbn. lia.
  - reflexivity.
  - intros i turn truth_states Et Eg.
    destruct i as [|i].
    + cbn in Et, Eg. injection Et as <-. injection Eg as <-. reflexivity.
    + cbn in Et. destruct i; discriminate Et.
Defined.


(** * Further properties of the metric functions *)

(** ** Substrings and letter case *)





(** ** [apologetic] and [apologetic_rate], turn by turn *)

Section ApologeticTurns.

Context {C : Type}.

Implicit Types (df : Transcript C) (turn : Turn C).

Lemma closing_verdict_last turn (steps : list Step) (last_step : Step) :
  step_responses turn = steps ++ [last_step] ->
  closing_verdict turn =
  match assistant_content last_step with
  | Some message => Ok (apologetic_test (str message))
  | None => Raise KeyError
  end.
Proof.
  intros E. unfold closing_verdict. rewrite E, last_item_snoc. cbn [bind].
  now destruct (assistant_content last_step).
Qed.

Lemma closing_verdict_no_step turn :
  step_responses turn = [] -> closing_verdict turn = Raise IndexError.
Proof.
  intros E. unfold closing_verdict. now rewrite E.
Qed.

Lemma apologetic_by_verdict df :
  apologetic df =
  r <- for_each (turn_responses df)
         (fun turn (_ : unit) =>
            b <- closing_verdict turn;;
            if b then Ok (Leave true) else Ok (Next tt))
         tt;;
  match r with
  | Leave b => Ok b
  | Next _ => Ok false
  end.
Proof.
  unfold apologetic. f_equal. apply for_each_ext. intros turn s _.
  unfold closing_verdict.
  destruct (last_item (step_responses turn)) as [last_step|]; cbn [bind];
    [|reflexivity].
  destruct (getitem (assistant_content last_step)); reflexivity.
Qed.

Lemma apologetic_loop (turns : list (Turn C)) :
  let r := for_each turns
             (fun turn (_ : unit) =>
                b <- closing_verdict turn;;
                if b then Ok (Leave true) else Ok (Next tt))
             tt in
  (exists before turn after,
      turns = before ++ turn :: after /\
      Forall (fun t => closing_verdict t = Ok false) before /\
      closing_verdict turn = Ok true /\
      r = Ok (Leave true))
  \/ (Forall (fun t => closing_verdict t = Ok false) turns /\ r = Ok (Next tt))
  \/ (exists before turn after e,
        turns = before ++ turn :: after /\
        Forall (fun t => closing_verdict t = Ok false) before /\
        closing_verdict turn = Raise e /\
        r = Raise e).
Proof.
  induction turns as [|turn turns IH]; cbn zeta.
  - right. left. split; [constructor | reflexivity].
  - cbn [for_each]. destruct (closing_verdict turn) as [[|]|e] eqn:Ev; cbn [bind].
    + left. exists [], turn, turns. repeat split; auto.
    + cbn zeta in IH.
      destruct IH as [(before & t & after & -> & Hb & Ht & Hr)
                     | [(Hall & Hr) | (before & t & after & e & -> & Hb & Ht & Hr)]].
      * left. exists (turn :: before), t, after. repeat split; auto.
      * right. left. split; [constructor; assumption | exact Hr].
      * right. right. exists (turn :: before), t, after, e.
        repeat split; auto.
    + right. right. exists [], turn, turns, e. repeat split; auto.
Qed.

(** X2: [apologetic] reads the turns in order and only the last step of
    each.  It returns [True] at the first turn whose closing message
    passes the test, without reading the turns after it; it returns
    [False] when no closing message passes; and it raises what the first
    unreadable turn raises ([IndexError] for a turn without steps,
    [KeyError] for a last step without a message) when no turn before it
    passes. *)
Theorem apologetic_outcomes df :
  ((exists before turn after,
       turn_responses df = before ++ turn :: after /\
       Forall (fun t => closing_verdict t = Ok false) before /\
       closing_verdict turn = Ok true /\
       apologetic df = Ok true)
   \/ (Forall (fun t => closing_verdict t = Ok false) (turn_responses df) /\
       apologetic df = Ok false)
   \/ (exists before turn after e,
         turn_responses df = before ++ turn :: after /\
         Forall (fun t => closing_verdict t = Ok false) before /\
         closing_verdict turn = Raise e /\
         apologetic df = Raise e))
  /\ (forall turn, step_responses turn = [] ->
                   closing_verdict turn = Raise IndexError)
  /\ (forall turn steps last_step,
         step_responses turn = steps ++ [last_step] ->
         closing_verdict turn =
         match assistant_content last_step with
         | Some message => Ok (apologetic_test (str message))
         | None => Raise KeyError
         end).
Proof.
  split; [|split; [exact closing_verdict_no_step | exact closing_verdict_last]].
  rewrite apologetic_by_verdict.
  destruct (apologetic_loop (turn_responses df))
    as [(before & t & after & E & Hb & Ht & Hr)
       | [(Hall & Hr) | (before & t & after & e & E & Hb & Ht & Hr)]];
    cbn zeta in Hr; rewrite Hr; cbn [bind].
  - left. exists before, t, after. auto.
  - right. left. auto.
  - right. right. exists before, t, after, e. auto.
Qed.

Lemma apologetic_turn_count_by_verdict df :
  apologetic_turn_count df =
  for_all (turn_responses df)
    (fun turn count =>
       b <- closing_verdict turn;;
       if b then Ok (count + 1) else Ok count)
    0.
Proof.
  unfold apologetic_turn_count. apply for_all_ext. intros turn s _.
  unfold closing_verdict.
  destruct (last_item (step_responses turn)) as [last_step|]; cbn [bind];
    [|reflexivity].
  destruct (getitem (assistant_content last_step)); reflexivity.
Qed.

Lemma apologetic_count_loop (turns : list (Turn C)) (count : nat) :
  let r := for_all turns
             (fun turn count =>
                b <- closing_verdict turn;;
                if b then Ok (count + 1) else Ok count)
             count in
  (Forall readable turns /\ r = Ok (count + len (filter flagged turns)))
  \/ (exists before turn after e,
        turns = before ++ turn :: after /\
        Forall readable before /\
        closing_verdict turn = Raise e /\
        r = Raise e).
Proof.
  revert count. induction turns as [|turn turns IH]; intros count; cbn zeta.
  - left. split; [constructor | cbn; f_equal; lia].
  - cbn [for_all filter]. unfold flagged at 1.
    destruct (closing_verdict turn) as [b|e] eqn:Ev; cbn [bind].
    + assert (Hr : readable turn) by (exists b; exact Ev).
      destruct b;
        [specialize (IH (count + 1)) | specialize (IH count)];
        cbn zeta in IH;
        (destruct IH as [(Hall & Hrun)
                        | (before & t & after & e & -> & Hb & Ht & Hrun)];
         [ left; split; [constructor; assumption|];
           rewrite Hrun; f_equal; cbn [len]; lia
         | right; exists (turn :: before), t, after, e;
           repeat split; auto ]).
    + right. exists [], turn, turns, e. repeat split; auto.
Qed.

Lemma quotient_pos (a n : nat) :
  0 < n -> ((0 < Qred (Z.of_nat a # Pos.of_nat n))%Q <-> 0 < a).
Proof.
  intros Hn. rewrite Qred_correct. unfold Qlt. cbn. lia.
Qed.

Lemma quotient_zero (n : nat) : (Qred (Z.of_nat 0 # Pos.of_nat n) == 0)%Q.
Proof.
  rewrite Qred_correct. reflexivity.
Qed.

(** X3: [apologetic_rate] raises [ZeroDivisionError] on a transcript
    without turns.  When every closing message can be read it returns the
    number of turns whose closing message passes the test divided by the
    number of turns, a value in [0, 1].  Otherwise it raises what the first
    unreadable turn raises, also when an earlier turn passes the test. *)
Theorem apologetic_rate_outcomes df :
  (turn_responses df = [] -> apologetic_rate df = Raise ZeroDivisionError) /\
  (0 < len (turn_responses df) ->
   Forall readable (turn_responses df) ->
   exists q,
     apologetic_rate df = Ok q /\
     (q == inject_Z (Z.of_nat (len (filter flagged (turn_responses df))))
           / inject_Z (Z.of_nat (len (turn_responses df))))%Q /\
     (0 <= q)%Q /\ (q <= 1)%Q) /\
  (forall before turn after e,
      turn_responses df = before ++ turn :: after ->
      Forall readable before ->
      closing_verdict turn = Raise e ->
      apologetic_rate df = Raise e).
Proof.
  unfold apologetic_rate. rewrite apologetic_turn_count_by_verdict.
  split; [|split].
  - intros ->. reflexivity.
  - intros Hn Hall.
    destruct (apologetic_count_loop (turn_responses df) 0)
      as [(_ & Hrun) | (before & t & after & e & E & _ & Ht & _)].
    + cbn zeta in Hrun. rewrite Hrun. cbn [bind Nat.add].
      rewrite truediv_Ok by exact Hn. eexists. split; [reflexivity|].
      split; [apply quotient_value; exact Hn|].
      split; [apply quotient_nonneg; exact Hn|].
      apply quotient_le_1; [exact Hn | apply filter_length_le].
    + exfalso. rewrite E in Hall. apply Forall_app in Hall as [_ Hall].
      inversion Hall as [|? ? [b Hb] _]; subst. congruence.
  - intros before turn after e E Hb Ht.
    destruct (apologetic_count_loop (turn_responses df) 0)
      as [(Hall & _) | (before' & t & after' & e' & E' & Hb' & Ht' & Hrun)].
    + exfalso. rewrite E in Hall. apply Forall_app in Hall as [_ Hall].
      inversion Hall as [|? ? [b Hb0] _]; subst. congruence.
    + cbn zeta in Hrun. rewrite Hrun. cbn [bind].
      (* the first unreadable turn is the same one in both splits *)
      assert (Hsame : before' = before /\ t = turn).
      { clear Hrun. rewrite E in E'. clear E.
        revert before' E' Hb'. induction before as [|x before IH];
          intros [|y before'] E' Hb'; cbn in E'.
        - injection E' as -> _. auto.
        - injection E' as -> _.
          inversion Hb' as [|? ? [b Hy] _]; subst. congruence.
        - injection E' as -> _.
          inversion Hb as [|? ? [b Hx] _]; subst. congruence.
        - injection E' as -> E'.
          inversion Hb as [|? ? _ Hb0]; subst.
          inversion Hb' as [|? ? _ Hb0']; subst.
          destruct (IH Hb0 before' E' Hb0') as [-> ->]. auto. }
      destruct Hsame as [_ ->]. congruence.
Qed.

(** X4: when [apologetic_rate] returns a value, [apologetic] returns
    whether that value is positive; and when [apologetic] returns [False]
    on a transcript with at least one turn, [apologetic_rate] returns 0. *)
Theorem apologetic_agrees_with_rate df :
  (forall q,
      apologetic_rate df = Ok q ->
      (apologetic df = Ok true /\ (0 < q)%Q) \/
      (apologetic df = Ok false /\ (q == 0)%Q)) /\
  (0 < len (turn_responses df) ->
   apologetic df = Ok false ->
   exists q, apologetic_rate df = Ok q /\ (q == 0)%Q).
Proof.
  split.
  - intros q Hq. unfold apologetic_rate in Hq.
    rewrite apologetic_turn_count_by_verdict in Hq.
    destruct (apologetic_count_loop (turn_responses df) 0)
      as [(Hall & Hrun) | (before & t & after & e & _ & _ & _ & Hrun)];
      cbn zeta in Hrun; rewrite Hrun in Hq; cbn [bind Nat.add] in Hq;
      [|discriminate].
    assert (Hn : 0 < len (turn_responses df)).
    { destruct (len (turn_responses df)); [discriminate | lia]. }
    rewrite truediv_Ok in Hq by exact Hn. injection Hq as <-.
    rewrite apologetic_by_verdict.
    destruct (apologetic_loop (turn_responses df))
      as [(before & t & after & E & Hb & Ht & Hr)
         | [(Hnone & Hr) | (before & t & after & e & E & Hb & Ht & Hr)]];
      cbn zeta in Hr; rewrite Hr; cbn [bind].
    + left. split; [reflexivity|].
      apply (proj2 (quotient_pos _ _ Hn)).
      rewrite E, filter_app, length_app. cbn [filter].
      unfold flagged at 2. rewrite Ht. cbn [len]. lia.
    + right. split; [reflexivity|].
      replace (len (filter flagged (turn_responses df))) with 0.
      * apply quotient_zero.
      * symmetry. clear -Hnone.
        induction (turn_responses df) as [|t ts IH]; [reflexivity|].
        inversion Hnone as [|? ? Ht Hts]; subst. cbn.
        unfold flagged at 1. rewrite Ht. now apply IH.
    + exfalso. rewrite E in Hall. apply Forall_app in Hall as [_ Hall].
      inversion Hall as [|? ? [b Hb0] _]; subst. congruence.
  - intros Hn Hfalse. rewrite apologetic_by_verdict in Hfalse.
    destruct (apologetic_loop (turn_responses df))
      as [(before & t & after & E & Hb & Ht & Hr)
         | [(Hnone & Hr) | (before & t & after & e & E & Hb & Ht & Hr)]];
      cbn zeta in Hr; rewrite Hr in Hfalse; cbn [bind] in Hfalse;
      try discriminate.
    unfold apologetic_rate. rewrite apologetic_turn_count_by_verdict.
    destruct (apologetic_count_loop (turn_responses df) 0)
      as [(Hall & Hrun) | (before & t & after & e & E & _ & Ht & _)].
    + cbn zeta in Hrun. rewrite Hrun. cbn [bind Nat.add].
      rewrite truediv_Ok by exact Hn. eexists. split; [reflexivity|].
      replace (len (filter flagged (turn_responses df))) with 0.
      * apply quotient_zero.
      * symmetry. clear -Hnone.
        induction (turn_responses df) as [|t ts IH]; [reflexivity|].
        inversion Hnone as [|? ? Ht Hts]; subst. cbn.
        unfold flagged at 1. rewrite Ht. now apply IH.
    + exfalso. rewrite E in Hnone. apply Forall_app in Hnone as [_ Hnone].
      inversion Hnone; subst. congruence.
Qed.

End ApologeticTurns.

(** ** Tool errors, by entry and by turn *)

Lemma existsb_filter_pos {X : Type} (p : X -> bool) (l : list X) :
  existsb p l = true <-> 0 < len (filter p l).
Proof.
  induction l as [|x l IH]; cbn.
  - split; [discriminate | lia].
  - destruct (p x); cbn; [split; [lia | reflexivity] | exact IH].
Qed.

Lemma filter_existsb_flat_map {X Y : Type} (p : Y -> bool) (f : X -> list Y)
    (l : list X) :
  len (filter (fun x => existsb p (f x)) l) <= len (filter p (flat_map f l)) /\
  (len (filter (fun x => existsb p (f x)) l) = 0 <->
   len (filter p (flat_map f l)) = 0).
Proof.
  induction l as [|x l [IHle IHz]]; cbn [flat_map filter].
  - cbn. split; [lia | tauto].
  - rewrite filter_app, length_app.
    destruct (existsb p (f x)) eqn:Ex.
    + apply existsb_filter_pos in Ex. cbn [len]. split; lia.
    + assert (Hz : len (filter p (f x)) = 0).
      { destruct (len (filter p (f x))) eqn:El; [reflexivity|].
        assert (Hp : existsb p (f x) = true)
          by (apply existsb_filter_pos; lia).
        congruence. }
      rewrite Hz. cbn [Nat.add]. split; [exact IHle | exact IHz].
Qed.

Section ToolErrorRelations.

Context {C : Type}.
Variable json_loads : string -> json_exn + json.

Implicit Types df : Transcript C.

Lemma num_tool_errors_value df :
  num_tool_errors json_loads df
  = Ok (len (filter (has_error_in_tool_response json_loads)
                    (all_tool_responses df))).
Proof.
  unfold num_tool_errors.
  rewrite (for_all_range_index (turn_responses df)
             (fun turn num_errors =>
                Ok (fold_left
                      (fun n step =>
                         fold_left (count_tool_response json_loads)
                                   (tool_response step) n)
                      (step_responses turn) num_errors))).
  rewrite num_tool_errors_loop. reflexivity.
Qed.

Lemma num_turn_with_errors_value df :
  num_turn_with_errors json_loads df
  = Ok (len (filter
               (fun turn =>
                  existsb (has_error_in_tool_response json_loads)
                          (turn_tool_responses turn))
               (turn_responses df))).
Proof.
  unfold num_turn_with_errors.
  rewrite (for_all_range_index (turn_responses df)
             (fun turn num_turns_with_error =>
                if existsb (has_error_in_tool_response json_loads)
                     (flat_map tool_response (step_responses turn))
                then Ok (num_turns_with_error + 1)
                else Ok num_turns_with_error)).
  rewrite num_turn_with_errors_loop. reflexivity.
Qed.

(** X5: whatever [json.loads] does, both counts are returned, the number
    of turns with errors is at most the number of tool errors and at most
    the number of turns, and one count is zero exactly when the other
    is. *)
Theorem turns_with_errors_below_tool_errors df :
  exists errors turns,
    num_tool_errors json_loads df = Ok errors /\
    num_turn_with_errors json_loads df = Ok turns /\
    turns <= errors /\
    turns <= len (turn_responses df) /\
    (turns = 0 <-> errors = 0).
Proof.
  rewrite num_tool_errors_value, num_turn_with_errors_value.
  do 2 eexists. split; [reflexivity|]. split; [reflexivity|].
  unfold all_tool_responses.
  destruct (filter_existsb_flat_map
              (has_error_in_tool_response json_loads)
              (@turn_tool_responses C) (turn_responses df)) as [Hle Hz].
  split; [exact Hle|]. split; [apply filter_length_le | exact Hz].
Qed.

(** X6: both counts add up over the turns: on a transcript whose turns are
    those of one transcript followed by those of another, each count is
    the sum of the counts of the two. *)
Theorem tool_error_counts_add df df1 df2 :
  turn_responses df = turn_responses df1 ++ turn_responses df2 ->
  exists e1 e2 t1 t2,
    num_tool_errors json_loads df1 = Ok e1 /\
    num_tool_errors json_loads df2 = Ok e2 /\
    num_tool_errors json_loads df = Ok (e1 + e2) /\
    num_turn_with_errors json_loads df1 = Ok t1 /\
    num_turn_with_errors json_loads df2 = Ok t2 /\
    num_turn_with_errors json_loads df = Ok (t1 + t2).
Proof.
  intros E. rewrite !num_tool_errors_value, !num_turn_with_errors_value.
  do 4 eexists.
  split; [reflexivity|]. split; [reflexivity|].
  split; [|split; [reflexivity|split; [reflexivity|]]].
  - unfold all_tool_responses.
    now rewrite E, flat_map_app, filter_app, length_app.
  - now rewrite E, filter_app, length_app.
Qed.

End ToolErrorRelations.

(** ** Steps without a call: bounds *)

Section NoFuncCallBounds.

Context {C : Type}.

Implicit Types df : Transcript C.

Lemma steps_before_call_length (steps : list Step) :
  len (steps_before_call steps) <= len steps /\
  (len (steps_before_call steps) = 0 <->
   match steps with
   | [] => True
   | entry :: _ => handler_response entry <> None
   end) /\
  (len (steps_before_call steps) = len steps <->
   forall entry, In entry steps -> handler_response entry = None).
Proof.
  induction steps as [|entry steps (IHle & _ & IHall)]; cbn.
  - repeat split; auto. intros _ e [].
  - destruct (handler_response entry) as [h|] eqn:Eh; cbn.
    + split; [lia|]. split; [split; [discriminate | reflexivity]|].
      split; [discriminate|]. intros Hall.
      specialize (Hall entry (or_introl eq_refl)). congruence.
    + split; [lia|]. split; [split; [discriminate | congruence]|].
      split.
      * intros El e [<-|Hin]; [exact Eh|]. apply IHall; [lia | exact Hin].
      * intros Hall. f_equal. apply IHall. auto.
Qed.

(** X7: [no_func_call_rate] raises [ZeroDivisionError] on a transcript
    without turns and never raises otherwise.  Its numerator counts steps:
    it is at most the number of steps of the transcript, it is zero exactly
    when every turn has no step or starts with a step that has a
    [handler_response], and it is the number of all steps exactly when no
    step has one. *)
Theorem no_func_call_rate_bounds df :
  (turn_responses df = [] -> no_func_call_rate df = Raise ZeroDivisionError) /\
  (0 < len (turn_responses df) -> exists q, no_func_call_rate df = Ok q) /\
  exists count,
    no_func_call_count df = Ok count /\
    count <= total_steps df /\
    (count = 0 <->
     forall turn, In turn (turn_responses df) ->
       match step_responses turn with
       | [] => True
       | entry :: _ => handler_response entry <> None
       end) /\
    (count = total_steps df <->
     forall turn entry,
       In turn (turn_responses df) -> In entry (step_responses turn) ->
       handler_response entry = None).
Proof.
  unfold no_func_call_rate. rewrite no_func_call_count_spec.
  split; [|split].
  - intros E. cbn [bind]. now rewrite E.
  - intros Hn. cbn [bind]. rewrite truediv_Ok by exact Hn. eauto.
  - exists (no_call_steps df). split; [reflexivity|].
    unfold no_call_steps, total_steps, list_sum.
    induction (turn_responses df) as [|turn turns (IHle & IHz & IHall)]; cbn.
    + repeat split; auto; intros; contradiction.
    + destruct (steps_before_call_length (step_responses turn))
        as (Hle & Hz & Hall).
      split; [lia|]. split; split.
      * intros E t [<-|Hin]; [apply Hz; lia | apply IHz; [lia | exact Hin]].
      * intros H.
        assert (H1 : len (steps_before_call (step_responses turn)) = 0)
          by (apply Hz, H; now left).
        assert (H2 : fold_right Nat.add 0
                       (map (fun t => len (steps_before_call (step_responses t)))
                            turns) = 0)
          by (apply IHz; intros t Hin; apply H; now right).
        lia.
      * intros E t e [<-|Hin] He.
        -- apply Hall; [lia | exact He].
        -- apply IHall with t; [lia | exact Hin | exact He].
      * intros H.
        assert (H1 : len (steps_before_call (step_responses turn))
                     = len (step_responses turn))
          by (apply Hall; intros e He; apply (H turn); [now left | exact He]).
        assert (H2 : fold_right Nat.add 0
                       (map (fun t => len (steps_before_call (step_responses t)))
                            turns)
                     = fold_right Nat.add 0
                         (map (fun t => len (step_responses t)) turns)).
        { apply IHall. intros t e Hin He. apply (H t); [now right | exact He]. }
        lia.
Qed.

End NoFuncCallBounds.

(** ** The values [check_api_state_mismatch] returns, by position *)

Lemma NoDup_API_LIST : NoDup API_LIST.
Proof.
  unfold API_LIST.
  repeat (constructor; [cbn; intuition discriminate|]). constructor.
Qed.

Lemma dict_get_In_keys (d : dict) (k : string) :
  dict_get d k <> None <-> In k (keys_of d).
Proof.
  induction d as [|[k' v'] d IH]; cbn.
  - tauto.
  - destruct (String.eqb k k') eqn:E.
    + apply String.eqb_eq in E. subst. split; [auto | discriminate].
    + apply String.eqb_neq in E. rewrite IH. split; [auto|].
      intros [->|Hin]; [congruence | exact Hin].
Qed.

Lemma values_by_position (d : dict) (i : nat) (k : string) :
  NoDup (keys_of d) ->
  nth_error (keys_of d) i = Some k ->
  nth_error (values d) i = dict_get d k.
Proof.
  revert i. induction d as [|[k' v'] d IH]; intros i Hnd Hi.
  - now destruct i.
  - cbn in Hnd. inversion Hnd as [|? ? Hnotin Hnd']; subst.
    destruct i as [|i]; cbn in Hi |- *.
    + injection Hi as ->. now rewrite String.eqb_refl.
    + destruct (String.eqb k k') eqn:E.
      * apply String.eqb_eq in E. subst k'. exfalso. apply Hnotin.
        now apply nth_error_In with i.
      * now apply IH.
Qed.

Lemma len_values (d : dict) : len (values d) = len (keys_of d).
Proof.
  unfold values, keys_of. now rewrite !length_map.
Qed.

Section CheckApiStateValues.

Context {C : Type} `{EqDec C}.

Implicit Types df : Transcript C.

(** X8: [check_api_state_mismatch] raises [IndexError] on a transcript
    without turns, whatever its ground-truth log, and on every other
    transcript it returns at least one value per tracked API. *)
Theorem check_api_state_mismatch_needs_a_turn df :
  (turn_responses df = [] ->
   check_api_state_mismatch df = Raise IndexError) /\
  (0 < len (turn_responses df) ->
   exists vals,
     check_api_state_mismatch df = Ok vals /\ len API_LIST <= len vals).
Proof.
  split.
  - intros E. unfold check_api_state_mismatch, check_api_state_mismatch_dict.
    now rewrite E.
  - intros Hn.
    destruct (check_api_state_mismatch_dict_spec df Hn)
      as (state & Hrun & _ & Hincl & _).
    exists (values state). unfold check_api_state_mismatch. rewrite Hrun.
    split; [reflexivity|]. rewrite len_values.
    apply NoDup_incl_length; [exact NoDup_API_LIST | exact Hincl].
Qed.

(** X9: when every class name of the transcript is a tracked API, the
    result has exactly one value per tracked API, in the order of
    [API_LIST]: the value at position [i] is the mark of the [i]-th API. *)
Theorem check_api_state_mismatch_by_position df :
  0 < len (turn_responses df) ->
  names_known df ->
  exists state vals,
    check_api_state_mismatch_dict df = Ok state /\
    check_api_state_mismatch df = Ok vals /\
    len vals = len API_LIST /\
    forall i api,
      nth_error API_LIST i = Some api ->
      exists mark,
        nth_error vals i = Some mark /\ dict_get state api = Some mark.
Proof.
  intros Hn Hknown.
  destruct (check_api_state_mismatch_dict_spec df Hn)
    as (state & Hrun & _ & _ & Hkeys).
  specialize (Hkeys Hknown).
  exists state, (values state). split; [exact Hrun|].
  split; [unfold check_api_state_mismatch; now rewrite Hrun|].
  split; [now rewrite len_values, Hkeys|].
  intros i api Hi.
  assert (Hpos : nth_error (values state) i = dict_get state api).
  { apply values_by_position; rewrite Hkeys; [exact NoDup_API_LIST | exact Hi]. }
  destruct (dict_get state api) as [mark|] eqn:Eg.
  - exists mark. auto.
  - exfalso. apply (proj2 (dict_get_In_keys state api)); [|exact Eg].
    rewrite Hkeys. now apply nth_error_In with i.
Qed.

(** X10: a class name in the first turn's [end_of_turn_state] that is not
    a tracked API gets a key of its own, so the result is longer than
    [API_LIST]. *)
Theorem check_api_state_mismatch_unknown_name df (name : string) :
  0 < len (turn_responses df) ->
  In name (first_turn_names df) ->
  ~ In name API_LIST ->
  exists state vals,
    check_api_state_mismatch_dict df = Ok state /\
    check_api_state_mismatch df = Ok vals /\
    In name (keys_of state) /\
    len API_LIST < len vals.
Proof.
  intros Hn Hfirst Hunknown.
  destruct (check_api_state_mismatch_dict_spec df Hn)
    as (state & Hrun & Hget & Hincl & _).
  assert (Hin : In name (keys_of state)).
  { apply dict_get_In_keys. rewrite Hget.
    apply existsb_eqb_In in Hfirst. rewrite Hfirst.
    destruct (len (ground_truth_log df) =? len (turn_responses df) + 1);
      [destruct (recorded _ _ name)|]; discriminate. }
  exists state, (values state). split; [exact Hrun|].
  split; [unfold check_api_state_mismatch; now rewrite Hrun|].
  split; [exact Hin|].
  rewrite len_values.
  change (len (name :: API_LIST) <= len (keys_of state)).
  apply NoDup_incl_length.
  - constructor; [exact Hunknown | exact NoDup_API_LIST].
  - intros k [<-|Hk]; [exact Hin | now apply Hincl].
Qed.

Lemma mismatch_recorded_some df :
  (exists api, mismatch_recorded df api) <-> exists i, turn_mismatches df i.
Proof.
  unfold mismatch_recorded, turn_mismatches. split.
  - intros (api & i & k & pred & truth & Hp & Hne & _).
    exists i, k, pred, truth. split; [exact Hp | congruence].
  - intros (i & k & pred & truth & Hp & Hne).
    exists (class_name truth), i, k, pred, truth.
    split; [exact Hp|]. split; [congruence | reflexivity].
Qed.

Lemma task_process_rate_finite_iff df :
  len (turn_responses df) < len (ground_truth_log df) ->
  (exists q, task_process_rate df = Ok (Finite q)) <->
  exists i, turn_mismatches df i.
Proof.
  intros Hlen. rewrite task_process_rate_by_verdict. unfold range.
  destruct (rate_loop df (len (turn_responses df)) 0 eq_refl)
    as [(i & Hi & Hf & Hb & Hr) | [(Hall & Hr) | (i & Hi & Hg & _)]];
    [| |lia]; rewrite Hr; cbn [bind].
  - split; [|eauto]. intros _. exists i. now apply verdict_false.
  - split; [intros (q & Hq); discriminate|].
    intros (i & Hm). exfalso. apply verdict_false in Hm.
    assert (Hi : i < len (turn_responses df)).
    { destruct (Nat.lt_ge_cases i (len (turn_responses df))) as [|Hge];
        [assumption|].
      destruct (verdict_Raise df i IndexError) as [_ Hr'].
      rewrite Hr' in Hm by auto. discriminate. }
    rewrite Hall in Hm by lia. discriminate.
Qed.

(** X11: on a well-formed transcript with at least one turn,
    [check_api_state_mismatch] marks some API as mismatch exactly when some
    turn has an unequal pair, which is exactly when [task_process_rate] is
    finite. *)
Theorem some_mismatch_iff_finite_rate df :
  0 < len (turn_responses df) ->
  well_formed df ->
  exists state,
    check_api_state_mismatch_dict df = Ok state /\
    ((exists api, dict_get state api = Some PyTrue) <->
     exists i, turn_mismatches df i) /\
    ((exists i, turn_mismatches df i) <->
     exists q, task_process_rate df = Ok (Finite q)).
Proof.
  intros Hn Hwf.
  destruct (check_api_state_mismatch_dict_spec df Hn)
    as (state & Hrun & Hget & _).
  exists state. split; [exact Hrun|]. split.
  - rewrite <- mismatch_recorded_some.
    assert (Hmark : forall api,
               dict_get state api = Some PyTrue <-> mismatch_recorded df api).
    { intros api. rewrite Hget, <- recorded_iff.
      unfold well_formed in Hwf. apply Nat.eqb_eq in Hwf. rewrite Hwf.
      destruct (recorded _ _ api); [tauto|].
      destruct (existsb (String.eqb api) (first_turn_names df));
        [|destruct (existsb (String.eqb api) API_LIST)];
        split; discriminate. }
    split; intros (api & Ha); exists api; now apply Hmark.
  - symmetry. apply task_process_rate_finite_iff.
    unfold well_formed in Hwf. lia.
Qed.

End CheckApiStateValues.

(** ** How the three rates relate *)

Lemma for_all_app {X S : Type} (xs ys : list X) (f : X -> S -> result S)
    (s : S) :
  for_all (xs ++ ys) f s = s' <- for_all xs f s;; for_all ys f s'.
Proof.
  revert s. induction xs as [|x xs IH]; intros s; cbn.
  - reflexivity.
  - destruct (f x s); [apply IH | reflexivity].
Qed.

Lemma addend_value_bounds (a : addend) :
  discounting a -> (0 < addend_value a <= 1)%R.
Proof.
  destruct a as [|d]; cbn; intros Hd.
  - lra.
  - assert (Hpos : (0 < exp (- IZR d))%R) by apply exp_pos.
    assert (Hlt : (exp (- IZR d) < 1)%R).
    { rewrite <- exp_0. apply exp_increasing.
      apply IZR_le in Hd. lra. }
    lra.
Qed.

Lemma score_value_from (added : list addend) (s : R) :
  fold_left (fun score a => (score + addend_value a)%R) added s
  = (s + score_value added)%R.
Proof.
  unfold score_value. revert s.
  induction added as [|a added IH]; intros s; cbn.
  - lra.
  - rewrite IH, (IH (0 + addend_value a)%R). lra.
Qed.

Lemma score_value_concat (xs ys : list addend) :
  score_value (xs ++ ys) = (score_value xs + score_value ys)%R.
Proof.
  unfold score_value at 1. rewrite fold_left_app.
  fold (score_value xs). apply score_value_from.
Qed.

Lemma score_value_bounds (added : list addend) :
  Forall discounting added ->
  (0 <= score_value added <= INR (len added))%R.
Proof.
  induction 1 as [|a added Ha _ IH].
  - cbn. unfold score_value. cbn. lra.
  - change (a :: added) with ([a] ++ added).
    rewrite score_value_concat, length_app, plus_INR.
    assert (Hone : score_value [a] = addend_value a)
      by (unfold score_value; cbn; lra).
    rewrite Hone. apply addend_value_bounds in Ha. cbn [len INR]. lra.
Qed.

Lemma Q2R_quotient (a n : nat) :
  0 < n -> Q2R (Qred (Z.of_nat a # Pos.of_nat n)) = (INR a / INR n)%R.
Proof.
  intros Hn. rewrite (Qeq_eqR _ _ (Qred_correct _)).
  unfold Q2R. cbn [Qnum Qden]. rewrite Zpos_of_nat by exact Hn.
  now rewrite <- !INR_IZR_INZ.
Qed.

Lemma quotient_one_inv (a n : nat) :
  0 < n -> Qred (Z.of_nat a # Pos.of_nat n) = 1%Q -> a = n.
Proof.
  intros Hn E.
  assert (Hq : (Z.of_nat a # Pos.of_nat n == 1)%Q)
    by (rewrite <- (Qred_correct (Z.of_nat a # Pos.of_nat n)), E; reflexivity).
  unfold Qeq in Hq. cbn in Hq. rewrite Zpos_of_nat in Hq by exact Hn. lia.
Qed.

Section RateRelations.

Context {C : Type} `{EqDec C}.

Implicit Types df : Transcript C.

Lemma average_rate_value df :
  0 < len (turn_responses df) ->
  len (turn_responses df) < len (ground_truth_log df) ->
  average_turn_success_rate df
  = Ok (Qred (Z.of_nat (len (filter (succeeds df)
                                    (seq 0 (len (turn_responses df)))))
              # Pos.of_nat (len (turn_responses df)))).
Proof.
  intros Hn Hg. unfold average_turn_success_rate.
  rewrite turn_success_score_by_verdict. unfold range.
  rewrite score_loop by (intros j Hj; apply verdict_in_range; lia).
  cbn [bind Nat.add]. now rewrite truediv_Ok.
Qed.

Lemma soft_loop_raise df (m k : nat) (st : list addend * option nat) :
  (exists j, k <= j < k + m /\ len (ground_truth_log df) <= j + 1) ->
  k + m <= len (turn_responses df) ->
  for_all (seq k m) (soft_step df) st = Raise IndexError.
Proof.
  revert k st. induction m as [|m IH]; intros k [score last] [j [Hj Hg]] Hk.
  - lia.
  - cbn [seq for_all].
    assert (Es : soft_step df k (score, last) =
                 b <- verdict df k;;
                 if b
                 then Ok (score ++ [correct_turn_addend k last], last)
                 else Ok (score, Some k))
      by reflexivity.
    rewrite Es. clear Es.
    destruct (verdict df k) as [b|e] eqn:Ev; cbn [bind].
    + assert (Hne : j <> k).
      { intros ->. destruct (verdict_Raise df k IndexError) as [_ Hr].
        rewrite Hr in Ev by auto. discriminate. }
      destruct b; apply IH; try lia; exists j; split; auto; lia.
    + apply verdict_Raise in Ev as [-> _]. reflexivity.
Qed.

Lemma soft_loop_invariant df (m k : nat) (score : list addend)
    (last : option nat) :
  (forall j, k <= j < k + m -> exists b, verdict df j = Ok b) ->
  (forall j, last = Some j -> j < k) ->
  exists extra last',
    for_all (seq k m) (soft_step df) (score, last)
    = Ok (score ++ extra, last') /\
    Forall discounting extra /\
    len extra = len (filter (succeeds df) (seq k m)).
Proof.
  revert k score last. induction m as [|m IH]; intros k score last Hv Hlast.
  - exists [], last. cbn. rewrite app_nil_r. auto.
  - cbn [seq for_all filter].
    destruct (Hv k ltac:(lia)) as [b Eb].
    assert (Ef : succeeds df k = b) by (unfold succeeds; now rewrite Eb).
    rewrite Ef.
    assert (Es : soft_step df k (score, last) =
                 if b
                 then Ok (score ++ [correct_turn_addend k last], last)
                 else Ok (score, Some k)).
    { unfold soft_step. rewrite Eb. reflexivity. }
    rewrite Es. clear Es.
    destruct b.
    + destruct (IH (S k) (score ++ [correct_turn_addend k last]) last)
        as (extra & last' & Hrun & Hgood & Hlen).
      * intros j Hj. apply Hv. lia.
      * intros j Hj. specialize (Hlast j Hj). lia.
      * exists (correct_turn_addend k last :: extra), last'.
        rewrite Hrun, <- app_assoc. split; [reflexivity|].
        split; [|cbn [len]; lia].
        constructor; [|exact Hgood].
        unfold correct_turn_addend. destruct last as [j|]; [|exact I].
        specialize (Hlast j eq_refl).
        destruct (k <? j) eqn:Elt; [exact I|]. cbn. lia.
    + destruct (IH (S k) score (Some k)) as (extra & last' & Hrun & Hgood & Hlen).
      * intros j Hj. apply Hv. lia.
      * intros j [= <-]. lia.
      * exists extra, last'. auto.
Qed.

(** X12: [soft_average_turn_success_rate] raises as
    [average_turn_success_rate] does: [ZeroDivisionError] without turns,
    [IndexError] when there is a turn and the ground-truth log has at most
    as many entries as there are turns.  Otherwise both return, and the
    soft rate lies between 0 and the average rate, which is at most 1: the
    soft rate only discounts. *)
Theorem soft_rate_below_average_rate df :
  (len (turn_responses df) = 0 ->
   soft_average_turn_success_rate df = Raise ZeroDivisionError) /\
  (0 < len (turn_responses df) ->
   len (ground_truth_log df) <= len (turn_responses df) ->
   soft_average_turn_success_rate df = Raise IndexError) /\
  (0 < len (turn_responses df) ->
   len (turn_responses df) < len (ground_truth_log df) ->
   exists q r,
     average_turn_success_rate df = Ok q /\
     soft_average_turn_success_rate df = Ok r /\
     (0 <= r)%R /\ (r <= Q2R q)%R /\ (Q2R q <= 1)%R).
Proof.
  unfold soft_average_turn_success_rate. rewrite soft_score_by_verdict.
  unfold range. split; [|split].
  - intros ->. reflexivity.
  - intros Hn Hg. rewrite soft_loop_raise; [reflexivity| |cbn; lia].
    exists (len (turn_responses df) - 1). lia.
  - intros Hn Hg. rewrite average_rate_value by assumption.
    set (n := len (turn_responses df)) in *.
    destruct (soft_loop_invariant df n 0 [] None)
      as (extra & last' & Hrun & Hgood & Hlen).
    { intros j Hj. apply verdict_in_range; fold n; lia. }
    { discriminate. }
    rewrite Hrun. cbn [bind app].
    destruct n as [|n'] eqn:En; [lia|]. cbn [realdiv]. rewrite <- En in *.
    do 2 eexists. split; [reflexivity|]. split; [reflexivity|].
    rewrite Q2R_quotient by lia. rewrite <- Hlen.
    destruct (score_value_bounds extra Hgood) as [Hlo Hhi].
    assert (Hpos : (0 < INR n)%R) by (apply lt_0_INR; lia).
    assert (Hle : (INR (len extra) <= INR n)%R).
    { apply le_INR. rewrite Hlen. etransitivity; [apply filter_length_le|].
      now rewrite length_seq. }
    split; [|split].
    + apply Rmult_le_pos; [exact Hlo|]. left. now apply Rinv_0_lt_compat.
    + apply Rmult_le_compat_r; [left; now apply Rinv_0_lt_compat | exact Hhi].
    + apply Rmult_le_reg_r with (INR n); [exact Hpos|].
      unfold Rdiv. rewrite Rmult_assoc, Rinv_l by lra. lra.
Qed.

Lemma filter_seq_split df (n i : nat) :
  i < n ->
  (forall j, j < i -> verdict df j = Ok true) ->
  verdict df i = Ok false ->
  i <= len (filter (succeeds df) (seq 0 n)) < n.
Proof.
  intros Hi Hb Hf.
  replace n with (i + (1 + (n - i - 1))) at 1 2 by lia.
  rewrite !seq_app, !filter_app, !length_app. cbn [seq filter Nat.add].
  assert (E1 : filter (succeeds df) (seq 0 i) = seq 0 i).
  { apply forallb_filter_id. apply forallb_forall. intros j Hj.
    apply in_seq in Hj. unfold succeeds. rewrite Hb by lia. reflexivity. }
  assert (E2 : succeeds df i = false) by (unfold succeeds; now rewrite Hf).
  rewrite E1, E2, length_seq. cbn [len].
  assert (Hrest : len (filter (succeeds df) (seq (i + 1) (n - i - 1)))
                  <= n - i - 1).
  { etransitivity; [apply filter_length_le|]. now rewrite length_seq. }
  lia.
Qed.

(** X13: when [task_process_rate] is finite on a transcript whose
    ground-truth log has more entries than there are turns, it is at most
    the soft rate, which is at most the average rate, which is below 1:
    the turns before the first mismatch all count in full. *)
Theorem task_process_rate_below_success_rates df (t : Q) :
  len (turn_responses df) < len (ground_truth_log df) ->
  task_process_rate df = Ok (Finite t) ->
  exists q r,
    average_turn_success_rate df = Ok q /\
    soft_average_turn_success_rate df = Ok r /\
    (t <= q)%Q /\ (q < 1)%Q /\ (Q2R t <= r)%R /\ (r <= Q2R q)%R.
Proof.
  intros Hg Ht. rewrite task_process_rate_by_verdict in Ht. unfold range in Ht.
  set (n := len (turn_responses df)) in *.
  destruct (rate_loop df n 0 eq_refl)
    as [(i & Hi & Hf & Hb & Hr) | [(Hall & Hr) | (i & Hi & Hgt & _)]];
    [| |fold n in Hi; lia]; fold n in Hr; rewrite Hr in Ht; cbn [bind] in Ht;
    [|discriminate].
  fold n in Hi.
  assert (Et : t = Qred (Z.of_nat i # Pos.of_nat n)) by congruence.
  subst t. clear Ht.
  assert (Hn : 0 < n) by lia.
  assert (Hbefore : forall j, j < i -> verdict df j = Ok true)
    by (intros j Hj; apply Hb; lia).
  destruct (filter_seq_split df n i ltac:(lia) Hbefore Hf) as [Hlo Hhi].
  assert (Eseq : seq 0 n = seq 0 i ++ seq i (n - i)).
  { rewrite <- seq_app. f_equal. lia. }
  destruct (soft_loop_invariant df (n - i) i (repeat One i) None)
    as (extra & last' & Hrun & Hgood & Hlen).
  { intros j Hj. apply verdict_in_range; fold n; lia. }
  { discriminate. }
  assert (Hsoft : for_all (seq 0 n) (soft_step df) ([], None)
                  = Ok (repeat One i ++ extra, last')).
  { rewrite Eseq, for_all_app.
    rewrite soft_loop_all_match by (intros j Hj; apply Hb; lia).
    cbn [bind app]. exact Hrun. }
  assert (Hcount : len (filter (succeeds df) (seq 0 n)) = i + len extra).
  { rewrite Eseq, filter_app, length_app, <- Hlen. f_equal.
    replace (filter (succeeds df) (seq 0 i)) with (seq 0 i);
      [apply length_seq|].
    symmetry. apply forallb_filter_id. apply forallb_forall. intros j Hj.
    apply in_seq in Hj. unfold succeeds. rewrite Hb by lia. reflexivity. }
  rewrite average_rate_value by assumption. fold n.
  unfold soft_average_turn_success_rate. rewrite soft_score_by_verdict.
  fold n. unfold range. rewrite Hsoft. cbn [bind].
  assert (Ediv : realdiv (score_value (repeat One i ++ extra)) n
                 = Ok (score_value (repeat One i ++ extra) / INR n)%R)
    by (destruct n; [lia | reflexivity]).
  rewrite Ediv.
  do 2 eexists. split; [reflexivity|]. split; [reflexivity|].
  assert (Hpos : (0 < INR n)%R) by (apply lt_0_INR; lia).
  assert (Hinv : (0 <= / INR n)%R) by (left; now apply Rinv_0_lt_compat).
  destruct (score_value_bounds extra Hgood) as [Hxlo Hxhi].
  split; [|split; [|split]].
  - rewrite !Qred_correct. unfold Qle. cbn [Qnum Qden].
    apply Z.mul_le_mono_nonneg_r; lia.
  - apply quotient_lt_1. lia.
  - rewrite Q2R_quotient by lia. rewrite score_value_concat, score_value_ones.
    apply Rmult_le_compat_r; [exact Hinv | lra].
  - rewrite Q2R_quotient by lia. rewrite Hcount, plus_INR.
    rewrite score_value_concat, score_value_ones.
    apply Rmult_le_compat_r; [exact Hinv | lra].
Qed.

(** X14: on a transcript with at least one turn whose ground-truth log has
    more entries than there are turns, the three rates agree on a fully
    correct run: [task_process_rate] is infinity exactly when
    [average_turn_success_rate] is 1, which is exactly when
    [soft_average_turn_success_rate] is 1. *)
Theorem fully_correct_rates_agree df :
  0 < len (turn_responses df) ->
  len (turn_responses df) < len (ground_truth_log df) ->
  (task_process_rate df = Ok PosInf <->
   average_turn_success_rate df = Ok 1%Q) /\
  (average_turn_success_rate df = Ok 1%Q <->
   soft_average_turn_success_rate df = Ok 1%R).
Proof.
  intros Hn Hg.
  set (n := len (turn_responses df)) in *.
  assert (Hcases :
    (forall j, j < n -> verdict df j = Ok true) \/
    exists i, i < n /\ verdict df i = Ok false /\
              (forall j, j < i -> verdict df j = Ok true)).
  { destruct (rate_loop df n 0 eq_refl)
      as [(i & Hi & Hf & Hb & _) | [(Hall & _) | (i & Hi & Hgt & _)]].
    - right. exists i. fold n in Hi. repeat split; [lia | exact Hf|].
      intros j Hj. apply Hb. lia.
    - left. intros j Hj. apply Hall. fold n. lia.
    - fold n in Hi. lia. }
  destruct Hcases as [Hall | (i & Hi & Hf & Hb)].
  - rewrite (task_process_rate_all_match df Hall).
    rewrite (average_rate_all_match df Hn Hall).
    rewrite (soft_rate_all_match df Hn Hall). tauto.
  - assert (Hfin : exists t, task_process_rate df = Ok (Finite t)).
    { apply task_process_rate_finite_iff; [exact Hg|].
      exists i. now apply verdict_false. }
    destruct Hfin as (t & Ht).
    destruct (task_process_rate_below_success_rates df t Hg Ht)
      as (q & r & Hq & Hr & _ & Hlt & _ & Hle).
    rewrite Ht, Hq, Hr. split; split; intros E; try discriminate.
    + injection E as ->. exfalso. revert Hlt. unfold Qlt. cbn. lia.
    + injection E as ->. exfalso. revert Hlt. unfold Qlt. cbn. lia.
    + injection E as ->. exfalso.
      apply Qlt_Rlt in Hlt. replace (Q2R 1) with 1%R in Hlt by (unfold Q2R; cbn; lra).
      lra.
Qed.

End RateRelations.

(** ** Means of steps and tool calls *)

Lemma Qsum_from (xs : list Q) (a : Q) :
  (fold_left Qplus xs a == a + Qsum xs)%Q.
Proof.
  unfold Qsum. revert a. induction xs as [|x xs IH]; intros a; cbn.
  - Lqa.lra.
  - rewrite IH, (IH (0 + x)%Q). Lqa.lra.
Qed.

Lemma Qsum_cons (x : Q) (xs : list Q) : (Qsum (x :: xs) == x + Qsum xs)%Q.
Proof.
  unfold Qsum at 1. cbn. rewrite Qsum_from. Lqa.lra.
Qed.

Lemma of_int_S (n : nat) : (of_int (S n) == of_int n + 1)%Q.
Proof.
  unfold of_int. rewrite Nat2Z.inj_succ, <- Z.add_1_r, inject_Z_plus.
  reflexivity.
Qed.

Lemma of_int_pos (n : nat) : 0 < n -> (0 < of_int n)%Q.
Proof.
  intros Hn. unfold of_int, Qlt. cbn. lia.
Qed.

Lemma of_int_le (a b : nat) : a <= b -> (of_int a <= of_int b)%Q.
Proof.
  intros Hab. unfold of_int, Qle. cbn. lia.
Qed.

Lemma Qsum_bounds (xs : list Q) (lo hi : Q) :
  Forall (fun x => (lo <= x /\ x <= hi)%Q) xs ->
  (of_int (len xs) * lo <= Qsum xs /\ Qsum xs <= of_int (len xs) * hi)%Q.
Proof.
  induction 1 as [|x xs [Hlo Hhi] _ [IHlo IHhi]].
  - change (0 * lo <= 0 /\ 0 <= 0 * hi)%Q. split; Lqa.lra.
  - cbn [len]. rewrite Qsum_cons, of_int_S. split; Lqa.lra.
Qed.

Lemma Qsum_of_int (l : list nat) : (Qsum (map of_int l) == of_int (list_sum l))%Q.
Proof.
  induction l as [|k l IH].
  - reflexivity.
  - cbn [map list_sum fold_right]. rewrite Qsum_cons, IH.
    unfold of_int. rewrite Nat2Z.inj_add, inject_Z_plus. reflexivity.
Qed.

Lemma mean_value (xs : list Q) :
  xs <> [] -> mean xs = Number (Qred (Qsum xs / of_int (len xs))).
Proof.
  destruct xs; [congruence | reflexivity].
Qed.

Lemma mean_bounds (xs : list Q) (lo hi : Q) :
  xs <> [] ->
  Forall (fun x => (lo <= x /\ x <= hi)%Q) xs ->
  exists q,
    mean xs = Number q /\
    (q == Qsum xs / of_int (len xs))%Q /\ (lo <= q)%Q /\ (q <= hi)%Q.
Proof.
  intros Hne Hall.
  destruct xs as [|x xs]; [congruence|].
  set (l := x :: xs) in *.
  exists (Qred (Qsum l / of_int (len l))). split; [reflexivity|].
  rewrite Qred_correct. split; [reflexivity|].
  assert (Hpos : (0 < of_int (len l))%Q) by (apply of_int_pos; cbn; lia).
  destruct (Qsum_bounds l lo hi Hall) as [Hlo Hhi]. split.
  - apply Qle_shift_div_l; [exact Hpos|]. rewrite Qmult_comm. exact Hlo.
  - apply Qle_shift_div_r; [exact Hpos|]. rewrite Qmult_comm. exact Hhi.
Qed.

Lemma len_removelast {X : Type} (l : list X) : len (removelast l) = len l - 1.
Proof.
  induction l as [|x [|y l] IH]; try reflexivity.
  change (removelast (x :: y :: l)) with (x :: removelast (y :: l)).
  cbn [len] in *. lia.
Qed.

Section Means.

Context {C : Type}.

Implicit Types df : Transcript C.

(** X15: [average_num_steps] is not-a-number on a transcript without
    turns; otherwise it is the sum of the turns' [num_steps] divided by the
    number of turns, and lies between any two bounds that hold of every
    turn's [num_steps]. *)
Theorem average_num_steps_mean df :
  (turn_responses df = [] -> average_num_steps df = NotANumber) /\
  (0 < len (turn_responses df) ->
   exists q,
     average_num_steps df = Number q /\
     (q == of_int (list_sum (map num_steps (turn_responses df)))
           / of_int (len (turn_responses df)))%Q /\
     forall lo hi,
       (forall turn, In turn (turn_responses df) ->
                     lo <= num_steps turn <= hi) ->
       (of_int lo <= q)%Q /\ (q <= of_int hi)%Q).
Proof.
  unfold average_num_steps. split.
  - intros ->. reflexivity.
  - intros Hn.
    set (xs := map (fun x => of_int (num_steps x)) (turn_responses df)).
    assert (Hne : xs <> []).
    { unfold xs. destruct (turn_responses df); [cbn in Hn; lia | discriminate]. }
    assert (Hlen : len xs = len (turn_responses df))
      by (unfold xs; apply length_map).
    assert (Hsum : (Qsum xs
                    == of_int (list_sum (map num_steps (turn_responses df))))%Q).
    { unfold xs. rewrite <- Qsum_of_int, map_map. reflexivity. }
    rewrite (mean_value xs Hne). eexists. split; [reflexivity|].
    split; [rewrite Qred_correct, Hsum, Hlen; reflexivity|].
    intros lo hi Hb.
    destruct (mean_bounds xs (of_int lo) (of_int hi) Hne)
      as (q & Hq & _ & Hlo & Hhi).
    + apply Forall_forall. intros y Hy.
      apply in_map_iff in Hy as (turn & <- & Hin).
      destruct (Hb turn Hin). split; apply of_int_le; assumption.
    + rewrite (mean_value xs Hne) in Hq. injection Hq as <-. auto.
Qed.

Lemma samples_fold (turns : list (Turn C)) (acc : list npfloat) :
  fold_left
    (fun samples turn_response =>
       let turn_num_tools :=
         map (fun step_response => of_int (num_tools step_response))
             (removelast (step_responses turn_response)) in
       if 0 <? len turn_num_tools
       then samples ++ [mean turn_num_tools]
       else samples)
    turns acc
  = acc ++ map tools_sample
             (filter has_sample (map tools_before_last turns)).
Proof.
  revert acc. induction turns as [|turn turns IH]; intros acc.
  - cbn. now rewrite app_nil_r.
  - cbn [fold_left map filter]. rewrite IH. cbv zeta.
    unfold has_sample at 2, tools_before_last at 2.
    rewrite !length_map.
    destruct (0 <? len (removelast (step_responses turn))); [|reflexivity].
    rewrite <- app_assoc. cbn [app map].
    unfold tools_sample at 2, tools_before_last at 2.
    now rewrite map_map.
Qed.

Lemma average_num_tools_samples df :
  average_num_tools df
  = np_mean (map tools_sample
                 (filter has_sample
                         (map tools_before_last (turn_responses df)))).
Proof.
  unfold average_num_tools. cbv zeta. f_equal. apply samples_fold.
Qed.

Lemma numbers_samples (samples : list (list nat)) :
  Forall (fun tools => has_sample tools = true) samples ->
  numbers (map tools_sample samples)
  = Some (map (fun tools =>
                 Qred (Qsum (map of_int tools) / of_int (len (map of_int tools))))
              samples).
Proof.
  induction 1 as [|tools samples Htools _ IH]; cbn [map numbers].
  - reflexivity.
  - unfold tools_sample at 1. rewrite mean_value.
    + now rewrite IH.
    + unfold has_sample in Htools. apply Nat.ltb_lt in Htools.
      destruct tools; [cbn in Htools; lia | discriminate].
Qed.

Lemma has_sample_steps (turn : Turn C) :
  has_sample (tools_before_last turn) = (1 <? len (step_responses turn)).
Proof.
  unfold has_sample, tools_before_last. rewrite length_map, len_removelast.
  destruct (len (step_responses turn)) as [|[|n]]; reflexivity.
Qed.

(** X16: [average_num_tools] reads the [num_tools] of every step of a turn
    but the last, so two transcripts that agree on those give the same
    result.  A turn with fewer than two steps gives no sample and can be
    left out; the result is not-a-number exactly when every turn is such a
    turn.  A result that is a number lies between any two bounds that hold
    of every [num_tools] read. *)
Theorem average_num_tools_ignores_last_step df :
  (forall df',
      map tools_before_last (turn_responses df')
      = map tools_before_last (turn_responses df) ->
      average_num_tools df' = average_num_tools df) /\
  (forall df',
      turn_responses df'
      = filter (fun turn => 1 <? len (step_responses turn)) (turn_responses df) ->
      average_num_tools df' = average_num_tools df) /\
  (average_num_tools df = NotANumber <->
   forall turn, In turn (turn_responses df) -> len (step_responses turn) <= 1) /\
  (forall lo hi q,
      (forall turn k, In turn (turn_responses df) ->
                      In k (tools_before_last turn) -> lo <= k <= hi) ->
      average_num_tools df = Number q ->
      (of_int lo <= q)%Q /\ (q <= of_int hi)%Q).
Proof.
  split; [|split; [|split]].
  - intros df' E. rewrite !average_num_tools_samples. now rewrite E.
  - intros df' E. rewrite !average_num_tools_samples. rewrite E. do 2 f_equal.
    clear E. induction (turn_responses df) as [|turn turns IH]; [reflexivity|].
    cbn [filter map]. rewrite has_sample_steps.
    destruct (1 <? len (step_responses turn)) eqn:El; cbn [map filter].
    + rewrite has_sample_steps, El. now rewrite IH.
    + exact IH.
  - rewrite average_num_tools_samples. unfold np_mean.
    assert (Hall : Forall (fun tools => has_sample tools = true)
                     (filter has_sample
                             (map tools_before_last (turn_responses df)))).
    { apply Forall_forall. intros tools Hin. now apply filter_In in Hin. }
    rewrite (numbers_samples _ Hall).
    split.
    + intros Hnan turn Hin.
      destruct (filter has_sample (map tools_before_last (turn_responses df)))
        as [|tools rest] eqn:Ef; [|discriminate Hnan].
      assert (Hno : has_sample (tools_before_last turn) = false).
      { destruct (has_sample (tools_before_last turn)) eqn:Es; [|reflexivity].
        assert (Hin' : In (tools_before_last turn)
                          (filter has_sample
                                  (map tools_before_last (turn_responses df)))).
        { apply filter_In. split; [now apply in_map | exact Es]. }
        rewrite Ef in Hin'. destruct Hin'. }
      rewrite has_sample_steps in Hno. apply Nat.ltb_ge in Hno. exact Hno.
    + intros Hshort.
      replace (filter has_sample (map tools_before_last (turn_responses df)))
        with (@nil (list nat)); [reflexivity|].
      symmetry. induction (turn_responses df) as [|turn turns IH];
        [reflexivity|].
      cbn [map filter]. rewrite has_sample_steps.
      assert (Hl : len (step_responses turn) <= 1)
        by (apply Hshort; now left).
      apply Nat.ltb_ge in Hl. rewrite Hl.
      apply IH.
      * apply Forall_forall. intros tools Hin. now apply filter_In in Hin.
      * intros t Ht. apply Hshort. now right.
  - intros lo hi q Hb Hq. rewrite average_num_tools_samples in Hq.
    unfold np_mean in Hq.
    set (samples := filter has_sample
                      (map tools_before_last (turn_responses df))) in *.
    assert (Hall : Forall (fun tools => has_sample tools = true) samples).
    { apply Forall_forall. intros tools Hin. now apply filter_In in Hin. }
    rewrite (numbers_samples _ Hall) in Hq.
    set (qs := map (fun tools =>
                      Qred (Qsum (map of_int tools)
                            / of_int (len (map of_int tools)))) samples) in *.
    assert (Hne : qs <> []).
    { intros E. rewrite E in Hq. discriminate. }
    destruct (mean_bounds qs (of_int lo) (of_int hi) Hne)
      as (q' & Hq' & _ & Hlo & Hhi).
    + apply Forall_forall. intros y Hy. unfold qs in Hy.
      apply in_map_iff in Hy as (tools & <- & Hin).
      assert (Hs : has_sample tools = true)
        by (rewrite Forall_forall in Hall; now apply Hall).
      unfold samples in Hin. apply filter_In in Hin as [Hin _].
      apply in_map_iff in Hin as (turn & <- & Hturn).
      assert (Hne' : map of_int (tools_before_last turn) <> []).
      { unfold has_sample in Hs. apply Nat.ltb_lt in Hs.
        destruct (tools_before_last turn); [cbn in Hs; lia | discriminate]. }
      destruct (mean_bounds (map of_int (tools_before_last turn))
                  (of_int lo) (of_int hi) Hne')
        as (m & Hm & _ & Hmlo & Hmhi).
      * apply Forall_forall. intros z Hz.
        apply in_map_iff in Hz as (k & <- & Hk).
        destruct (Hb turn k Hturn Hk). split; apply of_int_le; assumption.
      * rewrite (mean_value _ Hne') in Hm. injection Hm as <-. auto.
    + rewrite Hq in Hq'. injection Hq' as <-. auto.
Qed.

End Means.

(** ** The further properties on the example transcripts *)


(** X2 on a turn without steps and on a transcript that opens with an
    apology: the turn without steps that follows is never read. *)
Lemma apologetic_outcomes_witness :
  closing_verdict (mkTurn 0 [] ([] : list (ApiState string)))
  = Raise IndexError /\
  apologetic broken_apology_transcript = Ok true.
Proof.
  split.
  - apply (proj1 (proj2 (apologetic_outcomes empty_transcript))).
    reflexivity.
  - destruct (proj1 (apologetic_outcomes broken_apology_transcript))
      as [(_ & _ & _ & _ & _ & _ & Hr)
         | [(Hall & _) | (before & turn & after & e & E & Hb & He & _)]].
    + exact Hr.
    + exfalso. inversion Hall as [|? ? Hfirst _]. vm_compute in Hfirst.
      discriminate Hfirst.
    + exfalso. destruct before as [|first before].
      * cbn in E. injection E as <- _. vm_compute in He. discriminate He.
      * inversion Hb as [|? ? Hfirst _]. cbn in E. injection E as <- _.
        vm_compute in Hfirst. discriminate Hfirst.
Defined.

(** X3 on the transcript without turns, on a transcript of two readable
    turns, and on one with a turn without steps after them. *)
Lemma apologetic_rate_outcomes_witness :
  apologetic_rate empty_transcript = Raise ZeroDivisionError /\
  (exists q,
      apologetic_rate apology_transcript = Ok q /\
      (q == inject_Z 1 / inject_Z 2)%Q) /\
  apologetic_rate broken_apology_transcript = Raise IndexError.
Proof.
  split; [|split].
  - apply (proj1 (apologetic_rate_outcomes empty_transcript)). reflexivity.
  - destruct (proj1 (proj2 (apologetic_rate_outcomes apology_transcript)))
      as (q & Hq & Hval & _).
    + cbn. lia.
    + repeat constructor; eexists; vm_compute; reflexivity.
    + exists q. split; [exact Hq|]. rewrite Hval. vm_compute. reflexivity.
  - apply (proj2 (proj2 (apologetic_rate_outcomes broken_apology_transcript))
             (turn_responses apology_transcript)
             (mkTurn 0 [] []) []).
    + reflexivity.
    + repeat constructor; eexists; vm_compute; reflexivity.
    + reflexivity.
Defined.

(** X4 on a transcript whose only closing message is [None]. *)
Lemma apologetic_agrees_with_rate_witness :
  exists q, apologetic_rate null_message_transcript = Ok q /\ (q == 0)%Q.
Proof.
  apply (proj2 (apologetic_agrees_with_rate null_message_transcript)).
  - cbn. lia.
  - reflexivity.
Defined.

(** X5 on the tool transcript. *)
Lemma turns_with_errors_below_tool_errors_witness :
  exists errors turns,
    num_tool_errors json_decode tool_transcript = Ok errors /\
    num_turn_with_errors json_decode tool_transcript = Ok turns /\
    turns <= errors.
Proof.
  destruct (turns_with_errors_below_tool_errors json_decode tool_transcript)
    as (errors & turns & He & Ht & Hle & _).
  exists errors, turns. auto.
Defined.

(** X6 on the tool transcript, split into its two turns. *)
Lemma tool_error_counts_add_witness :
  turn_responses tool_transcript
  = turn_responses first_tool_transcript
    ++ turn_responses second_tool_transcript /\
  exists e1 e2,
    num_tool_errors json_decode first_tool_transcript = Ok e1 /\
    num_tool_errors json_decode second_tool_transcript = Ok e2 /\
    num_tool_errors json_decode tool_transcript = Ok (e1 + e2).
Proof.
  split; [reflexivity|].
  destruct (tool_error_counts_add json_decode tool_transcript
              first_tool_transcript second_tool_transcript eq_refl)
    as (e1 & e2 & _ & _ & H1 & H2 & H & _).
  exists e1, e2. auto.
Defined.

(** X7 on the transcript without turns and on one with three steps before
    a call among its five steps. *)
Lemma no_func_call_rate_bounds_witness :
  no_func_call_rate empty_transcript = Raise ZeroDivisionError /\
  (exists q, no_func_call_rate no_call_transcript = Ok q) /\
  exists count,
    no_func_call_count no_call_transcript = Ok count /\
    count <= total_steps no_call_transcript.
Proof.
  split; [|split].
  - apply (proj1 (no_func_call_rate_bounds empty_transcript)). reflexivity.
  - apply (proj1 (proj2 (no_func_call_rate_bounds no_call_transcript))).
    cbn. lia.
  - destruct (proj2 (proj2 (no_func_call_rate_bounds no_call_transcript)))
      as (count & Hcount & Hle & _).
    exists count. auto.
Defined.

(** X8 on the transcript without turns and on the three-turn scenario. *)
Lemma check_api_state_mismatch_needs_a_turn_witness :
  check_api_state_mismatch empty_transcript = Raise IndexError /\
  exists vals,
    check_api_state_mismatch scenario_transcript = Ok vals /\
    len API_LIST <= len vals.
Proof.
  split.
  - apply (proj1 (check_api_state_mismatch_needs_a_turn empty_transcript)).
    reflexivity.
  - apply (proj2 (check_api_state_mismatch_needs_a_turn scenario_transcript)).
    cbn. lia.
Defined.

(** X9 on the three-turn scenario. *)
Lemma check_api_state_mismatch_by_position_witness :
  exists vals,
    check_api_state_mismatch scenario_transcript = Ok vals /\
    len vals = len API_LIST.
Proof.
  destruct (check_api_state_mismatch_by_position scenario_transcript)
    as (state & vals & _ & Hrun & Hlen & _).
  - cbn. lia.
  - exact scenario_names_known.
  - exists vals. auto.
Defined.

(** X10 on a transcript whose first turn names an API that is not
    tracked. *)
Lemma check_api_state_mismatch_unknown_name_witness :
  exists vals,
    check_api_state_mismatch unknown_api_transcript = Ok vals /\
    len API_LIST < len vals.
Proof.
  destruct (check_api_state_mismatch_unknown_name
              unknown_api_transcript "WeatherAPI")
    as (state & vals & _ & Hrun & _ & Hlen).
  - cbn. lia.
  - cbn. auto.
  - cbn. intuition discriminate.
  - exists vals. auto.
Defined.

(** X11 on the three-turn scenario. *)
Lemma some_mismatch_iff_finite_rate_witness :
  exists state,
    check_api_state_mismatch_dict scenario_transcript = Ok state /\
    ((exists api, dict_get state api = Some PyTrue) <->
     exists i, turn_mismatches scenario_transcript i).
Proof.
  destruct (some_mismatch_iff_finite_rate scenario_transcript)
    as (state & Hrun & Hiff & _).
  - cbn. lia.
  - reflexivity.
  - exists state. auto.
Defined.

(** X12 on the three-turn scenario. *)
Lemma soft_rate_below_average_rate_witness :
  exists q r,
    average_turn_success_rate scenario_transcript = Ok q /\
    soft_average_turn_success_rate scenario_transcript = Ok r /\
    (0 <= r)%R /\ (r <= Q2R q)%R.
Proof.
  destruct (proj2 (proj2 (soft_rate_below_average_rate scenario_transcript)))
    as (q & r & Hq & Hr & Hlo & Hhi & _).
  - cbn. lia.
  - cbn. lia.
  - exists q, r. auto.
Defined.

(** X13 on the three-turn scenario, whose first turn mismatches. *)
Lemma task_process_rate_below_success_rates_witness :
  exists q r,
    average_turn_success_rate scenario_transcript = Ok q /\
    soft_average_turn_success_rate scenario_transcript = Ok r /\
    (0 <= q)%Q /\ (q < 1)%Q.
Proof.
  destruct (task_process_rate_below_success_rates scenario_transcript 0%Q)
    as (q & r & Hq & Hr & Hlo & Hhi & _).
  - cbn. lia.
  - reflexivity.
  - exists q, r. auto.
Defined.

(** X14 on the transcript of two matching turns. *)
Lemma fully_correct_rates_agree_witness :
  task_process_rate matching_transcript = Ok PosInf <->
  average_turn_success_rate matching_transcript = Ok 1%Q.
Proof.
  apply (fully_correct_rates_agree matching_transcript); cbn; lia.
Defined.

(** X15 on the three-turn scenario, each turn of one step. *)
Lemma average_num_steps_mean_witness :
  exists q,
    average_num_steps scenario_transcript = Number q /\
    (of_int 1 <= q)%Q /\ (q <= of_int 1)%Q.
Proof.
  destruct (proj2 (average_num_steps_mean scenario_transcript))
    as (q & Hq & _ & Hb).
  - cbn. lia.
  - exists q. split; [exact Hq|]. apply Hb.
    intros turn Hin. cbn in Hin.
    destruct Hin as [<-|[<-|[<-|[]]]]; cbn; lia.
Defined.

(** X16 on the transcript with a turn of four steps and a turn of one. *)
Lemma average_num_tools_ignores_last_step_witness :
  average_num_tools no_call_transcript = Number 0%Q /\
  (of_int 0 <= 0)%Q /\ (0 <= of_int 0)%Q.
Proof.
  split; [reflexivity|].
  apply (proj2 (proj2 (proj2
           (average_num_tools_ignores_last_step no_call_transcript)))).
  - intros turn k Hin Hk. cbn in Hin.
    destruct Hin as [<-|[<-|[]]]; cbn in Hk.
    + destruct Hk as [<-|[<-|[<-|[]]]]; lia.
    + destruct Hk.
  - reflexivity.
Defined.
